(** * Atalanta bot: launch monitor, arbitrage scanner and snipe executor

    A shallow embedding of the event handler and the recent-launch cache of
    [src/sniper/monitor.py], of the profitability arithmetic and the
    opportunity cache of [src/dex/multi_dex.py], of the slippage computation
    of [src/dex/kumbaya.py] and of the request pipeline of
    [src/sniper/executor.py], followed by the properties of these functions.

    Python [float] is IEEE 754 binary64 and is modelled by Rocq's primitive
    floats, Python [int] by [Z], [str] by [string], [dict] by [gmap], [set]
    by [gset], [list] by [list].  Calls that leave the process (chain RPC,
    exchange objects, storage, clock) are read from an environment record. *)

From Stdlib Require Import ZArith List Floats Lia Bool Ascii Reals Lra Psatz.
From stdpp Require Import gmap strings list fin_maps pretty.

Set Warnings "-inexact-float".

#[local] Open Scope Z_scope.

(** ** Python built-ins used by the sources *)

Module Py.

Section Slices.
Context {A : Type}.

(** [l[start:]]: a negative start counts from the end, and the start is
    clamped to the bounds of the list. *)
Definition slice_from (start : Z) (l : list A) : list A :=
  let len := Z.of_nat (length l) in
  let s := if start <? 0 then Z.max 0 (start + len) else Z.min start len in
  drop (Z.to_nat s) l.

(** [l[-n:]] *)
Definition slice_last (n : Z) (l : list A) : list A := slice_from (- n) l.

End Slices.

(** [str.lower()] on ASCII text (addresses are hexadecimal ASCII). *)
Definition lower_ascii (c : Ascii.ascii) : Ascii.ascii :=
  let n := Ascii.nat_of_ascii c in
  if ((65 <=? n) && (n <=? 90))%nat then Ascii.ascii_of_nat (n + 32) else c.

Fixpoint lower (s : string) : string :=
  match s with
  | EmptyString => EmptyString
  | String c r => String (lower_ascii c) (lower r)
  end.

(** [str * n] for a one-character string. *)
Fixpoint repeat_char (c : Ascii.ascii) (n : nat) : string :=
  match n with
  | O => EmptyString
  | S k => String c (repeat_char c k)
  end.

(** An exception-raising computation: [Raise msg] carries [str(e)]. *)
Inductive outcome (A : Type) : Type :=
| Ok (a : A)
| Raise (msg : string).
Arguments Ok {A} a.
Arguments Raise {A} msg.

(** [float(z)] as done implicitly by [int * float] and [int / float]:
    rounding to nearest even, [OverflowError] beyond the largest double. *)
Definition float_of_Z (z : Z) : outcome float :=
  match binary_normalize prec emax z 0 false with
  | S754_infinity _ => Raise "int too large to convert to float"
  | sf => Ok (SF2Prim sf)
  end.

(** [int(x)]: truncation toward zero; [ValueError] on NaN and
    [OverflowError] on an infinity. *)
Definition int_of_float (x : float) : outcome Z :=
  match Prim2SF x with
  | S754_zero _ => Ok 0
  | S754_finite s m e => Ok (cond_Zopp s (Z.shiftl (Z.pos m) e))
  | S754_infinity _ => Raise "cannot convert float infinity to integer"
  | S754_nan => Raise "cannot convert float NaN to integer"
  end.

(** [min(a, b)] on floats: the first argument unless the second is smaller. *)
Definition min (a b : float) : float := if (b <? a)%float then b else a.

(** [a > b] *)
Definition gt (a b : float) : bool := (b <? a)%float.

(** A [datetime], as microseconds since the epoch (UTC). *)
Definition datetime : Type := Z.

(** [int(t.timestamp())]: [timestamp()] divides the microsecond count by
    [10**6] in floating point and [int] truncates. *)
Definition timestamp (t : datetime) : outcome float :=
  match float_of_Z t with
  | Ok f => Ok (f / 1e6)%float
  | Raise msg => Raise msg
  end.

Definition int_timestamp (t : datetime) : outcome Z :=
  match timestamp t with
  | Ok f => int_of_float f
  | Raise msg => Raise msg
  end.

(** [l.remove(x)]: the first item equal to [x] goes ([ValueError] when
    there is none; the callers test [x in l] first). *)
Fixpoint list_remove (x : string) (l : list string) : list string :=
  match l with
  | [] => []
  | y :: rest => if String.eqb y x then rest else y :: list_remove x rest
  end.

(** [max(l, key=f)] on a list that is not empty: the first item is kept
    until an item with a strictly greater key comes. *)
Definition max_key {A : Type} (key : A -> float) (first : A) (rest : list A) : A :=
  fold_left (fun best item => if gt (key item) (key best) then item else best) rest first.

(** The truth value of a float: false for [0.0] and [-0.0] only. *)
Definition truthy (x : float) : bool := negb (x =? 0)%float.

(** [w3.from_wei(wei, 'ether') >= x]: [from_wei] gives the integer 0
    for 0, refuses what is not a 256-bit amount and otherwise returns the
    exact decimal [wei / 10**18], which is compared with the exact value
    of the float; a comparison with NaN raises. *)
Definition from_wei_ge (wei : Z) (x : float) : outcome bool :=
  if wei =? 0 then Ok (x <=? 0)%float
  else if (wei <? 0) || (2 ^ 256 <=? wei) then Raise "value must be between 1 and 2**256 - 1"
  else
    match Prim2SF x with
    | S754_nan => Raise "comparison involving NaN"
    | S754_infinity s => Ok s
    | S754_zero _ => Ok true
    | S754_finite true _ _ => Ok true
    | S754_finite false m e =>
      Ok (if 0 <=? e then Z.pos m * 2 ^ e * 10 ^ 18 <=? wei
          else Z.pos m * 10 ^ 18 <=? wei * 2 ^ (- e))
    end.

End Py.

(** ** [src/config.py] *)

Module Config.

Definition DEFAULT_GAS_LIMIT : Z := 300000.
Definition MAX_GAS_PRICE : Z := 50000000000.
Definition MIN_PROFIT_THRESHOLD : float := 0.005%float.
Definition KUMBADYA_FACTORY : string := "0x53447989580f541bc138d29A0FcCf72AfbBE1355".

(** [Config.WETH_ADDRESS] is read by the scanner and by the executor, and
    the class [Config] does not declare it: reading it raises
    [AttributeError]. *)
Definition WETH_ADDRESS : Py.outcome string :=
  Py.Raise "type object 'Config' has no attribute 'WETH_ADDRESS'".

End Config.

(** ** [src/sniper/monitor.py] *)

Module Monitor.

Record TokenLaunch : Type := mkTokenLaunch {
  token_address : string;
  token0 : string;
  token1 : string;
  pair_address : string;
  all_pairs_length : Z;
  block_number : Z;
  transaction_hash : string;
  timestamp : Py.datetime
}.

(** The decoded arguments of a [PairCreated] log. *)
Record PairCreated : Type := mkPairCreated {
  args_token0 : string;
  args_token1 : string;
  args_pair : string;
  args_allPairsLength : Z;
  blockNumber : Z;
  transactionHash_hex : string
}.

(** What the subscription delivers: a log that decodes, or one on which an
    attribute access of the handler raises. *)
Inductive event : Type :=
| Decoded (e : PairCreated)
| Malformed.

Inductive callback_outcome : Type := Returned | Failed.

Record TokenMonitor : Type := mkTokenMonitor {
  launch_callbacks : list (TokenLaunch -> callback_outcome);
  is_monitoring : bool;
  recent_launches : list TokenLaunch;
  max_cache_size : Z;
  blacklisted_tokens : gset string;
  whitelisted_tokens : gset string
}.

(** [TokenMonitor.__init__] *)
Definition init : TokenMonitor :=
  {| launch_callbacks := [];
     is_monitoring := false;
     recent_launches := [];
     max_cache_size := 100;
     blacklisted_tokens := ∅;
     whitelisted_tokens := ∅ |}.

Definition set_recent_launches (l : list TokenLaunch) (st : TokenMonitor) : TokenMonitor :=
  {| launch_callbacks := launch_callbacks st;
     is_monitoring := is_monitoring st;
     recent_launches := l;
     max_cache_size := max_cache_size st;
     blacklisted_tokens := blacklisted_tokens st;
     whitelisted_tokens := whitelisted_tokens st |}.

Definition weth_address : string := "0xEeeeeEeeeEeEeeEeEeEeeEEEeeeeEeeeeeeeEEeE".

(** [x.lower() in [t.lower() for t in s]] *)
Definition in_lowered (x : string) (s : gset string) : bool :=
  bool_decide (Py.lower x ∈ Py.lower <$> elements s).

(** [_should_process_token] *)
Definition _should_process_token (st : TokenMonitor) (token : string) : bool :=
  if in_lowered token (blacklisted_tokens st) then false
  else if bool_decide (whitelisted_tokens st ≠ ∅) then
    (if in_lowered token (whitelisted_tokens st) then true else false)
  else true.

(** The side of the pair that is not the wrapped native currency, when
    there is one. *)
Definition new_token_of (e : PairCreated) : option string :=
  if String.eqb (Py.lower (args_token0 e)) (Py.lower weth_address) then Some (args_token1 e)
  else if String.eqb (Py.lower (args_token1 e)) (Py.lower weth_address) then Some (args_token0 e)
  else None.

Definition launch_of (now : Py.datetime) (e : PairCreated) (new_token : string) : TokenLaunch :=
  {| token_address := new_token;
     token0 := args_token0 e;
     token1 := args_token1 e;
     pair_address := args_pair e;
     all_pairs_length := args_allPairsLength e;
     block_number := blockNumber e;
     transaction_hash := transactionHash_hex e;
     timestamp := now |}.

(** The launch the handler records for an event, [None] when the event is
    dropped (it does not decode, no side is the base currency, or the
    filters reject the token). *)
Definition accepted (now : Py.datetime) (ev : event) (st : TokenMonitor) : option TokenLaunch :=
  match ev with
  | Malformed => None
  | Decoded e =>
    match new_token_of e with
    | None => None
    | Some tok =>
      if _should_process_token st tok then Some (launch_of now e tok) else None
    end
  end.

(** [_notify_callbacks]: every observer runs, a failing one is logged. *)
Definition _notify_callbacks (st : TokenMonitor) (launch : TokenLaunch) : list callback_outcome :=
  (fun cb => cb launch) <$> launch_callbacks st.

(** [_handle_pair_created_event]: the new state and the outcomes of the
    observers that were notified. *)
Definition _handle_pair_created_event (now : Py.datetime) (ev : event) (st : TokenMonitor)
  : TokenMonitor * list callback_outcome :=
  match accepted now ev st with
  | None => (st, [])
  | Some launch =>
    let appended := recent_launches st ++ [launch] in
    let cache :=
      if Z.of_nat (length appended) >? max_cache_size st
      then Py.slice_last (max_cache_size st) appended
      else appended in
    let st' := set_recent_launches cache st in
    (st', _notify_callbacks st' launch)
  end.

(** The events of a subscription handled in order ([_watch_events]); each
    is stamped with the clock reading that comes with it. *)
Fixpoint handle_events (evs : list (Py.datetime * event)) (st : TokenMonitor) : TokenMonitor :=
  match evs with
  | [] => st
  | (now, ev) :: rest => handle_events rest (fst (_handle_pair_created_event now ev st))
  end.

(** [get_recent_launches] *)
Definition get_recent_launches (st : TokenMonitor) (limit : Z) : list TokenLaunch :=
  Py.slice_last limit (recent_launches st).

(** [simulate_launch_detection] *)
Definition simulate_launch_detection (now : Py.datetime) (token : string) (st : TokenMonitor)
  : TokenMonitor * TokenLaunch :=
  let launch :=
    {| token_address := token;
       token0 := "0xEeeeeEeeeEeEeeEeEeEeeEEEeeeeEeeeeeeeEEeE";
       token1 := token;
       pair_address := "0x" +:+ Py.repeat_char "0"%char 40;
       all_pairs_length := 1;
       block_number := 12345;
       transaction_hash := "0x" +:+ Py.repeat_char "0"%char 64;
       timestamp := now |} in
  (set_recent_launches (recent_launches st ++ [launch]) st, launch).

(** [clear_cache] *)
Definition clear_cache (st : TokenMonitor) : TokenMonitor := set_recent_launches [] st.

Definition set_blacklisted_tokens (s : gset string) (st : TokenMonitor) : TokenMonitor :=
  {| launch_callbacks := launch_callbacks st;
     is_monitoring := is_monitoring st;
     recent_launches := recent_launches st;
     max_cache_size := max_cache_size st;
     blacklisted_tokens := s;
     whitelisted_tokens := whitelisted_tokens st |}.

Definition set_whitelisted_tokens (s : gset string) (st : TokenMonitor) : TokenMonitor :=
  {| launch_callbacks := launch_callbacks st;
     is_monitoring := is_monitoring st;
     recent_launches := recent_launches st;
     max_cache_size := max_cache_size st;
     blacklisted_tokens := blacklisted_tokens st;
     whitelisted_tokens := s |}.

(** [add_blacklisted_token]: [set.add] of the lowered address. *)
Definition add_blacklisted_token (token : string) (st : TokenMonitor) : TokenMonitor :=
  set_blacklisted_tokens ({[Py.lower token]} ∪ blacklisted_tokens st) st.

(** [remove_blacklisted_token]: [set.discard] of the lowered address. *)
Definition remove_blacklisted_token (token : string) (st : TokenMonitor) : TokenMonitor :=
  set_blacklisted_tokens (blacklisted_tokens st ∖ {[Py.lower token]}) st.

(** [add_whitelisted_token] *)
Definition add_whitelisted_token (token : string) (st : TokenMonitor) : TokenMonitor :=
  set_whitelisted_tokens ({[Py.lower token]} ∪ whitelisted_tokens st) st.

(** [remove_whitelisted_token] *)
Definition remove_whitelisted_token (token : string) (st : TokenMonitor) : TokenMonitor :=
  set_whitelisted_tokens (whitelisted_tokens st ∖ {[Py.lower token]}) st.

(** [get_launch_by_address]: the first cached launch whose token address
    is the given one, letter case apart. *)
Definition get_launch_by_address (st : TokenMonitor) (address : string) : option TokenLaunch :=
  List.find (fun launch => String.eqb (Py.lower (token_address launch)) (Py.lower address))
    (recent_launches st).

End Monitor.

(** ** [src/dex/multi_dex.py] *)

Module Scanner.

Record ArbitrageOpportunity : Type := mkArbitrageOpportunity {
  token_address : string;
  token_symbol : string;
  dex_a : string;
  dex_b : string;
  price_a : float;
  price_b : float;
  profit_percentage : float;
  gas_estimate : Z;
  net_profit : float;
  is_executable : bool;
  discovered_at : Py.datetime
}.

(** What [asyncio.gather(..., return_exceptions=True)] hands back for a
    price task: the exception, [None], or a price.  The integer 0 that
    Kumbaya returns for an empty reserve is the float 0 here: the scanner
    only tests it for truth and compares it. *)
Inductive quote : Type :=
| QuoteError
| QuoteNone
| Quote (p : float).

(** An exchange object as the scanner uses it.  [is_available] and
    [estimate_swap_gas] are looked up with [hasattr]; [None] stands for a
    missing attribute.  [get_token_info] yields the symbol of the token
    record, [None] when there is no record. *)
Record DEX : Type := mkDEX {
  is_available : option bool;
  get_token_price : string -> quote;
  get_token_info : string -> Py.outcome (option string);
  estimate_swap_gas : option (Z -> list string -> string -> Py.outcome (option Z))
}.

Record MultiDEXScanner : Type := mkMultiDEXScanner {
  dexes : list (string * DEX);
  monitor_tokens : list string;
  recent_opportunities : list ArbitrageOpportunity;
  max_cache_size : Z;
  is_scanning : bool
}.

(** What one pass reads from outside the scanner: the gas price of the
    node ([None] when the call raises) and the clock. *)
Record Env : Type := mkEnv {
  eth_gas_price : option Z;
  now : Py.datetime
}.

(** [MultiDEXScanner.__init__] *)
Definition init (kumbaya prismfi : DEX) : MultiDEXScanner :=
  {| dexes := [("kumbaya", kumbaya); ("prismfi", prismfi)];
     monitor_tokens := ["0xEeeeeEeeeEeEeeEeEeEeeEEEeeeeEeeeeeeeEEeE"];
     recent_opportunities := [];
     max_cache_size := 100;
     is_scanning := false |}.

Definition set_recent_opportunities (l : list ArbitrageOpportunity) (st : MultiDEXScanner)
  : MultiDEXScanner :=
  {| dexes := dexes st;
     monitor_tokens := monitor_tokens st;
     recent_opportunities := l;
     max_cache_size := max_cache_size st;
     is_scanning := is_scanning st |}.

(** [self.dexes[name]] *)
Fixpoint dex_lookup (name : string) (ds : list (string * DEX)) : option DEX :=
  match ds with
  | [] => None
  | (n, d) :: rest => if String.eqb n name then Some d else dex_lookup name rest
  end.

(** [_get_gas_price] *)
Definition _get_gas_price (env : Env) : Z :=
  match eth_gas_price env with
  | Some p => p
  | None => 10000000000
  end.

Definition sample_address : string := "0x1234567890123456789012345678901234567890".

(** The sum of the estimates that are neither an exception nor [None]. *)
Definition total_gas (estimates : list (Py.outcome (option Z))) : Z :=
  fold_left (fun acc g => match g with Py.Ok (Some n) => acc + n | _ => acc end) estimates 0.

(** [_estimate_arbitrage_gas]: every failure inside (a missing exchange,
    the read of [Config.WETH_ADDRESS] for the buy path, a missing
    [estimate_swap_gas]) is caught and falls back to twice the default
    limit, and so does a zero total. *)
Definition _estimate_arbitrage_gas (st : MultiDEXScanner) (token buy_dex sell_dex : string) : Z :=
  match dex_lookup buy_dex (dexes st), dex_lookup sell_dex (dexes st) with
  | Some buy_obj, Some sell_obj =>
    match Config.WETH_ADDRESS with
    | Py.Raise _ => Config.DEFAULT_GAS_LIMIT * 2
    | Py.Ok weth =>
      match estimate_swap_gas buy_obj, estimate_swap_gas sell_obj with
      | Some buy_est, Some sell_est =>
        let buy_gas := buy_est 10000000000000000 [weth; token] sample_address in
        let sell_gas := sell_est 1000000 [token; weth] sample_address in
        let total := total_gas [buy_gas; sell_gas] in
        if total =? 0 then Config.DEFAULT_GAS_LIMIT * 2 else total
      | _, _ => Config.DEFAULT_GAS_LIMIT * 2
      end
    end
  | _, _ => Config.DEFAULT_GAS_LIMIT * 2
  end.

(** [abs(price_a - price_b) / min(price_a, price_b) * 100] *)
Definition price_diff_pct (price_a price_b : float) : float :=
  (abs (price_a - price_b) / Py.min price_a price_b * 100)%float.

Definition trade_amount : float := 0.1%float.

(** The floor of [is_executable = net_profit > 0.001]. *)
Definition min_executable_profit : float := 0.001%float.

(** The body of the loop of [_scan_dex_pair] for one token: the
    opportunity it appends, if any.  An exception in the body (the gas
    cost does not fit a float, the token record cannot be read) skips the
    token. *)
Definition scan_token (env : Env) (st : MultiDEXScanner) (dex_a_obj dex_b_obj : DEX)
    (dex_a_name dex_b_name token : string) : option ArbitrageOpportunity :=
  match get_token_price dex_a_obj token, get_token_price dex_b_obj token with
  | Quote pa, Quote pb =>
    if Py.gt pa 0 && Py.gt pb 0 then
      let pct := price_diff_pct pa pb in
      if Py.gt pct Config.MIN_PROFIT_THRESHOLD then
        let '(buy_dex, sell_dex, buy_price, sell_price) :=
          if (pa <? pb)%float then (dex_a_name, dex_b_name, pa, pb)
          else (dex_b_name, dex_a_name, pb, pa) in
        let gas := _estimate_arbitrage_gas st token buy_dex sell_dex in
        let gross_profit := ((sell_price - buy_price) * trade_amount)%float in
        match Py.float_of_Z (gas * _get_gas_price env) with
        | Py.Raise _ => None
        | Py.Ok wei =>
          let gas_cost_eth := (wei / 1e18)%float in
          let net := (gross_profit - gas_cost_eth)%float in
          let executable := Py.gt net min_executable_profit in
          match get_token_info dex_a_obj token with
          | Py.Raise _ => None
          | Py.Ok info =>
            Some {| token_address := token;
                    token_symbol := match info with Some s => s | None => "UNKNOWN" end;
                    dex_a := buy_dex;
                    dex_b := sell_dex;
                    price_a := buy_price;
                    price_b := sell_price;
                    profit_percentage := pct;
                    gas_estimate := gas;
                    net_profit := net;
                    is_executable := executable;
                    discovered_at := now env |}
          end
        end
      else None
    else None
  | _, _ => None
  end.

(** [_scan_dex_pair] *)
Definition _scan_dex_pair (env : Env) (st : MultiDEXScanner) (dex_a_obj dex_b_obj : DEX)
    (dex_a_name dex_b_name : string) : list ArbitrageOpportunity :=
  omap (scan_token env st dex_a_obj dex_b_obj dex_a_name dex_b_name) (monitor_tokens st).

(** The pairs [(l[i], l[j])], [i < j], in the order of the two loops. *)
Fixpoint unordered_pairs {A : Type} (l : list A) : list (A * A) :=
  match l with
  | [] => []
  | x :: rest => (pair x <$> rest) ++ unordered_pairs rest
  end.

Definition available (d : DEX) : bool :=
  match is_available d with
  | None => true
  | Some b => b
  end.

(** [scan_arbitrage_opportunities] *)
Definition scan_arbitrage_opportunities (env : Env) (st : MultiDEXScanner)
  : list ArbitrageOpportunity :=
  mbind (M := list) (fun '((name_a, a), (name_b, b)) =>
           if available a && available b
           then _scan_dex_pair env st a b name_a name_b
           else [])
        (unordered_pairs (dexes st)).

Definition profitable (opp : ArbitrageOpportunity) : bool :=
  Py.gt (profit_percentage opp) Config.MIN_PROFIT_THRESHOLD && is_executable opp.

(** One turn of [_scan_loop], the sleep left out. *)
Definition scan_loop_iteration (env : Env) (st : MultiDEXScanner) : MultiDEXScanner :=
  let opportunities := scan_arbitrage_opportunities env st in
  let profitable_opps := List.filter profitable opportunities in
  match profitable_opps with
  | [] => st
  | _ :: _ =>
    let extended := recent_opportunities st ++ profitable_opps in
    if Z.of_nat (length extended) >? max_cache_size st
    then set_recent_opportunities (Py.slice_last (max_cache_size st) extended) st
    else set_recent_opportunities extended st
  end.

(** The loop run over the successive readings of the environment. *)
Fixpoint scan_loop (envs : list Env) (st : MultiDEXScanner) : MultiDEXScanner :=
  match envs with
  | [] => st
  | env :: rest => scan_loop rest (scan_loop_iteration env st)
  end.

(** [get_recent_opportunities] *)
Definition get_recent_opportunities (st : MultiDEXScanner) (limit : Z)
  : list ArbitrageOpportunity :=
  Py.slice_last limit (recent_opportunities st).

Definition set_monitor_tokens (l : list string) (st : MultiDEXScanner) : MultiDEXScanner :=
  {| dexes := dexes st;
     monitor_tokens := l;
     recent_opportunities := recent_opportunities st;
     max_cache_size := max_cache_size st;
     is_scanning := is_scanning st |}.

(** [add_monitor_token] *)
Definition add_monitor_token (token : string) (st : MultiDEXScanner) : MultiDEXScanner :=
  if bool_decide (token ∈ monitor_tokens st) then st
  else set_monitor_tokens (monitor_tokens st ++ [token]) st.

(** [remove_monitor_token] *)
Definition remove_monitor_token (token : string) (st : MultiDEXScanner) : MultiDEXScanner :=
  if bool_decide (token ∈ monitor_tokens st)
  then set_monitor_tokens (Py.list_remove token (monitor_tokens st)) st
  else st.

(** [get_best_opportunity] *)
Definition get_best_opportunity (st : MultiDEXScanner) : option ArbitrageOpportunity :=
  let executable_opps :=
    List.filter (fun opp => is_executable opp && Py.gt (net_profit opp) 0)
      (recent_opportunities st) in
  match executable_opps with
  | [] => None
  | first :: rest => Some (Py.max_key net_profit first rest)
  end.

(** [clear_cache] *)
Definition clear_cache (st : MultiDEXScanner) : MultiDEXScanner :=
  set_recent_opportunities [] st.

End Scanner.

(** ** [src/dex/prismfi.py] *)

Module PrismFi.

(** The exchange object after [__init__]: the configured router address
    and the router contract, [None] when no address is configured. *)
Record PrismFiDEX : Type := mkPrismFiDEX {
  router_address : string;
  router_contract : option string
}.

(** [__init__], the checksummed router address given. *)
Definition init (PRISMFI_ROUTER checksummed : string) : PrismFiDEX :=
  if String.eqb PRISMFI_ROUTER ""
  then {| router_address := PRISMFI_ROUTER; router_contract := None |}
  else {| router_address := PRISMFI_ROUTER; router_contract := Some checksummed |}.

(** [is_available] *)
Definition is_available (p : PrismFiDEX) : bool :=
  match router_contract p with
  | Some _ => negb (String.eqb (router_address p) "")
  | None => false
  end.

(** [get_token_price]: the query is a placeholder, [None] on every path. *)
Definition get_token_price (p : PrismFiDEX) (token_address : string) : Scanner.quote :=
  if negb (is_available p) then Scanner.QuoteNone else Scanner.QuoteNone.

(** The object as the scanner sees it.  It has no [get_token_info]
    (reading the attribute raises), and its [estimate_swap_gas] answers
    [None] when the exchange is not available and otherwise what the node
    estimates, [None] when the estimate fails. *)
Definition as_dex (p : PrismFiDEX) (node_estimate : Z -> list string -> string -> option Z)
  : Scanner.DEX :=
  {| Scanner.is_available := Some (is_available p);
     Scanner.get_token_price := get_token_price p;
     Scanner.get_token_info := fun _ =>
       Py.Raise "'PrismFiDEX' object has no attribute 'get_token_info'";
     Scanner.estimate_swap_gas := Some (fun amount_in path to_address =>
       if negb (is_available p) then Py.Ok None
       else Py.Ok (node_estimate amount_in path to_address)) |}.

End PrismFi.

(** ** [src/dex/kumbaya.py] *)

Module Kumbaya.

(** The [try] block of [calculate_slippage], over the router call behind
    [get_amounts_out] ([None] when that call fails): [Py.Raise] where the
    block is left by an exception (an amount that does not fit a float,
    a product that is not a finite number). *)
Definition calculate_slippage_try (get_amounts_out : Z -> list string -> option (list Z))
    (amount_in : Z) (path : list string) (slippage_percent : float) : Py.outcome Z :=
  match get_amounts_out amount_in path with
  | None | Some [] => Py.Ok 0
  | Some (a :: rest) =>
    let expected_out := List.last rest a in
    let slippage_multiplier := ((100 - slippage_percent) / 100)%float in
    match Py.float_of_Z expected_out with
    | Py.Raise msg => Py.Raise msg
    | Py.Ok e => Py.int_of_float (e * slippage_multiplier)%float
    end
  end.

(** [calculate_slippage]: every exception of the block is caught, logged
    and turned into 0. *)
Definition calculate_slippage (get_amounts_out : Z -> list string -> option (list Z))
    (amount_in : Z) (path : list string) (slippage_percent : float) : Z :=
  match calculate_slippage_try get_amounts_out amount_in path slippage_percent with
  | Py.Ok min_out => min_out
  | Py.Raise _ => 0
  end.

(** The node and the contracts behind the exchange object: what each
    call returns, or the exception it raises. *)
Record Chain : Type := mkChain {
  to_checksum_address : string -> Py.outcome string;
  getPair : string -> string -> Py.outcome string;
  getReserves : string -> Py.outcome (Z * Z * Z);
  token0 : string -> Py.outcome string;
  erc20 : string -> Py.outcome (string * string * Z)
}.

(** The dictionary returned by [get_token_info]. *)
Record TokenInfo : Type := mkTokenInfo {
  info_address : string;
  info_name : string;
  info_symbol : string;
  info_decimals : Z
}.

(** The two caches of the exchange object. *)
Record KumbayaDEX : Type := mkKumbayaDEX {
  _pair_cache : gmap string string;
  _token_info_cache : gmap string TokenInfo
}.

(** [KumbayaDEX.__init__] *)
Definition init : KumbayaDEX := {| _pair_cache := ∅; _token_info_cache := ∅ |}.

Definition zero_address : string := "0x0000000000000000000000000000000000000000".

(** [get_token_info]: the address is checksummed before the [try]; the
    name, the symbol and the decimals are read together. *)
Definition get_token_info (c : Chain) (k : KumbayaDEX) (token_address : string)
  : Py.outcome (option TokenInfo) * KumbayaDEX :=
  match to_checksum_address c token_address with
  | Py.Raise msg => (Py.Raise msg, k)
  | Py.Ok token_address =>
    match _token_info_cache k !! token_address with
    | Some token_info => (Py.Ok (Some token_info), k)
    | None =>
      match erc20 c token_address with
      | Py.Raise _ => (Py.Ok None, k)
      | Py.Ok (name, symbol, decimals) =>
        let token_info :=
          {| info_address := token_address; info_name := name;
             info_symbol := symbol; info_decimals := decimals |} in
        (Py.Ok (Some token_info),
         {| _pair_cache := _pair_cache k;
            _token_info_cache := <[token_address := token_info]> (_token_info_cache k) |})
      end
    end
  end.

(** [get_pair_address]: both addresses are checksummed before the
    [try]; a pair that exists is cached under both orders. *)
Definition get_pair_address (c : Chain) (k : KumbayaDEX) (token_a token_b : string)
  : Py.outcome (option string) * KumbayaDEX :=
  match to_checksum_address c token_a with
  | Py.Raise msg => (Py.Raise msg, k)
  | Py.Ok token_a =>
    match to_checksum_address c token_b with
    | Py.Raise msg => (Py.Raise msg, k)
    | Py.Ok token_b =>
      let cache_key := token_a +:+ "-" +:+ token_b in
      match _pair_cache k !! cache_key with
      | Some pair_address => (Py.Ok (Some pair_address), k)
      | None =>
        match getPair c token_a token_b with
        | Py.Raise _ => (Py.Ok None, k)
        | Py.Ok pair_address =>
          if String.eqb pair_address zero_address then (Py.Ok None, k)
          else
            (Py.Ok (Some pair_address),
             {| _pair_cache :=
                  <[token_b +:+ "-" +:+ token_a := pair_address]>
                    (<[cache_key := pair_address]> (_pair_cache k));
                _token_info_cache := _token_info_cache k |})
        end
      end
    end
  end.

(** A call of [self.get_pair_address] with the positional arguments
    [args]: the method has two parameters
    without defaults, and a call with another number of arguments raises
    [TypeError] before the body runs. *)
Definition call_get_pair_address (c : Chain) (k : KumbayaDEX) (args : list string)
  : Py.outcome (option string) * KumbayaDEX :=
  match args with
  | [token_a; token_b] => get_pair_address c k token_a token_b
  | [_] =>
    (Py.Raise "get_pair_address() missing 1 required positional argument: 'token_b'", k)
  | _ => (Py.Raise "get_pair_address() called with the wrong number of arguments", k)
  end.

(** [get_pair_reserves] *)
Definition get_pair_reserves (c : Chain) (pair_address : string)
  : Py.outcome (option (Z * Z * Z)) :=
  match to_checksum_address c pair_address with
  | Py.Raise msg => Py.Raise msg
  | Py.Ok pair_address =>
    match getReserves c pair_address with
    | Py.Ok reserves => Py.Ok (Some reserves)
    | Py.Raise _ => Py.Ok None
    end
  end.

(** [float(a) / float(b) if b > 0 else 0], the integer 0 given as the
    float 0. *)
Definition reserve_ratio (a b : Z) : Py.outcome float :=
  if 0 <? b then
    match Py.float_of_Z a, Py.float_of_Z b with
    | Py.Ok fa, Py.Ok fb => Py.Ok (fa / fb)%float
    | Py.Raise msg, _ | _, Py.Raise msg => Py.Raise msg
    end
  else Py.Ok 0%float.

(** Whether two addresses have the same checksummed form. *)
Definition same_address (c : Chain) (a b : string) : Py.outcome bool :=
  match to_checksum_address c a, to_checksum_address c b with
  | Py.Ok a', Py.Ok b' => Py.Ok (String.eqb a' b')
  | Py.Raise msg, _ | _, Py.Raise msg => Py.Raise msg
  end.

(** [get_token_price]: [None] for a missing pair, missing reserves and
    every exception; the price of the token in the base token otherwise. *)
Definition get_token_price (c : Chain) (k : KumbayaDEX) (token_address base_token : string)
  : option float * KumbayaDEX :=
  match get_pair_address c k token_address base_token with
  | (Py.Raise _, k') | (Py.Ok None, k') => (None, k')
  | (Py.Ok (Some pair_address), k') =>
    if String.eqb pair_address "" then (None, k')
    else
      match get_pair_reserves c pair_address with
      | Py.Raise _ | Py.Ok None => (None, k')
      | Py.Ok (Some (reserve0, reserve1, _)) =>
        match token0 c pair_address with
        | Py.Raise _ => (None, k')
        | Py.Ok t0 =>
          match same_address c t0 token_address with
          | Py.Raise _ => (None, k')
          | Py.Ok is_token0 =>
            let price :=
              if is_token0 then reserve_ratio reserve1 reserve0
              else reserve_ratio reserve0 reserve1 in
            match price with
            | Py.Ok p => (Some p, k')
            | Py.Raise _ => (None, k')
            end
          end
        end
      end
  end.

Definition default_base_token : string := "0xEeeeeEeeeEeEeeEeEeEeeEEEeeeeEeeeeeeeEEeE".

(** [check_liquidity], as written: the pair address is asked for with
    the token alone. *)
Definition check_liquidity (c : Chain) (k : KumbayaDEX) (token_address : string)
    (min_liquidity_eth : float) : bool * KumbayaDEX :=
  match get_token_price c k token_address default_base_token with
  | (None, k1) => (false, k1)
  | (Some price, k1) =>
    if negb (Py.truthy price) then (false, k1)
    else
      match call_get_pair_address c k1 [token_address] with
      | (Py.Raise _, k2) | (Py.Ok None, k2) => (false, k2)
      | (Py.Ok (Some pair_address), k2) =>
        if String.eqb pair_address "" then (false, k2)
        else
          match get_pair_reserves c pair_address with
          | Py.Raise _ | Py.Ok None => (false, k2)
          | Py.Ok (Some (reserve0, reserve1, _)) =>
            match token0 c pair_address with
            | Py.Raise _ => (false, k2)
            | Py.Ok t0 =>
              match same_address c t0 token_address with
              | Py.Raise _ => (false, k2)
              | Py.Ok is_token0 =>
                let wei := if is_token0 then reserve1 else reserve0 in
                match Py.from_wei_ge wei min_liquidity_eth with
                | Py.Ok b => (b, k2)
                | Py.Raise _ => (false, k2)
                end
              end
            end
          end
      end
  end.

(** [clear_cache] *)
Definition clear_cache (k : KumbayaDEX) : KumbayaDEX :=
  {| _pair_cache := ∅; _token_info_cache := ∅ |}.

End Kumbaya.

(** ** [asyncio.Queue], as far as the executor uses it *)

Module Queue.

Record t (A : Type) : Type := mk {
  maxsize : Z;
  items : list A
}.
Arguments mk {A} maxsize items.
Arguments maxsize {A} _.
Arguments items {A} _.

(** [asyncio.Queue()]: [maxsize] defaults to 0, which means no bound. *)
Definition create {A : Type} : t A := mk 0 [].

Definition qsize {A : Type} (q : t A) : Z := Z.of_nat (length (items q)).

(** [full()]: never, when [maxsize <= 0]. *)
Definition full {A : Type} (q : t A) : bool :=
  if maxsize q <=? 0 then false else maxsize q <=? qsize q.

(** [await put(x)]: [None] when the queue is full and the caller waits
    for a free slot. *)
Definition put {A : Type} (x : A) (q : t A) : option (t A) :=
  if full q then None else Some (mk (maxsize q) (items q ++ [x])).

(** [await wait_for(get(), timeout)]: [None] for the timeout on an empty
    queue. *)
Definition get {A : Type} (q : t A) : option (A * t A) :=
  match items q with
  | [] => None
  | x :: rest => Some (x, mk (maxsize q) rest)
  end.

End Queue.

(** ** [src/sniper/executor.py] *)

Module Executor.

Record SnipeRequest : Type := mkSnipeRequest {
  user_id : Z;
  token_address : string;
  amount_eth : float;
  max_slippage_percent : float;
  wallet_address : string;
  request_time : Py.datetime;
  priority_fee : option float
}.

Record SnipeResult : Type := mkSnipeResult {
  success : bool;
  transaction_hash : option string;
  error_message : option string;
  gas_used : option Z;
  gas_cost : option float;
  token_amount_received : option float;
  actual_slippage : option float;
  execution_time : float
}.

(** The unsigned swap built by the exchange object. *)
Record UnsignedTx : Type := mkUnsignedTx {
  tx_from : string;
  tx_value : Z;
  tx_amount_out_min : Z;
  tx_path : list string;
  tx_gas : Z;
  tx_gasPrice : Z
}.

(** The pending record handed to the storage collaborator. *)
Record Trade : Type := mkTrade {
  trade_user_id : Z;
  trade_token_address : string;
  trade_token_symbol : string;
  trade_type : string;
  trade_amount_in : float;
  trade_gas_used : Z;
  trade_gas_cost : float;
  trade_tx_hash : string;
  trade_status : string
}.

(** What the execution of one request reads from its collaborators: the
    exchange object ([check_liquidity], [simulate_honeypot] reduced to the
    [is_honeypot] entry of its report, [get_token_info] reduced to the
    symbol, the router call behind [calculate_slippage],
    [build_swap_transaction] with [None] for the empty dictionary), the node (the gas price read by the checks and
    the one read when the transaction is priced, [estimate_gas]), the
    storage ([create_trade]) and the clock (the seconds elapsed when the
    result is built). *)
Record Env : Type := mkEnv {
  check_liquidity : string -> float -> Py.outcome bool;
  simulate_honeypot : string -> Py.outcome bool;
  gas_price_checks : Py.outcome Z;
  get_token_info : string -> Py.outcome (option string);
  get_amounts_out : Z -> list string -> option (list Z);
  build_swap_transaction : Z -> Z -> list string -> string -> Py.outcome (option UnsignedTx);
  estimate_gas : UnsignedTx -> Py.outcome Z;
  gas_price_build : Py.outcome Z;
  create_trade : Trade -> Py.outcome Z;
  elapsed : float
}.

Record SniperExecutor : Type := mkSniperExecutor {
  execution_queue : Queue.t SnipeRequest;
  is_executing : bool;
  max_concurrent_snipes : Z;
  max_gas_price : Z;
  priority_fee_multiplier : float;
  active_snipes : gmap string SnipeRequest;
  snipe_results : gmap string SnipeResult
}.

(** [SniperExecutor.__init__] *)
Definition init : SniperExecutor :=
  {| execution_queue := Queue.create;
     is_executing := false;
     max_concurrent_snipes := 5;
     max_gas_price := Config.MAX_GAS_PRICE;
     priority_fee_multiplier := 1.2%float;
     active_snipes := ∅;
     snipe_results := ∅ |}.

Definition set_queue (q : Queue.t SnipeRequest) (st : SniperExecutor) : SniperExecutor :=
  {| execution_queue := q;
     is_executing := is_executing st;
     max_concurrent_snipes := max_concurrent_snipes st;
     max_gas_price := max_gas_price st;
     priority_fee_multiplier := priority_fee_multiplier st;
     active_snipes := active_snipes st;
     snipe_results := snipe_results st |}.

Definition set_active (a : gmap string SnipeRequest) (st : SniperExecutor) : SniperExecutor :=
  {| execution_queue := execution_queue st;
     is_executing := is_executing st;
     max_concurrent_snipes := max_concurrent_snipes st;
     max_gas_price := max_gas_price st;
     priority_fee_multiplier := priority_fee_multiplier st;
     active_snipes := a;
     snipe_results := snipe_results st |}.

Definition set_results (r : gmap string SnipeResult) (st : SniperExecutor) : SniperExecutor :=
  {| execution_queue := execution_queue st;
     is_executing := is_executing st;
     max_concurrent_snipes := max_concurrent_snipes st;
     max_gas_price := max_gas_price st;
     priority_fee_multiplier := priority_fee_multiplier st;
     active_snipes := active_snipes st;
     snipe_results := r |}.

(** [f"snipe_{user_id}_{int(request_time.timestamp())}"] *)
Definition request_id (r : SnipeRequest) : Py.outcome string :=
  match Py.int_timestamp (request_time r) with
  | Py.Ok secs => Py.Ok ("snipe_" +:+ pretty (user_id r) +:+ "_" +:+ pretty secs)
  | Py.Raise msg => Py.Raise msg
  end.

(** How a call of [submit_snipe] ends: it returns the request id, it
    stays suspended in [put] on a full queue, or the id cannot be built
    and the exception reaches the caller. *)
Inductive submit_outcome : Type :=
| Submitted (request_id : string) (st : SniperExecutor)
| Suspended (st : SniperExecutor)
| SubmitRaised (msg : string).

(** [submit_snipe] *)
Definition submit_snipe (req : SnipeRequest) (st : SniperExecutor) : submit_outcome :=
  match request_id req with
  | Py.Raise msg => SubmitRaised msg
  | Py.Ok id =>
    let st1 := set_active (<[id := req]> (active_snipes st)) st in
    match Queue.put req (execution_queue st1) with
    | None => Suspended st1
    | Some q => Submitted id (set_queue q st1)
    end
  end.

Definition failure (msg : string) (seconds : float) : SnipeResult :=
  {| success := false;
     transaction_hash := None;
     error_message := Some msg;
     gas_used := None;
     gas_cost := None;
     token_amount_received := None;
     actual_slippage := None;
     execution_time := seconds |}.

(** [_pre_execution_checks]; an exception inside counts as a failed check. *)
Definition _pre_execution_checks (env : Env) (st : SniperExecutor) (req : SnipeRequest) : bool :=
  match check_liquidity env (token_address req) (amount_eth req * 0.5)%float with
  | Py.Ok true =>
    match simulate_honeypot env (token_address req) with
    | Py.Ok false =>
      match gas_price_checks env with
      | Py.Ok current => if current >? max_gas_price st then false else true
      | Py.Raise _ => false
      end
    | _ => false
    end
  | _ => false
  end.

(** [_get_optimal_gas_price] *)
Definition _get_optimal_gas_price (env : Env) (st : SniperExecutor) : Z :=
  match gas_price_build env with
  | Py.Ok base =>
    match Py.float_of_Z base with
    | Py.Ok b =>
      match Py.int_of_float (b * priority_fee_multiplier st)%float with
      | Py.Ok optimal => Z.min optimal (max_gas_price st)
      | Py.Raise _ => 10000000000
      end
    | Py.Raise _ => 10000000000
    end
  | Py.Raise _ => 10000000000
  end.

(** The part of [_execute_snipe] that follows the token record: either
    the result to return without storing it, or the prepared result and
    the key under which it is stored.  The path is built from
    [Config.WETH_ADDRESS] right after the amount is converted, so the
    [except] branch answers there with the message of the error. *)
Definition prepare (env : Env) (st : SniperExecutor) (req : SnipeRequest) (symbol : string)
  : SnipeResult + (string * SnipeResult) :=
  match Py.int_of_float (amount_eth req * 1e18)%float with
  | Py.Raise msg => inl (failure msg (elapsed env))
  | Py.Ok amount_in_wei =>
    match Config.WETH_ADDRESS with
    | Py.Raise msg => inl (failure msg (elapsed env))
    | Py.Ok weth =>
      let path := [weth; token_address req] in
      let min_out :=
        Kumbaya.calculate_slippage (get_amounts_out env) amount_in_wei path
          (max_slippage_percent req) in
      match build_swap_transaction env amount_in_wei min_out path (wallet_address req) with
      | Py.Raise msg => inl (failure msg (elapsed env))
      | Py.Ok None => inl (failure "Failed to build transaction" 0)
      | Py.Ok (Some tx) =>
        match estimate_gas env tx with
        | Py.Raise msg => inl (failure msg (elapsed env))
        | Py.Ok gas =>
          let gas_price := _get_optimal_gas_price env st in
          match Py.float_of_Z (gas * gas_price) with
          | Py.Raise msg => inl (failure msg (elapsed env))
          | Py.Ok wei =>
            let cost := (wei / 1e18)%float in
            let trade :=
              {| trade_user_id := user_id req;
                 trade_token_address := token_address req;
                 trade_token_symbol := symbol;
                 trade_type := "snipe";
                 trade_amount_in := amount_eth req;
                 trade_gas_used := gas;
                 trade_gas_cost := cost;
                 trade_tx_hash := "pending";
                 trade_status := "pending" |} in
            match create_trade env trade with
            | Py.Raise msg => inl (failure msg (elapsed env))
            | Py.Ok _ =>
              let result :=
                {| success := true;
                   transaction_hash := None;
                   error_message := None;
                   gas_used := Some gas;
                   gas_cost := Some cost;
                   token_amount_received := None;
                   actual_slippage := None;
                   execution_time := elapsed env |} in
              match request_id req with
              | Py.Raise msg => inl (failure msg (elapsed env))
              | Py.Ok key => inr (key, result)
              end
            end
          end
        end
      end
    end
  end.

(** [_execute_snipe]: the result it returns and the executor afterwards.
    Only the prepared result is written to [snipe_results]. *)
Definition _execute_snipe (env : Env) (req : SnipeRequest) (st : SniperExecutor)
  : SnipeResult * SniperExecutor :=
  if _pre_execution_checks env st req then
    match get_token_info env (token_address req) with
    | Py.Raise msg => (failure msg (elapsed env), st)
    | Py.Ok None => (failure "Failed to get token info" 0, st)
    | Py.Ok (Some symbol) =>
      match prepare env st req symbol with
      | inl failed => (failed, st)
      | inr (key, result) => (result, set_results (<[key := result]> (snipe_results st)) st)
      end
    end
  else (failure "Pre-execution checks failed" 0, st).

(** One turn of [_execution_loop]: a request is taken from the queue and
    executed, and what [_execute_snipe] returns is dropped; an empty queue
    times out and the loop goes on. *)
Definition execution_loop_step (env : Env) (st : SniperExecutor) : SniperExecutor :=
  match Queue.get (execution_queue st) with
  | None => st
  | Some (req, q) => snd (_execute_snipe env req (set_queue q st))
  end.

Fixpoint execution_loop (envs : list Env) (st : SniperExecutor) : SniperExecutor :=
  match envs with
  | [] => st
  | env :: rest => execution_loop rest (execution_loop_step env st)
  end.

(** [get_snipe_status]: the stored result, [None] for an id without one. *)
Definition get_snipe_status (st : SniperExecutor) (id : string) : option SnipeResult :=
  snipe_results st !! id.

(** [cancel_snipe] *)
Definition cancel_snipe (st : SniperExecutor) (id : string) : bool * SniperExecutor :=
  match active_snipes st !! id with
  | Some _ => (true, set_active (delete id (active_snipes st)) st)
  | None => (false, st)
  end.

(** [clear_cache] *)
Definition clear_cache (st : SniperExecutor) : SniperExecutor := set_results ∅ st.

(** [set_max_gas_price] *)
Definition set_max_gas_price (price : Z) (st : SniperExecutor) : SniperExecutor :=
  {| execution_queue := execution_queue st;
     is_executing := is_executing st;
     max_concurrent_snipes := max_concurrent_snipes st;
     max_gas_price := price;
     priority_fee_multiplier := priority_fee_multiplier st;
     active_snipes := active_snipes st;
     snipe_results := snipe_results st |}.

(** [set_priority_fee_multiplier] *)
Definition set_priority_fee_multiplier (multiplier : float) (st : SniperExecutor)
  : SniperExecutor :=
  {| execution_queue := execution_queue st;
     is_executing := is_executing st;
     max_concurrent_snipes := max_concurrent_snipes st;
     max_gas_price := max_gas_price st;
     priority_fee_multiplier := multiplier;
     active_snipes := active_snipes st;
     snipe_results := snipe_results st |}.

End Executor.

(** * Properties *)

(** ** Slices *)

Module PyFacts.

Section Slices.
Context {A : Type}.
Implicit Types l k : list A.

(** The last [n] items of a list, oldest first. *)
Definition lastn (n : nat) l : list A := drop (length l - n) l.

Lemma slice_last_zero l : Py.slice_last 0 l = l.
Proof.
  unfold Py.slice_last, Py.slice_from.
  destruct (Z.ltb_spec (- 0) 0) as [|_]; [lia|].
  replace (Z.to_nat (Z.min (- 0) (Z.of_nat (length l)))) with 0%nat by lia.
  reflexivity.
Qed.

Lemma slice_last_pos n l : 0 < n -> Py.slice_last n l = lastn (Z.to_nat n) l.
Proof.
  intros Hn. unfold Py.slice_last, Py.slice_from, lastn.
  destruct (Z.ltb_spec (- n) 0) as [_|]; [|lia].
  f_equal. lia.
Qed.

Lemma lastn_all n l : (length l <= n)%nat -> lastn n l = l.
Proof.
  intros H. unfold lastn. replace (length l - n)%nat with 0%nat by lia. reflexivity.
Qed.

Lemma slice_last_all n l : Z.of_nat (length l) < n -> Py.slice_last n l = l.
Proof.
  intros H. rewrite slice_last_pos by lia. apply lastn_all. lia.
Qed.

Lemma length_lastn n l : length (lastn n l) = Nat.min n (length l).
Proof. unfold lastn. rewrite length_drop. lia. Qed.

Lemma lastn_app_absorb n l k : lastn n (lastn n l ++ k) = lastn n (l ++ k).
Proof.
  destruct (Nat.le_gt_cases (length l) n) as [Hle|Hgt].
  - rewrite (lastn_all n l) by assumption. reflexivity.
  - unfold lastn. rewrite !length_app, length_drop.
    rewrite (drop_app (drop _ l)), (drop_app l), drop_drop, length_drop.
    f_equal.
    + f_equal. lia.
    + f_equal. lia.
Qed.

Lemma lastn_app_suffix n l k : exists old, l ++ k = old ++ lastn n (l ++ k).
Proof. exists (take (length (l ++ k) - n) (l ++ k)). unfold lastn. symmetry. apply take_drop. Qed.

(** What the two caches do after an append: trim when longer than the
    capacity. *)
Definition trimmed (cap : Z) l : list A :=
  if Z.of_nat (length l) >? cap then Py.slice_last cap l else l.

Lemma trimmed_lastn cap l : 0 < cap -> trimmed cap l = lastn (Z.to_nat cap) l.
Proof.
  intros Hc. unfold trimmed.
  destruct (Z.gtb_spec (Z.of_nat (length l)) cap).
  - apply slice_last_pos. assumption.
  - symmetry. apply lastn_all. lia.
Qed.

End Slices.

End PyFacts.

(** ** The launch monitor *)

Module MonitorFacts.
Import Monitor PyFacts.

(** How many cached launches carry a pair address. *)
Definition count_pair (pair : string) (l : list TokenLaunch) : nat :=
  length (List.filter (fun x => String.eqb (pair_address x) pair) l).

(** The launches the handler records for a run of events, in order. *)
Definition launches_of (evs : list (Py.datetime * event)) (st : TokenMonitor) : list TokenLaunch :=
  omap (fun '(now, ev) => accepted now ev st) evs.

(** A pair of the base currency with a new token, and the log announcing it. *)
Definition sample_log : PairCreated :=
  {| args_token0 := "0xEeeeeEeeeEeEeeEeEeEeeEEEeeeeEeeeeeeeEEeE";
     args_token1 := "0x1111111111111111111111111111111111111111";
     args_pair := "0x2222222222222222222222222222222222222222";
     args_allPairsLength := 7;
     blockNumber := 100;
     transactionHash_hex := "0xabcd" |}.

(** [n] distinct logs, each for a pair of its own. *)
Definition numbered_log (i : nat) : PairCreated :=
  {| args_token0 := "0xEeeeeEeeeEeEeeEeEeEeeEEEeeeeEeeeeeeeEEeE";
     args_token1 := "0xT" +:+ pretty i;
     args_pair := "0xP" +:+ pretty i;
     args_allPairsLength := Z.of_nat i;
     blockNumber := 100;
     transactionHash_hex := "0xabcd" |}.

(** The monitor after the first delivery of [sample_log]. *)
Definition after_first_delivery : TokenMonitor :=
  handle_events [(1, Decoded sample_log)] init.

Definition numbered_events (n : nat) : list (Py.datetime * event) :=
  (fun i => (Z.of_nat i, Decoded (numbered_log i))) <$> seq 0 n.

Lemma accepted_set_recent now ev l st :
  accepted now ev (set_recent_launches l st) = accepted now ev st.
Proof. destruct ev; reflexivity. Qed.

Lemma handle_dropped now ev st :
  accepted now ev st = None -> fst (_handle_pair_created_event now ev st) = st.
Proof. intros H. unfold _handle_pair_created_event. rewrite H. reflexivity. Qed.

Lemma handle_accepted now ev st launch :
  accepted now ev st = Some launch ->
  fst (_handle_pair_created_event now ev st)
  = set_recent_launches (trimmed (max_cache_size st) (recent_launches st ++ [launch])) st.
Proof. intros H. unfold _handle_pair_created_event. rewrite H. reflexivity. Qed.

Lemma launches_of_cons now ev evs st :
  launches_of ((now, ev) :: evs) st
  = match accepted now ev st with
    | Some launch => launch :: launches_of evs st
    | None => launches_of evs st
    end.
Proof. reflexivity. Qed.

Lemma launches_of_set_recent evs l st :
  launches_of evs (set_recent_launches l st) = launches_of evs st.
Proof.
  induction evs as [|[now ev] evs IH].
  - reflexivity.
  - rewrite !launches_of_cons, accepted_set_recent, IH. reflexivity.
Qed.

(** From a cache within its capacity, a run of events leaves the newest
    [max_cache_size] of the old content followed by the recorded launches. *)
Lemma handle_events_cache evs : forall st,
  0 < max_cache_size st ->
  (length (recent_launches st) <= Z.to_nat (max_cache_size st))%nat ->
  recent_launches (handle_events evs st)
  = lastn (Z.to_nat (max_cache_size st)) (recent_launches st ++ launches_of evs st).
Proof.
  induction evs as [|[now ev] evs IH]; intros st Hcap Hlen.
  - simpl. rewrite app_nil_r. symmetry. apply lastn_all. assumption.
  - rewrite launches_of_cons. cbn [handle_events].
    destruct (accepted now ev st) as [launch|] eqn:Hacc.
    + rewrite (handle_accepted _ _ _ _ Hacc).
      set (st1 := set_recent_launches _ st).
      rewrite (IH st1); unfold st1; simpl.
      * rewrite launches_of_set_recent, trimmed_lastn by assumption.
        rewrite lastn_app_absorb, <- app_assoc. reflexivity.
      * assumption.
      * rewrite trimmed_lastn, length_lastn by assumption. lia.
    + rewrite (handle_dropped _ _ _ Hacc). apply IH; assumption.
Qed.

Lemma count_pair_app pair l k :
  count_pair pair (l ++ k) = (count_pair pair l + count_pair pair k)%nat.
Proof. unfold count_pair. rewrite List.filter_app, length_app. reflexivity. Qed.

(** C1, as stated, fails: the log of one pair delivered twice to a fresh
    monitor leaves two cached launches with that pair address, and both
    are returned by [get_recent_launches]. *)
Lemma duplicate_pair_event_is_cached_twice :
  pair_address <$>
    get_recent_launches
      (handle_events [(1, Decoded sample_log); (2, Decoded sample_log)] init) 20
  = [args_pair sample_log; args_pair sample_log].
Proof. vm_compute. reflexivity. Qed.

(** C1, amended: the handler has no lookup by pair address.  Every
    accepted event appends its launch to the cache, which is then cut to
    its newest [max_cache_size] entries, whether or not the pair address is
    already cached; below the capacity the number of cached launches with
    that pair address grows by one. *)
Theorem accepted_event_is_appended_without_dedup now ev st launch :
  accepted now ev st = Some launch ->
  0 < max_cache_size st ->
  recent_launches (fst (_handle_pair_created_event now ev st))
  = lastn (Z.to_nat (max_cache_size st)) (recent_launches st ++ [launch])
  /\ (Z.of_nat (length (recent_launches st)) < max_cache_size st ->
      count_pair (pair_address launch) (recent_launches (fst (_handle_pair_created_event now ev st)))
      = S (count_pair (pair_address launch) (recent_launches st))).
Proof.
  intros Hacc Hcap. rewrite (handle_accepted _ _ _ _ Hacc). simpl.
  rewrite trimmed_lastn by assumption. split; [reflexivity|].
  intros Hroom. rewrite lastn_all by (rewrite length_app; simpl; lia).
  rewrite count_pair_app. unfold count_pair at 2. simpl.
  rewrite String.eqb_refl. simpl. lia.
Qed.

(** The amended C1 at the second delivery of [sample_log]. *)
Lemma accepted_event_is_appended_without_dedup_witness :
  accepted 2 (Decoded sample_log) after_first_delivery
  = Some (launch_of 2 sample_log (args_token1 sample_log))
  /\ 0 < max_cache_size after_first_delivery
  /\ (recent_launches (fst (_handle_pair_created_event 2 (Decoded sample_log) after_first_delivery))
      = lastn (Z.to_nat (max_cache_size after_first_delivery))
          (recent_launches after_first_delivery
           ++ [launch_of 2 sample_log (args_token1 sample_log)])
      /\ (Z.of_nat (length (recent_launches after_first_delivery))
          < max_cache_size after_first_delivery ->
          count_pair (pair_address (launch_of 2 sample_log (args_token1 sample_log)))
            (recent_launches
               (fst (_handle_pair_created_event 2 (Decoded sample_log) after_first_delivery)))
          = S (count_pair (pair_address (launch_of 2 sample_log (args_token1 sample_log)))
                 (recent_launches after_first_delivery)))).
Proof.
  split; [vm_compute; reflexivity|].
  split; [reflexivity|].
  apply accepted_event_is_appended_without_dedup; [vm_compute; reflexivity|reflexivity].
Defined.

End MonitorFacts.

(** ** Comparisons of binary64 numbers *)

Module FloatFacts.

Lemma SFcompare_antisym x y :
  SFcompare y x = option_map CompOpp (SFcompare x y).
Proof.
  destruct x as [sx|sx| |sx mx ex], y as [sy|sy| |sy my ey]; simpl;
    try destruct sx; try destruct sy; try reflexivity;
    rewrite (Z.compare_antisym ex ey);
    assert (Hm : Pos.compare_cont Eq my mx = CompOpp (Pos.compare_cont Eq mx my))
      by (rewrite Pos.compare_cont_antisym; reflexivity);
    destruct (ex ?= ey); simpl; try reflexivity;
    rewrite Hm; destruct (Pos.compare_cont Eq mx my); reflexivity.
Qed.


Lemma ltb_asym (a b : float) : (a <? b)%float = true -> (b <? a)%float = false.
Proof.
  rewrite !FloatAxioms.ltb_spec. unfold SFltb.
  rewrite (SFcompare_antisym (Prim2SF a) (Prim2SF b)).
  destruct (SFcompare (Prim2SF a) (Prim2SF b)) as [[]|]; simpl; congruence.
Qed.


End FloatFacts.

(** ** The arbitrage scanner *)

Module ScannerFacts.
Import Scanner PyFacts.

(** What [scan_token] has checked and computed when it yields an
    opportunity. *)
Lemma scan_token_Some env st da db na nb token opp :
  scan_token env st da db na nb token = Some opp ->
  exists pa pb,
    get_token_price da token = Quote pa /\ get_token_price db token = Quote pb
    /\ (0 <? pa)%float = true /\ (0 <? pb)%float = true
    /\ profit_percentage opp = price_diff_pct pa pb
    /\ (Config.MIN_PROFIT_THRESHOLD <? profit_percentage opp)%float = true
    /\ is_executable opp = (min_executable_profit <? net_profit opp)%float
    /\ (if (pa <? pb)%float
        then dex_a opp = na /\ dex_b opp = nb /\ price_a opp = pa /\ price_b opp = pb
        else dex_a opp = nb /\ dex_b opp = na /\ price_a opp = pb /\ price_b opp = pa).
Proof.
  unfold scan_token, Py.gt.
  destruct (get_token_price da token) as [| |pa]; try discriminate.
  destruct (get_token_price db token) as [| |pb]; try discriminate.
  destruct (0 <? pa)%float eqn:Ha; [|discriminate].
  destruct (0 <? pb)%float eqn:Hb; [|discriminate]. simpl.
  destruct (Config.MIN_PROFIT_THRESHOLD <? price_diff_pct pa pb)%float eqn:Hpct; [|discriminate].
  intros H. exists pa, pb.
  destruct (pa <? pb)%float;
    destruct (Py.float_of_Z _); try discriminate;
    destruct (get_token_info da token); try discriminate;
    injection H as <-; simpl; repeat split; assumption || reflexivity.
Qed.

Lemma elem_of_scan_dex_pair env st da db na nb opp :
  opp ∈ _scan_dex_pair env st da db na nb ->
  exists token, token ∈ monitor_tokens st /\ scan_token env st da db na nb token = Some opp.
Proof. unfold _scan_dex_pair. rewrite list_elem_of_omap. intros [t [? ?]]. eauto. Qed.

Lemma elem_of_scan env st opp :
  opp ∈ scan_arbitrage_opportunities env st ->
  exists da db na nb token, scan_token env st da db na nb token = Some opp.
Proof.
  unfold scan_arbitrage_opportunities. rewrite list_elem_of_bind.
  intros [[[na da] [nb db]] [Hin _]].
  destruct (available da && available db).
  - apply elem_of_scan_dex_pair in Hin as [token [_ H]]. eauto 6.
  - apply elem_of_nil in Hin. contradiction.
Qed.

(** An opportunity is for the token that was scanned, and its gas
    estimate is that of its two sides. *)
Lemma scan_token_address env st da db na nb token opp :
  scan_token env st da db na nb token = Some opp ->
  token_address opp = token
  /\ gas_estimate opp = _estimate_arbitrage_gas st token (dex_a opp) (dex_b opp).
Proof.
  unfold scan_token.
  destruct (get_token_price da token) as [| |pa]; try discriminate.
  destruct (get_token_price db token) as [| |pb]; try discriminate.
  destruct (Py.gt pa 0 && Py.gt pb 0); try discriminate.
  destruct (Py.gt (price_diff_pct pa pb) Config.MIN_PROFIT_THRESHOLD); try discriminate.
  destruct (pa <? pb)%float;
    (destruct (Py.float_of_Z _); try discriminate;
     destruct (get_token_info da token); try discriminate;
     intros [= <-]; split; reflexivity).
Qed.

(** The estimate is the fallback of the [except] branch on every input:
    the buy path cannot be built. *)
Lemma estimate_arbitrage_gas_fallback st token buy sell :
  _estimate_arbitrage_gas st token buy sell = Config.DEFAULT_GAS_LIMIT * 2.
Proof.
  unfold _estimate_arbitrage_gas.
  destruct (dex_lookup buy (dexes st)) as [b|]; [|reflexivity].
  destruct (dex_lookup sell (dexes st)) as [s|]; reflexivity.
Qed.

Lemma elem_of_unordered_pairs {A : Type} (l : list A) x y :
  (x, y) ∈ unordered_pairs l -> x ∈ l /\ y ∈ l.
Proof.
  induction l as [|a l IH]; simpl; [set_solver|].
  rewrite elem_of_app, list_elem_of_fmap. intros [(b & [= -> ->] & Hb)|H].
  - split; [left|right; exact Hb].
  - destruct (IH H). split; right; assumption.
Qed.

(** The scan reads the registry and the watch list, not the cache. *)
Lemma scan_set_recent env l st :
  scan_arbitrage_opportunities env (set_recent_opportunities l st)
  = scan_arbitrage_opportunities env st.
Proof. reflexivity. Qed.

(** What the turns of the loop add to the cache, in order. *)
Definition found (envs : list Env) (st : MultiDEXScanner) : list ArbitrageOpportunity :=
  envs ≫= (fun env => List.filter profitable (scan_arbitrage_opportunities env st)).

Lemma scan_loop_iteration_cache env st :
  0 < max_cache_size st ->
  (length (recent_opportunities st) <= Z.to_nat (max_cache_size st))%nat ->
  recent_opportunities (scan_loop_iteration env st)
  = lastn (Z.to_nat (max_cache_size st))
      (recent_opportunities st ++ List.filter profitable (scan_arbitrage_opportunities env st)).
Proof.
  intros Hcap Hlen. unfold scan_loop_iteration.
  destruct (List.filter profitable _) as [|o os].
  - rewrite app_nil_r. symmetry. apply lastn_all. assumption.
  - rewrite <- (trimmed_lastn _ _ Hcap). unfold trimmed.
    destruct (_ >? _); reflexivity.
Qed.

Lemma scan_loop_iteration_fields env st :
  max_cache_size (scan_loop_iteration env st) = max_cache_size st
  /\ dexes (scan_loop_iteration env st) = dexes st
  /\ monitor_tokens (scan_loop_iteration env st) = monitor_tokens st.
Proof.
  unfold scan_loop_iteration. destruct (List.filter profitable _); [auto|].
  destruct (_ >? _); auto.
Qed.

Lemma scan_same_inputs env st st' :
  dexes st' = dexes st -> monitor_tokens st' = monitor_tokens st ->
  scan_arbitrage_opportunities env st' = scan_arbitrage_opportunities env st.
Proof.
  intros Hd Hm. unfold scan_arbitrage_opportunities, _scan_dex_pair, scan_token,
    _estimate_arbitrage_gas. rewrite Hd, Hm. reflexivity.
Qed.

Lemma found_same_inputs envs st st' :
  dexes st' = dexes st -> monitor_tokens st' = monitor_tokens st ->
  found envs st' = found envs st.
Proof.
  intros Hd Hm. unfold found. induction envs as [|env envs IH]; [reflexivity|].
  rewrite !bind_cons, IH, (scan_same_inputs env st st' Hd Hm). reflexivity.
Qed.

Lemma scan_loop_cache envs : forall st,
  0 < max_cache_size st ->
  (length (recent_opportunities st) <= Z.to_nat (max_cache_size st))%nat ->
  recent_opportunities (scan_loop envs st)
  = lastn (Z.to_nat (max_cache_size st)) (recent_opportunities st ++ found envs st).
Proof.
  induction envs as [|env envs IH]; intros st Hcap Hlen.
  - simpl. rewrite app_nil_r. symmetry. apply lastn_all. assumption.
  - cbn [scan_loop].
    destruct (scan_loop_iteration_fields env st) as (Hmax & Hd & Hm).
    rewrite IH; rewrite Hmax; try assumption.
    + rewrite (found_same_inputs envs st _ Hd Hm).
      rewrite scan_loop_iteration_cache by assumption.
      rewrite lastn_app_absorb, <- app_assoc. reflexivity.
    + rewrite scan_loop_iteration_cache, length_lastn by assumption. lia.
Qed.

(** An exchange object that quotes one price for every token and
    estimates one gas amount for every swap. *)
Definition exchange (price : float) (gas : Z) : DEX :=
  {| is_available := None;
     get_token_price := fun _ => Quote price;
     get_token_info := fun _ => Py.Ok (Some "TKN");
     estimate_swap_gas := Some (fun _ _ _ => Py.Ok (Some gas)) |}.

(** Scenario A: the token is quoted 1.00 on X and 1.05 on Y.  The gas
    estimate of the scan is its fallback of 600000, whatever the two
    exchanges estimate for their legs, so a gas price of 833333333 wei
    gives the gas cost of the scenario, 0.0005 in base currency, to nine
    decimal places. *)
Definition scenario_A : MultiDEXScanner :=
  {| dexes := [("X", exchange 1 25000); ("Y", exchange 1.05 25000)];
     monitor_tokens := ["0x1111111111111111111111111111111111111111"];
     recent_opportunities := [];
     max_cache_size := 100;
     is_scanning := true |}.

Definition env_A : Env := {| eth_gas_price := Some 833333333; now := 0 |}.

(** Scenario A at a gas price of 10 gwei, the price that [_get_gas_price]
    also falls back to: the gas cost is 0.006. *)
Definition env_10_gwei : Env := {| eth_gas_price := Some 10000000000; now := 0 |}.

(** The opportunity of scenario A. *)
Definition opportunity_A : ArbitrageOpportunity :=
  mkArbitrageOpportunity "0x1111111111111111111111111111111111111111" "TKN"
    "X" "Y" 1 1.05 5.0000000000000044 600000 0.0045000000002000046 true 0.



(** C4, as stated, fails on the spread: scenario A yields one
    opportunity, and its spread is 5.0000000000000044 percent (the
    difference over the smaller quote), not about 4.76. *)
Lemma scenario_A_spread_is_five_percent :
  profit_percentage <$> scan_arbitrage_opportunities env_A scenario_A
  = [5.0000000000000044%float]
  /\ (4.77 <? 5.0000000000000044)%float = true.
Proof. split; vm_compute; reflexivity. Qed.

(** C4, amended: in scenario A the gas cost, the estimate of 600000 at
    the gas price of 833333333 wei, is 0.0005 within 1e-9, and the scan
    yields one opportunity, bought on X and sold on Y, whose spread is 5
    percent and whose net profit, the price difference times the notional
    of 0.1 less the gas cost, is 0.0045, both within 1e-9; it is marked
    executable, the net profit being above the fixed floor of 0.001. *)
Theorem scenario_A_opportunity :
  exists wei opp,
    Py.float_of_Z (600000 * _get_gas_price env_A) = Py.Ok wei
    /\ (abs (wei / 1e18 - 0.0005) <? 1e-9)%float = true
    /\ scan_arbitrage_opportunities env_A scenario_A = [opp]
    /\ dex_a opp = "X" /\ dex_b opp = "Y"
    /\ price_a opp = 1%float /\ price_b opp = 1.05%float
    /\ gas_estimate opp = 600000
    /\ (abs (profit_percentage opp - 5) <? 1e-9)%float = true
    /\ net_profit opp = ((price_b opp - price_a opp) * 0.1 - wei / 1e18)%float
    /\ (abs (net_profit opp - 0.0045) <? 1e-9)%float = true
    /\ (min_executable_profit <? net_profit opp)%float = true
    /\ is_executable opp = true.
Proof.
  eexists. eexists.
  split; [vm_compute; reflexivity|].
  split; [vm_compute; reflexivity|].
  split; [vm_compute; reflexivity|].
  repeat split; vm_compute; reflexivity.
Qed.

(** C5: an opportunity produced by a scan is marked executable exactly
    when its net profit is above [min_executable_profit], the constant
    0.001, whatever the percentage threshold let through; and the
    opportunities that the loop adds to the cache keep that property. *)
Theorem executable_iff_above_floor env envs st opp :
  min_executable_profit = 0.001%float
  /\ (opp ∈ scan_arbitrage_opportunities env st ->
      is_executable opp = (min_executable_profit <? net_profit opp)%float)
  /\ (Forall (fun o => is_executable o = (min_executable_profit <? net_profit o)%float)
        (recent_opportunities st) ->
      Forall (fun o => is_executable o = (min_executable_profit <? net_profit o)%float)
        (recent_opportunities (scan_loop envs st))).
Proof.
  split; [reflexivity|]. split.
  - intros Hin. apply elem_of_scan in Hin as (da & db & na & nb & token & Hscan).
    destruct (scan_token_Some _ _ _ _ _ _ _ _ Hscan)
      as (pa & pb & _ & _ & _ & _ & _ & _ & Hexe & _).
    exact Hexe.
  - revert st. induction envs as [|e envs IH]; intros st Hall; [exact Hall|].
    cbn [scan_loop]. apply IH. unfold scan_loop_iteration.
    assert (Hnew : Forall (fun o => is_executable o = (min_executable_profit <? net_profit o)%float)
                     (List.filter profitable (scan_arbitrage_opportunities e st))).
    { apply Forall_forall. intros o Ho. apply list_elem_of_In, List.filter_In in Ho as [Ho _].
      apply list_elem_of_In, elem_of_scan in Ho as (da & db & na & nb & token & Hscan).
      destruct (scan_token_Some _ _ _ _ _ _ _ _ Hscan)
        as (pa & pb & _ & _ & _ & _ & _ & _ & Hexe & _).
      exact Hexe. }
    destruct (List.filter profitable _) as [|o os] eqn:Hf; [exact Hall|].
    assert (Hext : Forall (fun o => is_executable o = (min_executable_profit <? net_profit o)%float)
                     (recent_opportunities st ++ o :: os))
      by (apply Forall_app; split; assumption).
    destruct (_ >? _); simpl; [|exact Hext].
    unfold Py.slice_last, Py.slice_from. apply Forall_drop. exact Hext.
Qed.

(** C5 on the opportunity of scenario A, whose net profit of 0.0045 is
    above the floor and which one turn of the loop caches, and on the
    cache after that turn. *)
Lemma executable_iff_above_floor_witness :
  opportunity_A ∈ scan_arbitrage_opportunities env_A scenario_A
  /\ (min_executable_profit <? net_profit opportunity_A)%float = true
  /\ is_executable opportunity_A = (min_executable_profit <? net_profit opportunity_A)%float
  /\ recent_opportunities (scan_loop [env_A] scenario_A) = [opportunity_A]
  /\ Forall (fun o => is_executable o = (min_executable_profit <? net_profit o)%float)
       (recent_opportunities (scan_loop [env_A] scenario_A)).
Proof.
  assert (Hin : opportunity_A ∈ scan_arbitrage_opportunities env_A scenario_A)
    by (vm_compute; apply list_elem_of_here).
  destruct (executable_iff_above_floor env_A [env_A] scenario_A opportunity_A)
    as (_ & Hscan & Hloop).
  split; [exact Hin|]. split; [vm_compute; reflexivity|].
  split; [exact (Hscan Hin)|].
  split; [vm_compute; reflexivity|apply Hloop; constructor].
Defined.

(** At 10 gwei the same quotes give a net profit below the floor: the
    opportunity is reported, marked not executable, and not cached. *)
Lemma scenario_A_at_10_gwei_is_not_executable :
  exists opp,
    scan_arbitrage_opportunities env_10_gwei scenario_A = [opp]
    /\ gas_estimate opp = 600000
    /\ (min_executable_profit <? net_profit opp)%float = false
    /\ is_executable opp = false
    /\ recent_opportunities (scan_loop [env_10_gwei] scenario_A) = [].
Proof.
  eexists. split; [vm_compute; reflexivity|].
  repeat split; vm_compute; reflexivity.
Qed.

End ScannerFacts.

(** ** The snipe executor *)

Module ExecutorFacts.
Import Executor.

(** Collaborators that refuse nothing: enough liquidity, no honeypot, a
    gas price of 1 gwei, a token record, a quoted output, a transaction
    that builds, a gas estimate and a storage that accepts. *)
Definition approving : Env :=
  {| check_liquidity := fun _ _ => Py.Ok true;
     simulate_honeypot := fun _ => Py.Ok false;
     gas_price_checks := Py.Ok 1000000000;
     get_token_info := fun _ => Py.Ok (Some "TKN");
     get_amounts_out := fun amount _ => Some [amount; 1000000000000000000000];
     build_swap_transaction := fun amount min_out path to =>
       Py.Ok (Some {| tx_from := to; tx_value := amount; tx_amount_out_min := min_out;
                      tx_path := path; tx_gas := Config.DEFAULT_GAS_LIMIT;
                      tx_gasPrice := 1100000000 |});
     estimate_gas := fun _ => Py.Ok 150000;
     gas_price_build := Py.Ok 1000000000;
     create_trade := fun _ => Py.Ok 1;
     elapsed := 0.25%float |}.

(** The same collaborators, with a pool that lacks liquidity. *)
Definition illiquid : Env :=
  {| check_liquidity := fun _ _ => Py.Ok false;
     simulate_honeypot := simulate_honeypot approving;
     gas_price_checks := gas_price_checks approving;
     get_token_info := get_token_info approving;
     get_amounts_out := get_amounts_out approving;
     build_swap_transaction := build_swap_transaction approving;
     estimate_gas := estimate_gas approving;
     gas_price_build := gas_price_build approving;
     create_trade := create_trade approving;
     elapsed := elapsed approving |}.

(** A request of [user] for [token], made at [time] microseconds. *)
Definition request (user : Z) (token : string) (time : Py.datetime) : SnipeRequest :=
  {| user_id := user;
     token_address := token;
     amount_eth := 0.1%float;
     max_slippage_percent := 2%float;
     wallet_address := "0x9999999999999999999999999999999999999999";
     request_time := time;
     priority_fee := None |}.

(** [prepare] never gets past the path: it answers with a failure, the
    one of the amount that does not convert or the one of the missing
    [Config.WETH_ADDRESS]. *)
Lemma prepare_fails env st req symbol :
  exists failed, prepare env st req symbol = inl failed /\ success failed = false.
Proof.
  unfold prepare. destruct (Py.int_of_float _); simpl; eexists; split; reflexivity.
Qed.

(** An execution ends in a failure and leaves the executor as it was. *)
Lemma execute_fails env req st :
  success (fst (_execute_snipe env req st)) = false
  /\ snd (_execute_snipe env req st) = st.
Proof.
  unfold _execute_snipe.
  destruct (_pre_execution_checks env st req); [|split; reflexivity].
  destruct (get_token_info env (token_address req)) as [[symbol|]|msg];
    try (split; reflexivity).
  destruct (prepare_fails env st req symbol) as (failed & -> & Hfail).
  split; [exact Hfail|reflexivity].
Qed.

(** Every way out of [_execute_snipe] but the last leaves the executor
    as it was. *)
Lemma execute_failure_state env req st :
  success (fst (_execute_snipe env req st)) = false ->
  snd (_execute_snipe env req st) = st.
Proof.
  unfold _execute_snipe.
  destruct (_pre_execution_checks env st req); [|reflexivity].
  destruct (get_token_info env (token_address req)) as [[symbol|]|msg]; try reflexivity.
  destruct (prepare env st req symbol) as [failed|[key result]] eqn:Hp; [reflexivity|].
  exfalso. destruct (prepare_fails env st req symbol) as (failed & Hf & _). congruence.
Qed.

(** What an execution returns does not depend on the queue. *)
Lemma execute_result_set_queue env req q st :
  fst (_execute_snipe env req (set_queue q st)) = fst (_execute_snipe env req st).
Proof.
  unfold _execute_snipe.
  change (_pre_execution_checks env (set_queue q st) req)
    with (_pre_execution_checks env st req).
  destruct (_pre_execution_checks env st req); [|reflexivity].
  destruct (get_token_info env (token_address req)) as [[symbol|]|msg]; try reflexivity.
  change (prepare env (set_queue q st) req symbol) with (prepare env st req symbol).
  destruct (prepare env st req symbol) as [failed|[key result]]; reflexivity.
Qed.

(** C7, as stated, fails: the queue is [asyncio.Queue()], which has no
    capacity.  No queue length makes [submit_snipe] refuse a request: on
    the executor with any [cap] requests waiting, one more is submitted
    and gets its id. *)
Lemma no_queue_length_refuses_a_submission :
  ~ exists cap : nat,
      forall waiting : list SnipeRequest, length waiting = cap ->
        forall id st',
          submit_snipe (request 7 "0x1111111111111111111111111111111111111111" 1700000000000000)
            (set_queue (Queue.mk (Queue.maxsize (execution_queue init)) waiting) init)
          <> Submitted id st'.
Proof.
  intros [cap H].
  eapply (H (replicate cap (request 1 "0x2222222222222222222222222222222222222222" 0))).
  - apply length_replicate.
  - vm_compute submit_snipe. reflexivity.
Qed.

(** What [submit_snipe] does on an executor with the queue of [__init__]. *)
Lemma submit_snipe_accepts st req id :
  Queue.maxsize (execution_queue st) = Queue.maxsize (execution_queue init) ->
  request_id req = Py.Ok id ->
  exists st',
    submit_snipe req st = Submitted id st'
    /\ Queue.items (execution_queue st') = Queue.items (execution_queue st) ++ [req]
    /\ Queue.maxsize (execution_queue st') = Queue.maxsize (execution_queue st)
    /\ active_snipes st' = <[id := req]> (active_snipes st)
    /\ snipe_results st' = snipe_results st.
Proof.
  intros Hmax Hid. unfold submit_snipe. rewrite Hid.
  unfold Queue.put, Queue.full. cbn [execution_queue set_active].
  rewrite Hmax. cbn.
  eexists. split; [reflexivity|]. cbn. auto.
Qed.

(** C7, amended: on an executor whose queue is the unbounded one that
    [__init__] creates, [submit_snipe] builds the request id, stores the
    request under it in [active_snipes], appends the request to the end of
    the queue and returns the id; nothing is executed and no result is
    stored by the call, and the call is never refused for the length of
    the queue. *)
Theorem submit_enqueues_and_returns_id st req id :
  Queue.maxsize (execution_queue st) = Queue.maxsize (execution_queue init) ->
  request_id req = Py.Ok id ->
  exists st',
    submit_snipe req st = Submitted id st'
    /\ Queue.items (execution_queue st') = Queue.items (execution_queue st) ++ [req]
    /\ Queue.maxsize (execution_queue st') = Queue.maxsize (execution_queue st)
    /\ active_snipes st' = <[id := req]> (active_snipes st)
    /\ snipe_results st' = snipe_results st.
Proof. exact (submit_snipe_accepts st req id). Qed.

(** The amended C7 on a fresh executor. *)
Lemma submit_enqueues_and_returns_id_witness :
  Queue.maxsize (execution_queue init) = Queue.maxsize (execution_queue init)
  /\ request_id (request 7 "0x1111111111111111111111111111111111111111" 1700000000000000)
     = Py.Ok "snipe_7_1700000000"
  /\ exists st',
       submit_snipe (request 7 "0x1111111111111111111111111111111111111111" 1700000000000000)
         init = Submitted "snipe_7_1700000000" st'
       /\ Queue.items (execution_queue st')
          = Queue.items (execution_queue init)
            ++ [request 7 "0x1111111111111111111111111111111111111111" 1700000000000000]
       /\ Queue.maxsize (execution_queue st') = Queue.maxsize (execution_queue init)
       /\ active_snipes st'
          = <["snipe_7_1700000000" :=
                request 7 "0x1111111111111111111111111111111111111111" 1700000000000000]>
              (active_snipes init)
       /\ snipe_results st' = snipe_results init.
Proof.
  split; [reflexivity|]. split; [vm_compute; reflexivity|].
  apply submit_enqueues_and_returns_id; [reflexivity|vm_compute; reflexivity].
Defined.

(** Two requests of one user within one second, for different tokens. *)
Definition first_request : SnipeRequest :=
  request 7 "0x1111111111111111111111111111111111111111" 1700000000000000.
Definition second_request : SnipeRequest :=
  request 7 "0x2222222222222222222222222222222222222222" 1700000000500000.

(** C8, as stated, fails: the second of two requests with one identity
    key, submitted while the first still waits in the queue, is not
    rejected.  It gets the same id, both requests wait in the queue, and
    [active_snipes] keeps the second under the id. *)
Lemma same_key_resubmission_is_accepted :
  exists st1 st2,
    submit_snipe first_request init = Submitted "snipe_7_1700000000" st1
    /\ submit_snipe second_request st1 = Submitted "snipe_7_1700000000" st2
    /\ Queue.items (execution_queue st2) = [first_request; second_request]
    /\ active_snipes st2 !! "snipe_7_1700000000" = Some second_request
    /\ get_snipe_status st2 "snipe_7_1700000000" = None.
Proof.
  eexists. eexists.
  split; [vm_compute; reflexivity|].
  split; [vm_compute; reflexivity|].
  repeat split; vm_compute; reflexivity.
Qed.

(** C8, amended: a submission under a key that is already in use is
    accepted like any other: it returns that key, replaces the request
    kept under it in [active_snipes], and both requests wait in the queue.
    [snipe_results] is a dictionary, so a key has at most one result;
    executing the two requests stores none, and the status under the key
    is what it was before. *)
Theorem same_key_requests_are_both_queued st r1 r2 id :
  Queue.maxsize (execution_queue st) = Queue.maxsize (execution_queue init) ->
  request_id r1 = Py.Ok id ->
  request_id r2 = Py.Ok id ->
  (exists st1 st2,
     submit_snipe r1 st = Submitted id st1
     /\ submit_snipe r2 st1 = Submitted id st2
     /\ Queue.items (execution_queue st2) = Queue.items (execution_queue st) ++ [r1; r2]
     /\ active_snipes st2 !! id = Some r2)
  /\ (forall env1 env2 : Env,
        let st1 := snd (_execute_snipe env1 r1 st) in
        snipe_results (snd (_execute_snipe env2 r2 st1)) = snipe_results st
        /\ get_snipe_status (snd (_execute_snipe env2 r2 st1)) id = get_snipe_status st id).
Proof.
  intros Hmax H1 H2. split.
  - destruct (submit_snipe_accepts st r1 id Hmax H1)
      as (st1 & Hs1 & Hq1 & Hm1 & Ha1 & _).
    assert (Hmax1 : Queue.maxsize (execution_queue st1) = Queue.maxsize (execution_queue init))
      by congruence.
    destruct (submit_snipe_accepts st1 r2 id Hmax1 H2)
      as (st2 & Hs2 & Hq2 & _ & Ha2 & _).
    exists st1, st2. repeat split; try assumption.
    + rewrite Hq2, Hq1, <- app_assoc. reflexivity.
    + rewrite Ha2. apply lookup_insert_eq.
  - intros env1 env2 st1. unfold st1.
    rewrite (proj2 (execute_fails env2 r2 _)), (proj2 (execute_fails env1 r1 st)).
    split; reflexivity.
Qed.

(** The amended C8 on the two requests above: both are queued under one
    id, and executing them with collaborators that refuse nothing returns
    the failure of the missing [Config.WETH_ADDRESS] and leaves the id
    without a status. *)
Lemma same_key_requests_are_both_queued_witness :
  Queue.maxsize (execution_queue init) = Queue.maxsize (execution_queue init)
  /\ request_id first_request = Py.Ok "snipe_7_1700000000"
  /\ request_id second_request = Py.Ok "snipe_7_1700000000"
  /\ error_message (fst (_execute_snipe approving first_request init))
     = Some "type object 'Config' has no attribute 'WETH_ADDRESS'"
  /\ get_snipe_status init "snipe_7_1700000000" = None
  /\ (exists st1 st2,
        submit_snipe first_request init = Submitted "snipe_7_1700000000" st1
        /\ submit_snipe second_request st1 = Submitted "snipe_7_1700000000" st2
        /\ Queue.items (execution_queue st2)
           = Queue.items (execution_queue init) ++ [first_request; second_request]
        /\ active_snipes st2 !! "snipe_7_1700000000" = Some second_request)
  /\ snipe_results
       (snd (_execute_snipe approving second_request
               (snd (_execute_snipe approving first_request init))))
     = snipe_results init
  /\ get_snipe_status
       (snd (_execute_snipe approving second_request
               (snd (_execute_snipe approving first_request init))))
       "snipe_7_1700000000"
     = get_snipe_status init "snipe_7_1700000000".
Proof.
  split; [reflexivity|].
  split; [vm_compute; reflexivity|].
  split; [vm_compute; reflexivity|].
  split; [vm_compute; reflexivity|].
  split; [reflexivity|].
  destruct (same_key_requests_are_both_queued init first_request second_request
              "snipe_7_1700000000") as [Hsub Hexec];
    [reflexivity|vm_compute; reflexivity|vm_compute; reflexivity|].
  split; [exact Hsub|]. exact (Hexec approving approving).
Defined.

(** C9 on the code: an execution that ends in a failure returns its
    reason to the loop, which drops it; nothing is written to
    [snipe_results], so the status of the request is what it was before,
    and an id without a result stays without one. *)
Theorem failed_execution_is_not_recorded env req st id :
  success (fst (_execute_snipe env req st)) = false ->
  request_id req = Py.Ok id ->
  get_snipe_status st id = None ->
  get_snipe_status (snd (_execute_snipe env req st)) id = None
  /\ get_snipe_status
       (execution_loop_step env (set_queue (Queue.mk 0 [req]) st)) id = None.
Proof.
  intros Hfail _ Hnone. split.
  - rewrite (execute_failure_state env req st Hfail). exact Hnone.
  - unfold execution_loop_step. cbn [Queue.get Queue.items execution_queue set_queue].
    rewrite execute_failure_state; [exact Hnone|].
    rewrite !execute_result_set_queue. exact Hfail.
Qed.

(** C9 at a request for a token without liquidity: it is submitted, the
    loop takes it and the checks fail with their reason, the queue is
    empty afterwards, and [get_snipe_status] still knows nothing of it. *)
Lemma failed_execution_is_not_recorded_witness :
  submit_snipe first_request init
  = Submitted "snipe_7_1700000000"
      (set_queue (Queue.mk 0 [first_request])
         (set_active (<["snipe_7_1700000000" := first_request]> ∅) init))
  /\ error_message (fst (_execute_snipe illiquid first_request init))
     = Some "Pre-execution checks failed"
  /\ success (fst (_execute_snipe illiquid first_request init)) = false
  /\ request_id first_request = Py.Ok "snipe_7_1700000000"
  /\ get_snipe_status init "snipe_7_1700000000" = None
  /\ get_snipe_status (snd (_execute_snipe illiquid first_request init))
       "snipe_7_1700000000" = None
  /\ get_snipe_status
       (execution_loop_step illiquid (set_queue (Queue.mk 0 [first_request]) init))
       "snipe_7_1700000000" = None.
Proof.
  split; [vm_compute; reflexivity|].
  split; [reflexivity|]. split; [reflexivity|].
  split; [vm_compute; reflexivity|]. split; [reflexivity|].
  apply failed_execution_is_not_recorded; [reflexivity|vm_compute; reflexivity|reflexivity].
Defined.

End ExecutorFacts.

(** ** Rounding in binary64

    The specification of the primitive floats rounds with
    [binary_round_aux]; this part shows that the rounding is monotone
    and what it returns for the operations of [calculate_slippage]. *)

Module Binary64.

(** [2 ^ e] as a real number, for any integer exponent. *)
Definition bpow (e : Z) : R := powerRZ 2 e.
Arguments bpow e : simpl never.

Lemma bpow_pos e : (0 < bpow e)%R.
Proof. apply powerRZ_lt. lra. Qed.

Lemma bpow_add a b : bpow (a + b) = (bpow a * bpow b)%R.
Proof. apply powerRZ_add. lra. Qed.

Lemma bpow_0 : bpow 0 = 1%R.
Proof. reflexivity. Qed.

Lemma bpow_1 : bpow 1 = 2%R.
Proof. unfold bpow. simpl. lra. Qed.

Lemma bpow_succ e : bpow (e + 1) = (2 * bpow e)%R.
Proof. rewrite bpow_add, bpow_1. lra. Qed.

Lemma bpow_IZR n : 0 <= n -> bpow n = IZR (2 ^ n).
Proof.
  intros Hn. unfold bpow. rewrite <- (Z2Nat.id n Hn) at 1 2.
  rewrite <- pow_powerRZ, pow_IZR. reflexivity.
Qed.

Lemma bpow_le a b : a <= b -> (bpow a <= bpow b)%R.
Proof.
  intros H. replace b with (a + (b - a)) by lia.
  rewrite bpow_add, (bpow_IZR (b - a)) by lia.
  assert (1 <= 2 ^ (b - a)) by (apply Z.lt_pred_le, Z.pow_pos_nonneg; lia).
  apply IZR_le in H0. pose proof (bpow_pos a). nra.
Qed.

Lemma bpow_lt a b : a < b -> (bpow a < bpow b)%R.
Proof.
  intros H. apply Rlt_le_trans with (bpow (a + 1)).
  - rewrite bpow_succ. pose proof (bpow_pos a). lra.
  - apply bpow_le. lia.
Qed.

Lemma bpow_lt_inv a b : (bpow a < bpow b)%R -> a < b.
Proof.
  intros H. destruct (Z.lt_ge_cases a b) as [|Hge]; [assumption|].
  apply bpow_le in Hge. lra.
Qed.

Lemma bpow_le_inv a b : (bpow a <= bpow b)%R -> a <= b.
Proof.
  intros H. destruct (Z.le_gt_cases a b) as [|Hgt]; [assumption|].
  apply bpow_lt in Hgt. lra.
Qed.

(** The number of binary digits of a positive number. *)
Lemma digits2_pos_bounds p :
  2 ^ (Z.pos (digits2_pos p) - 1) <= Z.pos p < 2 ^ Z.pos (digits2_pos p).
Proof.
  induction p as [p IH|p IH|]; simpl digits2_pos.
  - rewrite Pos2Z.inj_succ.
    replace (Z.succ (Z.pos (digits2_pos p)) - 1) with (Z.succ (Z.pos (digits2_pos p) - 1)) by lia.
    rewrite !Z.pow_succ_r by lia. lia.
  - rewrite Pos2Z.inj_succ.
    replace (Z.succ (Z.pos (digits2_pos p)) - 1) with (Z.succ (Z.pos (digits2_pos p) - 1)) by lia.
    rewrite !Z.pow_succ_r by lia. lia.
  - simpl. lia.
Qed.

Lemma Zdigits2_bounds m :
  0 < m -> 2 ^ (Zdigits2 m - 1) <= m < 2 ^ Zdigits2 m.
Proof. destruct m as [|p|p]; try lia. intros _. apply digits2_pos_bounds. Qed.

Lemma Zdigits2_pos m : 0 < m -> 0 < Zdigits2 m.
Proof. destruct m; simpl; lia. Qed.

Lemma Zdigits2_unique m d :
  0 < m -> 2 ^ (d - 1) <= m < 2 ^ d -> Zdigits2 m = d.
Proof.
  intros Hm [Hlo Hhi]. pose proof (Zdigits2_bounds m Hm) as [Hlo' Hhi'].
  pose proof (Zdigits2_pos m Hm).
  assert (0 < d).
  { destruct (Z.lt_ge_cases 0 d); [assumption|].
    destruct (Z.eq_dec d 0) as [->|]; [simpl in Hhi; lia|].
    rewrite Z.pow_neg_r in Hhi by lia. lia. }
  assert (d - 1 < Zdigits2 m) by (apply (Z.pow_lt_mono_r_iff 2); lia).
  assert (Zdigits2 m - 1 < d) by (apply (Z.pow_lt_mono_r_iff 2); lia).
  lia.
Qed.

Lemma Zdigits2_le m k : 0 < m -> 0 <= k -> m < 2 ^ k -> Zdigits2 m <= k.
Proof.
  intros Hm Hk Hlt. pose proof (Zdigits2_bounds m Hm) as [Hlo _].
  pose proof (Zdigits2_pos m Hm).
  assert (Zdigits2 m - 1 < k) by (apply (Z.pow_lt_mono_r_iff 2); lia). lia.
Qed.

Lemma Zdigits2_ge m k : 0 < m -> 2 ^ k <= m -> k < Zdigits2 m.
Proof.
  intros Hm Hle. pose proof (Zdigits2_bounds m Hm) as [_ Hhi].
  pose proof (Zdigits2_pos m Hm).
  destruct (Z.lt_ge_cases k 0); [lia|].
  apply (Z.pow_lt_mono_r_iff 2); lia.
Qed.

(** ** Positions between two consecutive multiples of [2 ^ e] *)

(** [x] lies in the cell that starts at [m * 2 ^ e], at the place that
    the location names: on its start, below its middle, on its middle or
    above. *)
Definition inb (m e : Z) (l : location) (x : R) : Prop :=
  match l with
  | loc_Exact => x = (IZR m * bpow e)%R
  | loc_Inexact Lt => (IZR m * bpow e < x < (IZR m + / 2) * bpow e)%R
  | loc_Inexact Eq => x = ((IZR m + / 2) * bpow e)%R
  | loc_Inexact Gt => ((IZR m + / 2) * bpow e < x < (IZR m + 1) * bpow e)%R
  end.

Lemma inb_bounds m e l x :
  inb m e l x -> (IZR m * bpow e <= x < (IZR m + 1) * bpow e)%R.
Proof.
  pose proof (bpow_pos e).
  destruct l as [|[]]; simpl; intros Hx; nra.
Qed.

Lemma loc_of_record_of_loc m l :
  loc_of_shr_record (shr_record_of_loc m l) = l
  /\ shr_m (shr_record_of_loc m l) = m.
Proof. destruct l as [|[]]; split; reflexivity. Qed.

Lemma IZR_xO p : IZR (Z.pos p~0) = (2 * IZR (Z.pos p))%R.
Proof. rewrite Pos2Z.inj_xO, mult_IZR. reflexivity. Qed.

Lemma IZR_xI p : IZR (Z.pos p~1) = (2 * IZR (Z.pos p) + 1)%R.
Proof. rewrite Pos2Z.inj_xI, plus_IZR, mult_IZR. reflexivity. Qed.

(** One shift to the right keeps the place of [x]. *)
Lemma shr_1_inb mrs e x :
  0 <= shr_m mrs ->
  inb (shr_m mrs) e (loc_of_shr_record mrs) x ->
  0 <= shr_m (shr_1 mrs)
  /\ inb (shr_m (shr_1 mrs)) (e + 1) (loc_of_shr_record (shr_1 mrs)) x.
Proof.
  pose proof (bpow_pos e) as Hb.
  destruct mrs as [m r s]. simpl shr_m at 1 2.
  intros Hm. destruct m as [|[p|p|]|p]; try lia;
    destruct r, s; simpl; rewrite bpow_succ; try rewrite IZR_xO; try rewrite IZR_xI;
    intros Hx; (split; [lia|]); nra.
Qed.

Lemma iter_pos_invariant {A : Type} (f : A -> A) (Inv : Z -> A -> Prop) :
  (forall k a, Inv k a -> Inv (k + 1) (f a)) ->
  forall p k a, Inv k a -> Inv (k + Z.pos p) (@SpecFloat.iter_pos A f p a).
Proof.
  intros Hstep. induction p as [p IH|p IH|]; intros k a Ha; simpl.
  - replace (k + Z.pos p~1) with (k + 1 + Z.pos p + Z.pos p) by lia.
    apply IH, IH, Hstep, Ha.
  - replace (k + Z.pos p~0) with (k + Z.pos p + Z.pos p) by lia.
    apply IH, IH, Ha.
  - apply Hstep, Ha.
Qed.

Lemma shr_inb mrs e n x :
  0 <= shr_m mrs ->
  inb (shr_m mrs) e (loc_of_shr_record mrs) x ->
  0 <= shr_m (fst (shr mrs e n))
  /\ inb (shr_m (fst (shr mrs e n))) (snd (shr mrs e n))
       (loc_of_shr_record (fst (shr mrs e n))) x
  /\ snd (shr mrs e n) = e + Z.max n 0.
Proof.
  intros Hm Hx. destruct n as [|p|p]; simpl.
  - repeat split; try assumption. lia.
  - pose proof (iter_pos_invariant shr_1
                  (fun k a => 0 <= shr_m a /\ inb (shr_m a) k (loc_of_shr_record a) x)) as H.
    destruct (H (fun k a Ha => shr_1_inb a k x (proj1 Ha) (proj2 Ha)) p e mrs (conj Hm Hx))
      as [H1 H2].
    repeat split; assumption.
  - repeat split; try assumption. lia.
Qed.

(** ** The exponent of the format at a real number *)

Section Format.
Variables prec emax : Z.
Hypothesis prec_pos : 0 < prec.
Hypothesis prec_lt_emax : prec < emax.

Abbreviation fexp := (SpecFloat.fexp prec emax).
Abbreviation emin := (SpecFloat.emin prec emax).
Abbreviation shr_fexp := (SpecFloat.shr_fexp prec emax).
Abbreviation binary_round_aux := (SpecFloat.binary_round_aux prec emax).
Abbreviation binary_round := (SpecFloat.binary_round prec emax).
Abbreviation binary_normalize := (SpecFloat.binary_normalize prec emax).
Abbreviation bounded := (SpecFloat.bounded prec emax).
Abbreviation canonical_mantissa := (SpecFloat.canonical_mantissa prec emax).

Ltac unfold_fexp := unfold SpecFloat.fexp, SpecFloat.emin in *.

(** [e] is the exponent at which the format holds [x >= 0]: the least
    one for small numbers, otherwise the one that gives [prec] digits. *)
Definition cexp_of (x : R) (e : Z) : Prop :=
  emin <= e
  /\ (x < bpow (e + prec))%R
  /\ (emin < e -> (bpow (e + prec - 1) <= x)%R).

Lemma cexp_of_mono x y ex ey :
  (x <= y)%R -> cexp_of x ex -> cexp_of y ey -> ex <= ey.
Proof.
  intros Hxy (Hx1 & Hx2 & Hx3) (Hy1 & Hy2 & Hy3).
  destruct (Z.le_gt_cases ex ey) as [|Hgt]; [assumption|].
  assert (Hlo : (bpow (ex + prec - 1) <= x)%R) by (apply Hx3; lia).
  assert (H : (bpow (ex + prec - 1) < bpow (ey + prec))%R) by lra.
  apply bpow_lt_inv in H. lia.
Qed.

(** After the shift to the exponent of the format, the place of [x] is
    known at that exponent. *)
Lemma shr_fexp_inb m e l x :
  0 <= m -> inb m e l x -> e <= fexp (Zdigits2 m + e) ->
  0 <= shr_m (fst (shr_fexp m e l))
  /\ inb (shr_m (fst (shr_fexp m e l))) (snd (shr_fexp m e l))
       (loc_of_shr_record (fst (shr_fexp m e l))) x
  /\ snd (shr_fexp m e l) = fexp (Zdigits2 m + e)
  /\ cexp_of x (fexp (Zdigits2 m + e)).
Proof.
  intros Hm Hx Hpre. unfold SpecFloat.shr_fexp.
  destruct (loc_of_record_of_loc m l) as [Hl Hmm].
  destruct (shr_inb (shr_record_of_loc m l) e (fexp (Zdigits2 m + e) - e) x) as (H1 & H2 & H3).
  { rewrite Hmm. assumption. }
  { rewrite Hmm, Hl. assumption. }
  split; [assumption|]. split; [assumption|]. split; [rewrite H3; lia|].
  apply inb_bounds in Hx. pose proof (bpow_pos e) as Hb.
  destruct (Z.eq_dec m 0) as [->|Hne].
  - change (Zdigits2 0) with 0 in *. rewrite Z.add_0_l in *.
    assert (Hle : (bpow e <= bpow (fexp e + prec))%R) by (apply bpow_le; unfold_fexp; lia).
    split; [unfold_fexp; lia|]. split; [simpl in Hx; lra|].
    intros Hgt. exfalso. unfold_fexp. lia.
  - assert (Hpos : 0 < m) by lia.
    pose proof (Zdigits2_bounds m Hpos) as [Hlo Hhi].
    pose proof (Zdigits2_pos m Hpos) as Hd.
    split; [unfold_fexp; lia|]. split.
    + assert (Hm1 : (IZR m + 1 <= bpow (Zdigits2 m))%R).
      { rewrite bpow_IZR by lia. rewrite <- plus_IZR. apply IZR_le. lia. }
      assert (Hle : (bpow (Zdigits2 m) * bpow e <= bpow (fexp (Zdigits2 m + e) + prec))%R).
      { rewrite <- bpow_add. apply bpow_le. unfold_fexp. lia. }
      nra.
    + intros Hgt.
      replace (fexp (Zdigits2 m + e) + prec - 1) with ((Zdigits2 m - 1) + e)
        by (unfold_fexp; lia).
      rewrite bpow_add, bpow_IZR by lia.
      apply IZR_le in Hlo. nra.
Qed.

(** In the cell of the format that holds [x], the mantissa has at most
    [prec] digits, and exactly [prec] above the least exponent. *)
Lemma cell_mantissa_bounds x e m l :
  cexp_of x e -> 0 <= m -> inb m e l x ->
  m < 2 ^ prec /\ (emin < e -> 2 ^ (prec - 1) <= m).
Proof.
  intros (He & Hhi & Hlo) Hm Hx. apply inb_bounds in Hx.
  pose proof (bpow_pos e) as Hb. split.
  - apply lt_IZR. rewrite <- bpow_IZR by lia.
    rewrite bpow_add in Hhi. pose proof (bpow_pos prec). nra.
  - intros Hgt. specialize (Hlo Hgt).
    replace (e + prec - 1) with ((prec - 1) + e) in Hlo by lia.
    rewrite bpow_add, bpow_IZR in Hlo by lia.
    assert (H : (IZR (2 ^ (prec - 1)) < IZR (m + 1))%R) by (rewrite plus_IZR; nra).
    apply lt_IZR in H. lia.
Qed.

Lemma round_nearest_even_bounds m l :
  m <= round_nearest_even m l <= m + 1.
Proof. destruct l as [|[]]; simpl; try destruct (Z.even m); lia. Qed.

(** [r] is the multiple of [2 ^ e] nearest to [x >= 0], ties to even,
    at the exponent [e] of the format at [x]. *)
Definition rnd_to (x r : R) : Prop :=
  exists e m l,
    cexp_of x e /\ 0 <= m /\ inb m e l x
    /\ r = (IZR (round_nearest_even m l) * bpow e)%R.

(** Rounding is monotone. *)
Lemma rnd_to_mono x y rx ry :
  (x <= y)%R -> rnd_to x rx -> rnd_to y ry -> (rx <= ry)%R.
Proof.
  intros Hxy (ex & mx & lx & Hcx & Hmx & Hix & ->) (ey & my & ly & Hcy & Hmy & Hiy & ->).
  pose proof (cexp_of_mono x y ex ey Hxy Hcx Hcy) as Hle.
  pose proof (round_nearest_even_bounds mx lx) as [Hx1 Hx2].
  pose proof (round_nearest_even_bounds my ly) as [Hy1 Hy2].
  apply IZR_le in Hx1, Hx2, Hy1, Hy2. rewrite plus_IZR in Hx2, Hy2.
  destruct (Z.eq_dec ex ey) as [<-|Hne].
  - pose proof (bpow_pos ex) as Hb.
    pose proof (inb_bounds _ _ _ _ Hix) as Bx. pose proof (inb_bounds _ _ _ _ Hiy) as By.
    assert (Hm : mx <= my).
    { assert (H : (IZR mx < IZR (my + 1))%R) by (rewrite plus_IZR; nra).
      apply lt_IZR in H. lia. }
    destruct (Z.eq_dec mx my) as [<-|Hlt].
    + apply Rmult_le_compat_r; [lra|]. apply IZR_le.
      destruct lx as [|[]], ly as [|[]]; simpl in Hix, Hiy |- *;
        try destruct (Z.even mx); try lia; exfalso; nra.
    + assert (H : (IZR (mx + 1) <= IZR my)%R) by (apply IZR_le; lia).
      rewrite plus_IZR in H. nra.
  - assert (Hlt : ex < ey) by lia.
    destruct (cell_mantissa_bounds x ex mx lx Hcx Hmx Hix) as [Hbx _].
    destruct (cell_mantissa_bounds y ey my ly Hcy Hmy Hiy) as [_ Hby].
    destruct Hcx as (Hx3 & Hx4 & _). destruct Hcy as (Hy3 & _ & Hy5).
    assert (Hby' : 2 ^ (prec - 1) <= my) by (apply Hby; lia).
    apply IZR_le in Hby'. rewrite <- (bpow_IZR (prec - 1)) in Hby' by lia.
    assert (Hbx' : (IZR (mx + 1) <= IZR (2 ^ prec))%R) by (apply IZR_le; lia).
    rewrite plus_IZR, <- (bpow_IZR prec) in Hbx' by lia.
    pose proof (bpow_pos ex). pose proof (bpow_pos ey).
    apply Rle_trans with (bpow (ex + prec)).
    + rewrite (Z.add_comm ex), bpow_add. nra.
    + apply Rle_trans with (bpow (ey + prec - 1)).
      * apply bpow_le. lia.
      * replace (ey + prec - 1) with ((prec - 1) + ey) by lia. rewrite bpow_add. nra.
Qed.


(** A mantissa and an exponent that the format holds. *)
Definition canonical (m e : Z) : Prop :=
  0 <= m /\ emin <= e /\ m < 2 ^ prec /\ (emin < e -> 2 ^ (prec - 1) <= m).

Lemma canonical_cexp m e : canonical m e -> cexp_of (IZR m * bpow e) e.
Proof.
  intros (Hm & He & Hhi & Hlo). pose proof (bpow_pos e) as Hb.
  split; [assumption|]. split.
  - rewrite (Z.add_comm e), bpow_add, (bpow_IZR prec) by lia.
    apply IZR_lt in Hhi. nra.
  - intros Hgt. specialize (Hlo Hgt).
    replace (e + prec - 1) with ((prec - 1) + e) by lia.
    rewrite bpow_add, (bpow_IZR (prec - 1)) by lia. apply IZR_le in Hlo. nra.
Qed.

(** A number of the format rounds to itself. *)
Lemma rnd_to_canonical m e : canonical m e -> rnd_to (IZR m * bpow e) (IZR m * bpow e).
Proof.
  intros Hc. exists e, m, loc_Exact.
  split; [apply canonical_cexp; assumption|].
  split; [apply Hc|]. split; reflexivity.
Qed.

Lemma bounded_canonical m e :
  bounded m e = true -> canonical (Z.pos m) e /\ e <= emax - prec.
Proof.
  unfold SpecFloat.bounded, SpecFloat.canonical_mantissa.
  intros H. apply andb_prop in H as [Hc He].
  apply Z.eqb_eq in Hc. apply Z.leb_le in He.
  pose proof (digits2_pos_bounds m) as [Hlo Hhi].
  assert (Hd : 0 < Z.pos (digits2_pos m)) by lia.
  assert (Hdp : Z.pos (digits2_pos m) <= prec) by (unfold_fexp; lia).
  split; [|assumption]. split; [lia|]. split; [unfold_fexp; lia|]. split.
  - apply Z.lt_le_trans with (1 := Hhi). apply Z.pow_le_mono_r; lia.
  - intros Hgt. replace prec with (Z.pos (digits2_pos m)) by (unfold_fexp; lia).
    assumption.
Qed.

Lemma canonical_bounded m e :
  canonical (Z.pos m) e -> e <= emax - prec -> bounded m e = true.
Proof.
  intros (_ & He & Hhi & Hlo) Hmax.
  unfold SpecFloat.bounded, SpecFloat.canonical_mantissa.
  apply andb_true_intro. split; [|apply Z.leb_le; assumption].
  apply Z.eqb_eq.
  assert (Hle : Zdigits2 (Z.pos m) <= prec) by (apply Zdigits2_le; lia).
  change (Z.pos (digits2_pos m)) with (Zdigits2 (Z.pos m)).
  destruct (Z.eq_dec e emin) as [->|Hne].
  - unfold_fexp. lia.
  - assert (Hge : prec - 1 < Zdigits2 (Z.pos m)) by (apply Zdigits2_ge; [lia|apply Hlo; lia]).
    unfold_fexp. lia.
Qed.

(** The value of a number of the format; 0 for what is not a number. *)
Definition SF2R (f : spec_float) : R :=
  match f with
  | S754_finite s m e => if s then (- (IZR (Z.pos m) * bpow e))%R else (IZR (Z.pos m) * bpow e)%R
  | _ => 0%R
  end.

(** [res] holds the rounded magnitude [r] with the sign [sx]: as a zero
    or a number of the format, or as an infinity when [r] is beyond the
    format. *)
Definition rounds_to (sx : bool) (res : spec_float) (r : R) : Prop :=
  match res with
  | S754_zero _ => r = 0%R
  | S754_finite s m e => s = sx /\ r = (IZR (Z.pos m) * bpow e)%R /\ bounded m e = true
  | S754_infinity s => s = sx /\ (bpow emax <= r)%R
  | S754_nan => False
  end.

(** What [binary_round_aux] returns for a number of sign [sx] whose
    magnitude is located at [(m, e, l)], when [e] is not above the
    exponent of the format. *)
Lemma binary_round_aux_spec sx m e l x :
  0 <= m -> inb m e l x -> e <= fexp (Zdigits2 m + e) ->
  exists r, rnd_to x r /\ rounds_to sx (binary_round_aux sx m e l) r.
Proof.
  intros Hm Hx Hpre.
  destruct (shr_fexp_inb m e l x Hm Hx Hpre) as (Hm' & Hx' & He' & Hc).
  unfold rounds_to, SpecFloat.binary_round_aux.
  destruct (shr_fexp m e l) as [mrs' e'] eqn:H1. simpl fst in *. simpl snd in *.
  rewrite <- He' in Hc.
  set (m' := shr_m mrs') in *. set (l' := loc_of_shr_record mrs') in *.
  set (m1 := round_nearest_even m' l').
  destruct (cell_mantissa_bounds x e' m' l' Hc Hm' Hx') as [Hhi Hlo].
  pose proof (round_nearest_even_bounds m' l') as [Hr1 Hr2]. fold m1 in Hr1, Hr2.
  exists (IZR m1 * bpow e')%R. split.
  { exists e', m', l'. repeat split; try assumption; apply Hc. }
  assert (Hemin : emin <= e') by apply Hc.
  (* the second shift *)
  unfold SpecFloat.shr_fexp.
  set (n := fexp (Zdigits2 m1 + e') - e').
  destruct (shr_inb (shr_record_of_loc m1 loc_Exact) e' n (IZR m1 * bpow e')%R)
    as (Hm'' & Hx'' & He''); [simpl; lia|simpl; reflexivity|].
  destruct (shr (shr_record_of_loc m1 loc_Exact) e' n) as [mrs'' e''] eqn:H3.
  simpl fst in *. simpl snd in *.
  apply inb_bounds in Hx''. pose proof (bpow_pos e') as Hb.
  destruct (Z.eq_dec m1 (2 ^ prec)) as [Hcarry|Hnc].
  - (* the rounding carried into a new digit *)
    assert (Hd : Zdigits2 m1 = prec + 1).
    { apply Zdigits2_unique; rewrite Hcarry.
      - apply Z.pow_pos_nonneg; lia.
      - replace (prec + 1 - 1) with prec by lia. split; [lia|].
        apply Z.pow_lt_mono_r; lia. }
    assert (Hn : n = 1) by (unfold n; rewrite Hd; unfold_fexp; lia).
    rewrite Hn in He''. change (Z.max 1 0) with 1 in He''. subst e''.
    rewrite bpow_succ in Hx''.
    assert (Hval : shr_m mrs'' = 2 ^ (prec - 1)).
    { assert (Hp : 2 ^ prec = 2 * 2 ^ (prec - 1)).
      { replace prec with (Z.succ (prec - 1)) at 1 by lia. apply Z.pow_succ_r. lia. }
      assert (Ha : (IZR (2 * shr_m mrs'') <= IZR m1)%R) by (rewrite mult_IZR; nra).
      assert (Hb' : (IZR m1 < IZR (2 * shr_m mrs'' + 2))%R)
        by (rewrite plus_IZR, mult_IZR; nra).
      apply le_IZR in Ha. apply lt_IZR in Hb'. lia. }
    rewrite Hval.
    assert (Hpos : 0 < 2 ^ (prec - 1)) by (apply Z.pow_pos_nonneg; lia).
    destruct (2 ^ (prec - 1)) as [|p|p] eqn:Hp; try lia.
    assert (Hr : (IZR m1 * bpow e' = IZR (Z.pos p) * bpow (e' + 1))%R).
    { rewrite bpow_succ, Hcarry, <- Hp.
      replace prec with (Z.succ (prec - 1)) at 1 by lia.
      rewrite Z.pow_succ_r, mult_IZR by lia. lra. }
    destruct (Z.leb_spec (e' + 1) (emax - prec)) as [Hfit|Hover].
    + split; [reflexivity|]. split; [exact Hr|].
      apply canonical_bounded; [|assumption].
      rewrite <- Hp. repeat split; try lia.
      apply Z.pow_lt_mono_r; lia.
    + split; [reflexivity|]. rewrite Hr, <- Hp, <- (bpow_IZR (prec - 1)), <- bpow_add by lia.
      apply bpow_le. lia.
  - (* no carry: the mantissa is kept *)
    assert (Hlt : m1 < 2 ^ prec) by lia.
    assert (Hn : n <= 0).
    { unfold n. destruct (Z.eq_dec m1 0) as [->|Hne].
      - change (Zdigits2 0) with 0. unfold_fexp. lia.
      - assert (Zdigits2 m1 <= prec) by (apply Zdigits2_le; lia).
        unfold_fexp. lia. }
    replace (Z.max n 0) with 0 in He'' by lia. rewrite Z.add_0_r in He''. subst e''.
    assert (Hval : shr_m mrs'' = m1).
    { assert (Ha : (IZR (shr_m mrs'') <= IZR m1)%R) by nra.
      assert (Hb' : (IZR m1 < IZR (shr_m mrs'' + 1))%R) by (rewrite plus_IZR; nra).
      apply le_IZR in Ha. apply lt_IZR in Hb'. lia. }
    rewrite Hval.
    destruct m1 as [|p|p] eqn:Hm1; try lia.
    + simpl. lra.
    + assert (Hcan : canonical (Z.pos p) e').
      { repeat split; try lia. }
      destruct (Z.leb_spec e' (emax - prec)) as [Hfit|Hover].
      * split; [reflexivity|]. split; [reflexivity|].
        apply canonical_bounded; assumption.
      * split; [reflexivity|].
        assert (Hnorm : 2 ^ (prec - 1) <= Z.pos p) by (unfold_fexp; lia).
        apply IZR_le in Hnorm. rewrite <- (bpow_IZR (prec - 1)) in Hnorm by lia.
        apply Rle_trans with (bpow (prec - 1) * bpow e')%R; [|nra].
        rewrite <- bpow_add. apply bpow_le. lia.
Qed.


Lemma rnd_to_zero : rnd_to 0 0.
Proof.
  assert (Hc : canonical 0 emin).
  { repeat split; try lia. all: apply Z.pow_pos_nonneg; lia. }
  pose proof (rnd_to_canonical 0 emin Hc) as H.
  simpl in H. rewrite Rmult_0_l in H. exact H.
Qed.

(** ** Alignment, and the rounding of an integer times a power of two *)

Lemma pos_iter_xO m d : Z.pos (Pos.iter xO m d) = Z.pos m * 2 ^ Z.pos d.
Proof.
  induction d as [|d IH] using Pos.peano_ind.
  - simpl. lia.
  - rewrite Pos.iter_succ, Pos2Z.inj_xO, IH, Pos2Z.inj_succ, Z.pow_succ_r by lia. lia.
Qed.

Lemma shl_align_spec mx ex ex' :
  snd (shl_align mx ex ex') = Z.min ex ex'
  /\ Z.pos (fst (shl_align mx ex ex')) = Z.pos mx * 2 ^ (ex - Z.min ex ex').
Proof.
  unfold shl_align. destruct (ex' - ex) as [|d|d] eqn:Hd; simpl.
  - replace (Z.min ex ex') with ex by lia. rewrite Z.sub_diag. simpl. lia.
  - replace (Z.min ex ex') with ex by lia. rewrite Z.sub_diag. simpl. lia.
  - replace (Z.min ex ex') with ex' by lia. split; [reflexivity|].
    rewrite pos_iter_xO. replace (ex - ex') with (Z.pos d) by lia. reflexivity.
Qed.

Lemma Zdigits2_shift m k :
  0 < m -> 0 <= k -> Zdigits2 (m * 2 ^ k) = Zdigits2 m + k.
Proof.
  intros Hm Hk. pose proof (Zdigits2_bounds m Hm) as [Hlo Hhi].
  pose proof (Zdigits2_pos m Hm) as Hd.
  assert (Hp : 0 < 2 ^ k) by (apply Z.pow_pos_nonneg; lia).
  apply Zdigits2_unique; [nia|].
  replace (Zdigits2 m + k - 1) with ((Zdigits2 m - 1) + k) by lia.
  rewrite !Z.pow_add_r by lia. nia.
Qed.

Lemma binary_round_spec sx p e :
  exists r, rnd_to (IZR (Z.pos p) * bpow e) r /\ rounds_to sx (binary_round sx p e) r.
Proof.
  unfold SpecFloat.binary_round.
  set (t := fexp (Z.pos (digits2_pos p) + e)).
  destruct (shl_align_spec p e t) as [He Hm].
  destruct (shl_align p e t) as [mz ez]. cbn [fst snd] in He, Hm. subst ez.
  apply binary_round_aux_spec.
  - lia.
  - unfold inb. rewrite Hm, mult_IZR, <- bpow_IZR by lia.
    rewrite Rmult_assoc, <- bpow_add. f_equal. f_equal. lia.
  - rewrite Hm, Zdigits2_shift by lia.
    replace (Zdigits2 (Z.pos p) + (e - Z.min e t) + Z.min e t)
      with (Z.pos (digits2_pos p) + e)
      by (change (Zdigits2 (Z.pos p)) with (Z.pos (digits2_pos p)); lia).
    fold t. lia.
Qed.

(** ** The operations on numbers *)

Definition finite_or_zero (f : spec_float) : Prop :=
  match f with
  | S754_zero _ | S754_finite _ _ _ => True
  | _ => False
  end.

Definition valid (f : spec_float) : Prop := SpecFloat.valid_binary prec emax f = true.

(** [res] is what an operation of exact value [x] returns: the rounded
    magnitude of [x] with the sign of [x]. *)
Definition result_is (res : spec_float) (x : R) : Prop :=
  exists r,
    rnd_to (Rabs x) r
    /\ ((0 <= x)%R /\ rounds_to false res r \/ (x <= 0)%R /\ rounds_to true res r).

Lemma result_is_zero s x : x = 0%R -> result_is (S754_zero s) x.
Proof.
  intros ->. exists 0%R. rewrite Rabs_R0. split; [apply rnd_to_zero|].
  left. split; [lra|reflexivity].
Qed.

Lemma magnitude_pos m e : (0 < IZR (Z.pos m) * bpow e)%R.
Proof.
  pose proof (bpow_pos e). assert (0 < IZR (Z.pos m))%R by (apply IZR_lt; lia). nra.
Qed.

(** A number of the format is the result for its own value. *)
Lemma result_is_exact s m e x :
  bounded m e = true -> x = SF2R (S754_finite s m e) -> result_is (S754_finite s m e) x.
Proof.
  intros Hb ->. pose proof (magnitude_pos m e) as Hp.
  exists (IZR (Z.pos m) * bpow e)%R. split.
  - replace (Rabs (SF2R (S754_finite s m e))) with (IZR (Z.pos m) * bpow e)%R.
    + apply rnd_to_canonical, bounded_canonical, Hb.
    + unfold SF2R. destruct s; [rewrite Rabs_Ropp|]; rewrite Rabs_pos_eq; lra.
  - unfold SF2R. destruct s; [right|left]; (split; [lra|]); repeat split; assumption.
Qed.

(** From a sign and a rounded magnitude to the result for a value. *)
Lemma result_is_signed sx res x M :
  (exists r, rnd_to M r /\ rounds_to sx res r) ->
  (0 <= M)%R -> x = (if sx then (- M)%R else M) -> result_is res x.
Proof.
  intros (r & Hr & Hres) HM ->. exists r. destruct sx.
  - rewrite Rabs_Ropp, Rabs_pos_eq by assumption. split; [assumption|].
    right. split; [lra|assumption].
  - rewrite Rabs_pos_eq by assumption. split; [assumption|].
    left. split; assumption.
Qed.

Lemma binary_normalize_spec z e szero :
  result_is (binary_normalize z e szero) (IZR z * bpow e).
Proof.
  destruct z as [|p|p]; unfold SpecFloat.binary_normalize.
  - apply result_is_zero. simpl. lra.
  - pose proof (magnitude_pos p e).
    apply (result_is_signed false _ _ (IZR (Z.pos p) * bpow e)); [|lra|reflexivity].
    apply binary_round_spec.
  - pose proof (magnitude_pos p e).
    apply (result_is_signed true _ _ (IZR (Z.pos p) * bpow e)); [|lra|].
    + apply binary_round_spec.
    + change (Z.neg p) with (- Z.pos p). rewrite opp_IZR. ring.
Qed.

Lemma emin_nonpos : emin <= 0.
Proof. unfold_fexp. lia. Qed.

Lemma SFmul_spec f1 f2 :
  finite_or_zero f1 -> finite_or_zero f2 -> valid f1 -> valid f2 ->
  result_is (SFmul prec emax f1 f2) (SF2R f1 * SF2R f2).
Proof.
  intros H1 H2 V1 V2.
  destruct f1 as [s1|s1| |s1 m1 e1]; try contradiction;
    destruct f2 as [s2|s2| |s2 m2 e2]; try contradiction;
    try (apply result_is_zero; unfold SF2R; ring).
  pose proof (magnitude_pos (m1 * m2) (e1 + e2)) as Hp.
  unfold SFmul.
  apply (result_is_signed (xorb s1 s2) _ _ (IZR (Z.pos (m1 * m2)) * bpow (e1 + e2))); [|lra|].
  2:{ unfold SF2R. rewrite Pos2Z.inj_mul, mult_IZR, bpow_add.
      destruct s1, s2; simpl xorb; cbv iota; ring. }
  apply binary_round_aux_spec; [lia|reflexivity|].
  apply bounded_canonical in V1 as [(_ & He1 & Hh1 & Hl1) _].
  apply bounded_canonical in V2 as [(_ & He2 & Hh2 & Hl2) _].
  pose proof (digits2_pos_bounds m1) as [Hlo1 _].
  pose proof (digits2_pos_bounds m2) as [Hlo2 _].
  set (d1 := Z.pos (digits2_pos m1)) in *. set (d2 := Z.pos (digits2_pos m2)) in *.
  assert (Hd1 : 0 < d1) by (unfold d1; lia). assert (Hd2 : 0 < d2) by (unfold d2; lia).
  assert (HD : d1 + d2 - 2 < Zdigits2 (Z.pos (m1 * m2))).
  { apply Zdigits2_ge; [lia|].
    replace (d1 + d2 - 2) with ((d1 - 1) + (d2 - 1)) by lia.
    rewrite Z.pow_add_r, Pos2Z.inj_mul by lia.
    apply Z.mul_le_mono_nonneg; try assumption; apply Z.pow_nonneg; lia. }
  pose proof emin_nonpos as Hemin.
  destruct (Z.eq_dec e1 emin) as [E1|N1].
  - destruct (Z.eq_dec e2 emin) as [E2|N2].
    + unfold_fexp. lia.
    + assert (prec - 1 < d2) by (apply (Zdigits2_ge (Z.pos m2)); [lia|apply Hl2; lia]).
      unfold_fexp. lia.
  - assert (prec - 1 < d1) by (apply (Zdigits2_ge (Z.pos m1)); [lia|apply Hl1; lia]).
    unfold_fexp. lia.
Qed.

Lemma SFsub_spec f1 f2 :
  finite_or_zero f1 -> finite_or_zero f2 -> valid f1 -> valid f2 ->
  result_is (SFsub prec emax f1 f2) (SF2R f1 - SF2R f2).
Proof.
  intros H1 H2 V1 V2.
  destruct f1 as [s1|s1| |s1 m1 e1]; try contradiction;
    destruct f2 as [s2|s2| |s2 m2 e2]; try contradiction.
  - assert (Hz : (SF2R (S754_zero s1) - SF2R (S754_zero s2) = 0)%R) by (unfold SF2R; ring).
    unfold SFsub. destruct s1, s2; apply result_is_zero; exact Hz.
  - unfold SFsub. apply result_is_exact; [exact V2|].
    unfold SF2R. destruct s2; simpl negb; cbv iota; ring.
  - unfold SFsub. apply result_is_exact; [exact V1|].
    unfold SF2R. destruct s1; ring.
  - unfold SFsub.
    set (ez := Z.min e1 e2).
    destruct (shl_align_spec m1 e1 ez) as [_ Hm1].
    destruct (shl_align_spec m2 e2 ez) as [_ Hm2].
    replace (Z.min e1 ez) with ez in Hm1 by lia.
    replace (Z.min e2 ez) with ez in Hm2 by lia.
    rewrite Hm1, Hm2.
    replace (SF2R (S754_finite s1 m1 e1) - SF2R (S754_finite s2 m2 e2))%R
      with (IZR (cond_Zopp s1 (Z.pos m1 * 2 ^ (e1 - ez))
                 - cond_Zopp s2 (Z.pos m2 * 2 ^ (e2 - ez))) * bpow ez)%R.
    { apply binary_normalize_spec. }
    assert (A1 : (IZR (Z.pos m1 * 2 ^ (e1 - ez)) * bpow ez = IZR (Z.pos m1) * bpow e1)%R).
    { rewrite mult_IZR, <- (bpow_IZR (e1 - ez)), Rmult_assoc, <- bpow_add by lia.
      f_equal. f_equal. lia. }
    assert (A2 : (IZR (Z.pos m2 * 2 ^ (e2 - ez)) * bpow ez = IZR (Z.pos m2) * bpow e2)%R).
    { rewrite mult_IZR, <- (bpow_IZR (e2 - ez)), Rmult_assoc, <- bpow_add by lia.
      f_equal. f_equal. lia. }
    unfold SF2R. rewrite minus_IZR, Rmult_minus_distr_r.
    destruct s1, s2; unfold cond_Zopp; rewrite ?opp_IZR, ?Ropp_mult_distr_l_reverse, A1, A2; ring.
Qed.


Lemma new_location_inb nb k q e x :
  0 < nb -> 0 <= k < nb ->
  x = ((IZR q + IZR k / IZR nb) * bpow e)%R ->
  inb q e (new_location nb k) x.
Proof.
  intros Hnb Hk ->. pose proof (bpow_pos e) as Hb.
  assert (Hnb' : (0 < IZR nb)%R) by (apply IZR_lt; lia).
  assert (Hfrac : forall c : R, (IZR k / IZR nb < c <-> IZR k < c * IZR nb)%R).
  { intros c. split; intros H.
    - apply (Rmult_lt_compat_r (IZR nb)) in H; [|lra]. unfold Rdiv in H.
      rewrite Rmult_assoc, Rinv_l in H by lra. lra.
    - apply (Rmult_lt_reg_r (IZR nb)); [lra|]. unfold Rdiv.
      rewrite Rmult_assoc, Rinv_l by lra. lra. }
  assert (Hfrac' : forall c : R, (c < IZR k / IZR nb <-> c * IZR nb < IZR k)%R).
  { intros c. split; intros H.
    - apply (Rmult_lt_compat_r (IZR nb)) in H; [|lra]. unfold Rdiv in H.
      rewrite Rmult_assoc, Rinv_l in H by lra. lra.
    - apply (Rmult_lt_reg_r (IZR nb)); [lra|]. unfold Rdiv.
      rewrite Rmult_assoc, Rinv_l by lra. lra. }
  assert (Hk0 : k <> 0 -> (0 < IZR k / IZR nb)%R).
  { intros Hne. apply Hfrac'. rewrite Rmult_0_l. apply IZR_lt. lia. }
  assert (Hk1 : (IZR k / IZR nb < 1)%R).
  { apply Hfrac. rewrite Rmult_1_l. apply IZR_lt. lia. }
  unfold new_location, new_location_even, new_location_odd.
  destruct (Z.even nb) eqn:Hev; destruct (Z.eqb_spec k 0) as [->|Hne].
  - unfold inb, Rdiv. rewrite Rmult_0_l, Rplus_0_r. reflexivity.
  - specialize (Hk0 Hne). destruct (Z.compare_spec (2 * k) nb) as [Heq|Hlt|Hgt]; unfold inb.
    + f_equal. f_equal. apply (Rmult_eq_reg_r (IZR nb)); [|lra].
      unfold Rdiv. rewrite Rmult_assoc, Rinv_l by lra.
      rewrite <- Heq, mult_IZR. lra.
    + assert (IZR k / IZR nb < / 2)%R.
      { apply Hfrac. apply IZR_lt in Hlt. rewrite mult_IZR in Hlt. lra. }
      nra.
    + assert (/ 2 < IZR k / IZR nb)%R.
      { apply Hfrac'. apply IZR_lt in Hgt. rewrite mult_IZR in Hgt. lra. }
      nra.
  - unfold inb, Rdiv. rewrite Rmult_0_l, Rplus_0_r. reflexivity.
  - specialize (Hk0 Hne).
    assert (Hodd : 2 * k <> nb).
    { intros <-. rewrite Z.even_mul in Hev. discriminate. }
    destruct (Z.compare_spec (2 * k + 1) nb) as [Heq|Hlt|Hgt]; unfold inb.
    + assert (IZR k / IZR nb < / 2)%R.
      { apply Hfrac. assert (H : (IZR (2 * k) < IZR nb)%R) by (apply IZR_lt; lia).
        rewrite mult_IZR in H. lra. }
      nra.
    + assert (IZR k / IZR nb < / 2)%R.
      { apply Hfrac. assert (H : (IZR (2 * k) < IZR nb)%R) by (apply IZR_lt; lia).
        rewrite mult_IZR in H. lra. }
      nra.
    + assert (/ 2 < IZR k / IZR nb)%R.
      { apply Hfrac'. assert (H : (IZR nb < IZR (2 * k))%R) by (apply IZR_lt; lia).
        rewrite mult_IZR in H. lra. }
      nra.
Qed.

Lemma SFdiv_core_spec sx m1 e1 m2 e2 :
  exists r,
    rnd_to (IZR (Z.pos m1) * bpow e1 / (IZR (Z.pos m2) * bpow e2)) r
    /\ rounds_to sx
         (let '(mz, ez, lz) := SFdiv_core_binary prec emax (Z.pos m1) e1 (Z.pos m2) e2 in
          binary_round_aux sx mz ez lz) r.
Proof.
  unfold SFdiv_core_binary.
  set (d1 := Zdigits2 (Z.pos m1)). set (d2 := Zdigits2 (Z.pos m2)).
  set (K := d1 + e1 - (d2 + e2)).
  set (e' := Z.min (fexp K) (e1 - e2)).
  set (s := e1 - e2 - e').
  assert (Hs : 0 <= s) by (unfold s, e'; lia).
  set (m' := match s with Z.pos _ => Z.shiftl (Z.pos m1) s | 0 => Z.pos m1 | Z.neg _ => 0 end).
  assert (Hm' : m' = Z.pos m1 * 2 ^ s).
  { unfold m'. destruct s as [|p|p] eqn:Es; try lia.
    apply Z.shiftl_mul_pow2. lia. }
  pose proof (Z_div_mod m' (Z.pos m2) eq_refl) as Hdiv.
  destruct (Z.div_eucl m' (Z.pos m2)) as [q r]. destruct Hdiv as [Hq Hr].
  assert (Hp2 : 0 < 2 ^ s) by (apply Z.pow_pos_nonneg; lia).
  assert (Hq0 : 0 <= q) by nia.
  pose proof (Zdigits2_bounds (Z.pos m1) eq_refl) as [Hlo1 Hhi1]. fold d1 in Hlo1, Hhi1.
  pose proof (Zdigits2_bounds (Z.pos m2) eq_refl) as [Hlo2 Hhi2]. fold d2 in Hlo2, Hhi2.
  assert (Hd1 : 0 < d1) by (apply Zdigits2_pos; lia).
  assert (Hd2 : 0 < d2) by (apply Zdigits2_pos; lia).
  apply binary_round_aux_spec; [assumption| |].
  - apply new_location_inb; [lia|assumption|].
    assert (Hm2 : (0 < IZR (Z.pos m2))%R) by (apply IZR_lt; lia).
    pose proof (bpow_pos e2) as Hb2. pose proof (bpow_pos e') as Hb'.
    replace e1 with (s + (e' + e2)) by (unfold s; lia).
    rewrite !bpow_add.
    assert (HR : (IZR (Z.pos m1) * bpow s = IZR (Z.pos m2) * IZR q + IZR r)%R).
    { rewrite (bpow_IZR s), <- mult_IZR, <- Hm', Hq, plus_IZR, mult_IZR by lia. reflexivity. }
    replace (IZR (Z.pos m1) * (bpow s * (bpow e' * bpow e2)))%R
      with ((IZR (Z.pos m2) * IZR q + IZR r) * bpow e' * bpow e2)%R
      by (rewrite <- HR; ring).
    field. split; lra.
  - destruct (Z.eq_dec q 0) as [->|Hqne].
    + change (Zdigits2 0) with 0. rewrite Z.add_0_l.
      assert (Hlt : m' < Z.pos m2) by lia.
      assert (Hpow : 2 ^ (d1 - 1 + s) < 2 ^ d2).
      { rewrite Z.pow_add_r by lia. nia. }
      apply Z.pow_lt_mono_r_iff in Hpow; [|lia|lia].
      assert (HK : K <= e') by (unfold K, s in *; lia).
      unfold e' in *. unfold_fexp. lia.
    + assert (Hqpos : 0 < q) by lia.
      assert (HD : K - e' <= Zdigits2 q).
      { pose proof (Zdigits2_pos q Hqpos) as Hdq.
        destruct (Z.le_gt_cases (d1 + s - d2) 0) as [Hsmall|Hbig].
        - unfold K, s in *. lia.
        - assert (d1 - 1 + s - d2 < Zdigits2 q); [|unfold K, s in *; lia].
          apply Zdigits2_ge; [assumption|].
          assert (Hpw : 2 ^ (d1 - 1 + s) = 2 ^ (d1 - 1 + s - d2) * 2 ^ d2).
          { rewrite <- Z.pow_add_r by lia. f_equal. lia. }
          assert (Hm1s : 2 ^ (d1 - 1 + s) <= m').
          { rewrite Hm', Z.pow_add_r by lia. nia. }
          assert (Hpp : 0 < 2 ^ (d1 - 1 + s - d2)) by (apply Z.pow_pos_nonneg; lia).
          nia. }
      assert (Hmono : fexp K <= fexp (Zdigits2 q + e')) by (unfold_fexp; lia).
      unfold e' in *. lia.
Qed.

Lemma SFdiv_spec f1 s2 m2 e2 :
  finite_or_zero f1 ->
  result_is (SFdiv prec emax f1 (S754_finite s2 m2 e2))
    (SF2R f1 / SF2R (S754_finite s2 m2 e2)).
Proof.
  intros H1.
  destruct f1 as [s1|s1| |s1 m1 e1]; try contradiction.
  { apply result_is_zero. unfold Rdiv. change (SF2R (S754_zero s1)) with 0%R. apply Rmult_0_l. }
  unfold SFdiv.
  pose proof (magnitude_pos m1 e1) as Hp1. pose proof (magnitude_pos m2 e2) as Hp2.
  apply (result_is_signed (xorb s1 s2) _ _
           (IZR (Z.pos m1) * bpow e1 / (IZR (Z.pos m2) * bpow e2))).
  - apply SFdiv_core_spec.
  - apply Rlt_le, Rdiv_lt_0_compat; assumption.
  - pose proof (bpow_pos e2). assert (0 < IZR (Z.pos m2))%R by (apply IZR_lt; lia).
    unfold SF2R. destruct s1, s2; simpl xorb; cbv iota; field; split; lra.
Qed.

End Format.

(** ** Binary64 and the primitive floats *)

Lemma prec_pos : 0 < prec.
Proof. reflexivity. Qed.

Lemma prec_lt_emax : prec < emax.
Proof. reflexivity. Qed.

Ltac format := first [exact prec_pos | exact prec_lt_emax].

Abbreviation rnd := (rnd_to prec emax).
Abbreviation result := (result_is prec emax).

(** The value of a float (0 for an infinity or NaN), and the floats
    that are numbers. *)
Definition B2R (x : float) : R := SF2R (Prim2SF x).

Definition finite (x : float) : Prop := finite_or_zero (Prim2SF x).

Lemma valid_Prim2SF x : valid prec emax (Prim2SF x).
Proof. apply Prim2SF_valid. Qed.

Lemma rnd_zero : rnd 0 0.
Proof. apply rnd_to_zero; format. Qed.

Lemma rnd_mono x y rx ry : (x <= y)%R -> rnd x rx -> rnd y ry -> (rx <= ry)%R.
Proof. apply rnd_to_mono; format. Qed.

Lemma rnd_nonneg x r : (0 <= x)%R -> rnd x r -> (0 <= r)%R.
Proof. intros Hx Hr. exact (rnd_mono 0 x 0 r Hx rnd_zero Hr). Qed.

Lemma rnd_zero_inv r : rnd 0 r -> r = 0%R.
Proof.
  intros Hr. apply Rle_antisym.
  - exact (rnd_mono 0 0 r 0 (Rle_refl 0) Hr rnd_zero).
  - exact (rnd_mono 0 0 0 r (Rle_refl 0) rnd_zero Hr).
Qed.

(** Rounding of a number of either sign: the magnitude is rounded and
    the sign is kept. *)
Definition srnd (x v : R) : Prop :=
  ((0 <= x)%R /\ rnd x v) \/ ((x <= 0)%R /\ rnd (- x) (- v)).

Lemma srnd_zero : srnd 0 0.
Proof. left. split; [lra|exact rnd_zero]. Qed.

(** Rounding is monotone on numbers of either sign. *)
Lemma srnd_mono x y u v : (x <= y)%R -> srnd x u -> srnd y v -> (u <= v)%R.
Proof.
  intros Hxy [[Hx Hu]|[Hx Hu]] [[Hy Hv]|[Hy Hv]].
  - exact (rnd_mono x y u v Hxy Hu Hv).
  - assert (Hx0 : x = 0%R) by lra. assert (Hy0 : y = 0%R) by lra. subst x y.
    rewrite Ropp_0 in Hv. apply rnd_zero_inv in Hu, Hv. lra.
  - assert (0 <= - u)%R by (apply (rnd_nonneg (- x)); [lra|exact Hu]).
    pose proof (rnd_nonneg _ _ Hy Hv). lra.
  - pose proof (rnd_mono (- y) (- x) (- v) (- u) ltac:(lra) Hv Hu). lra.
Qed.

Lemma srnd_nonneg x v : (0 <= x)%R -> srnd x v -> (0 <= v)%R.
Proof. intros Hx Hv. exact (srnd_mono 0 x 0 v Hx srnd_zero Hv). Qed.

Lemma srnd_nonpos x v : (x <= 0)%R -> srnd x v -> (v <= 0)%R.
Proof. intros Hx Hv. exact (srnd_mono x 0 v 0 Hx Hv srnd_zero). Qed.

(** The value of a result that is a number is the rounding of the exact
    value. *)
Lemma result_srnd res x : result res x -> finite_or_zero res -> srnd x (SF2R res).
Proof.
  intros (r & Hr & Hres) Hfin.
  destruct res as [s|s| |s m e]; try contradiction; unfold rounds_to in Hres.
  - change (SF2R (S754_zero s)) with 0%R.
    assert (Hr0 : r = 0%R) by (destruct Hres as [[_ H]|[_ H]]; exact H). subst r.
    destruct (Rle_dec 0 x) as [Hx|Hx].
    + left. rewrite Rabs_pos_eq in Hr by assumption. split; assumption.
    + right. rewrite Rabs_left in Hr by lra. rewrite Ropp_0. split; [lra|assumption].
  - destruct Hres as [[Hx (-> & -> & _)]|[Hx (-> & -> & _)]]; unfold SF2R.
    + left. rewrite Rabs_pos_eq in Hr by assumption. split; assumption.
    + right. rewrite Rabs_left1 in Hr by assumption. rewrite Ropp_involutive.
      split; assumption.
Qed.

(** A result whose exact value is within a number of the format is a
    number. *)
Lemma result_finite res x M :
  result res x -> rnd M M -> (Rabs x <= M)%R -> (M < bpow emax)%R -> finite_or_zero res.
Proof.
  intros (r & Hr & Hres) HM Hle Hmax.
  pose proof (rnd_mono _ _ _ _ Hle Hr HM) as Hrm.
  destruct res as [s|s| |s m e]; try exact I; unfold rounds_to in Hres.
  - destruct Hres as [[_ [_ H]]|[_ [_ H]]]; lra.
  - destruct Hres as [[_ H]|[_ H]]; contradiction.
Qed.

Lemma result_B2R x : finite x -> result (Prim2SF x) (B2R x).
Proof.
  unfold finite, B2R. pose proof (valid_Prim2SF x) as V.
  destruct (Prim2SF x) as [s|s| |s m e]; try contradiction; intros _.
  - apply result_is_zero; try format. reflexivity.
  - apply result_is_exact; try format; [exact V|reflexivity].
Qed.

Lemma srnd_B2R x : finite x -> srnd (B2R x) (B2R x).
Proof. intros Hx. apply result_srnd; [apply result_B2R|]; exact Hx. Qed.

(** The magnitude of a number of the format is one, below [2 ^ emax]. *)
Lemma rnd_abs_B2R x : finite x -> rnd (Rabs (B2R x)) (Rabs (B2R x)).
Proof.
  unfold finite, B2R. pose proof (valid_Prim2SF x) as V.
  destruct (Prim2SF x) as [s|s| |s m e]; try contradiction; intros _.
  - change (SF2R (S754_zero s)) with 0%R. rewrite Rabs_R0. exact rnd_zero.
  - pose proof (magnitude_pos m e) as Hp.
    replace (Rabs (SF2R (S754_finite s m e))) with (IZR (Z.pos m) * bpow e)%R.
    + apply rnd_to_canonical; try format.
      exact (proj1 (bounded_canonical prec emax m e V)).
    + unfold SF2R. destruct s; [rewrite Rabs_Ropp|]; rewrite Rabs_pos_eq; lra.
Qed.

Lemma abs_B2R_lt_emax x : (Rabs (B2R x) < bpow emax)%R.
Proof.
  unfold B2R. pose proof (valid_Prim2SF x) as V.
  destruct (Prim2SF x) as [s|s| |s m e];
    try (change (Rabs 0 < bpow emax)%R; rewrite Rabs_R0; apply bpow_pos).
  pose proof (magnitude_pos m e) as Hp.
  replace (Rabs (SF2R (S754_finite s m e))) with (IZR (Z.pos m) * bpow e)%R
    by (unfold SF2R; destruct s; [rewrite Rabs_Ropp|]; rewrite Rabs_pos_eq; lra).
  apply bounded_canonical in V as [(_ & _ & Hhi & _) He].
  apply IZR_lt in Hhi. rewrite <- (bpow_IZR prec) in Hhi by (pose proof prec_pos; lia).
  pose proof (bpow_pos e).
  apply Rlt_le_trans with (bpow prec * bpow e)%R; [nra|].
  rewrite <- bpow_add. apply bpow_le. lia.
Qed.

(** ** The operations of the primitive floats *)

Lemma mul_step x y : finite x -> finite y -> result (Prim2SF (x * y)) (B2R x * B2R y).
Proof.
  intros Hx Hy. rewrite mul_spec.
  apply SFmul_spec; try format; try assumption; apply valid_Prim2SF.
Qed.

Lemma sub_step x y : finite x -> finite y -> result (Prim2SF (x - y)) (B2R x - B2R y).
Proof.
  intros Hx Hy. rewrite sub_spec.
  apply SFsub_spec; try format; try assumption; apply valid_Prim2SF.
Qed.

Lemma div_step x y s m e :
  finite x -> Prim2SF y = S754_finite s m e -> result (Prim2SF (x / y)) (B2R x / B2R y).
Proof.
  intros Hx Hy. rewrite div_spec. unfold B2R. rewrite Hy.
  apply SFdiv_spec; try format. assumption.
Qed.

(** An operation on what is not a number does not give a number. *)
Lemma mul_finite_inv x y : finite (x * y) -> finite x /\ finite y.
Proof.
  unfold finite. rewrite mul_spec.
  destruct (Prim2SF x) as [s1|s1| |s1 m1 e1], (Prim2SF y) as [s2|s2| |s2 m2 e2];
    try (intros _; split; exact I); intros H; simpl in H; contradiction.
Qed.

Lemma sub_finite_inv x y : finite (x - y) -> finite x /\ finite y.
Proof.
  unfold finite. rewrite sub_spec.
  destruct (Prim2SF x) as [s1|s1| |s1 m1 e1], (Prim2SF y) as [s2|s2| |s2 m2 e2];
    try (intros _; split; exact I); intros H; simpl in H;
    try contradiction; destruct s1, s2; contradiction.
Qed.

Lemma div_finite_inv x y s m e :
  Prim2SF y = S754_finite s m e -> finite (x / y) -> finite x.
Proof.
  unfold finite. rewrite div_spec. intros ->.
  destruct (Prim2SF x) as [s1|s1| |s1 m1 e1];
    try (intros _; exact I); intros H; simpl in H; contradiction.
Qed.

Lemma B2R_100 : B2R 100 = 100%R.
Proof.
  unfold B2R. change (Prim2SF 100) with (S754_finite false 7036874417766400 (-46)).
  unfold SF2R.
  assert (H : (bpow (-46) * bpow 46 = 1)%R) by (rewrite <- bpow_add; reflexivity).
  rewrite (bpow_IZR 46) in H by lia. change (2 ^ 46) with 70368744177664 in H. lra.
Qed.

Lemma B2R_1 : B2R 1 = 1%R.
Proof.
  unfold B2R. change (Prim2SF 1) with (S754_finite false 4503599627370496 (-52)).
  unfold SF2R.
  assert (H : (bpow (-52) * bpow 52 = 1)%R) by (rewrite <- bpow_add; reflexivity).
  rewrite (bpow_IZR 52) in H by lia. change (2 ^ 52) with 4503599627370496 in H. lra.
Qed.

Lemma B2R_0 : B2R 0 = 0%R.
Proof. reflexivity. Qed.


(** ** The order of floats and the order of their values *)

Lemma canonical_lt_exp m1 e1 m2 e2 :
  canonical prec emax (Z.pos m1) e1 -> canonical prec emax (Z.pos m2) e2 ->
  e1 < e2 -> (IZR (Z.pos m1) * bpow e1 < IZR (Z.pos m2) * bpow e2)%R.
Proof.
  intros (_ & He1 & Hh1 & _) (_ & _ & _ & Hl2) Hlt.
  pose proof prec_pos as Hp.
  assert (Hn : 2 ^ (prec - 1) <= Z.pos m2) by (apply Hl2; lia).
  apply IZR_le in Hn. rewrite <- (bpow_IZR (prec - 1)) in Hn by lia.
  apply IZR_lt in Hh1. rewrite <- (bpow_IZR prec) in Hh1 by lia.
  pose proof (bpow_pos e1). pose proof (bpow_pos e2).
  apply Rlt_le_trans with (bpow prec * bpow e1)%R; [nra|].
  apply Rle_trans with (bpow (prec - 1) * bpow e2)%R; [|nra].
  rewrite <- !bpow_add. apply bpow_le. lia.
Qed.

(** The order of two magnitudes of the format is read on the exponents,
    then on the mantissas. *)
Lemma magnitude_compare m1 e1 m2 e2 :
  canonical prec emax (Z.pos m1) e1 -> canonical prec emax (Z.pos m2) e2 ->
  match (match e1 ?= e2 with Eq => Pos.compare_cont Eq m1 m2 | c => c end) with
  | Lt => (IZR (Z.pos m1) * bpow e1 < IZR (Z.pos m2) * bpow e2)%R
  | Eq => (IZR (Z.pos m1) * bpow e1 = IZR (Z.pos m2) * bpow e2)%R
  | Gt => (IZR (Z.pos m2) * bpow e2 < IZR (Z.pos m1) * bpow e1)%R
  end.
Proof.
  intros C1 C2.
  destruct (Z.compare_spec e1 e2) as [->|Hlt|Hgt].
  - change (Pos.compare_cont Eq m1 m2) with (Pos.compare m1 m2).
    destruct (Pos.compare_spec m1 m2) as [->|Hm|Hm].
    + reflexivity.
    + apply Rmult_lt_compat_r; [apply bpow_pos|apply IZR_lt; lia].
    + apply Rmult_lt_compat_r; [apply bpow_pos|apply IZR_lt; lia].
  - apply canonical_lt_exp; assumption.
  - apply canonical_lt_exp; assumption || lia.
Qed.

Lemma SFcompare_value f1 f2 c :
  finite_or_zero f1 -> finite_or_zero f2 -> valid prec emax f1 -> valid prec emax f2 ->
  SFcompare f1 f2 = Some c ->
  match c with
  | Lt => (SF2R f1 < SF2R f2)%R
  | Eq => SF2R f1 = SF2R f2
  | Gt => (SF2R f2 < SF2R f1)%R
  end.
Proof.
  intros H1 H2 V1 V2.
  destruct f1 as [s1|s1| |s1 m1 e1]; try contradiction;
    destruct f2 as [s2|s2| |s2 m2 e2]; try contradiction;
    unfold SFcompare, SF2R.
  - intros [= <-]. reflexivity.
  - pose proof (magnitude_pos m2 e2). destruct s2; intros [= <-]; lra.
  - pose proof (magnitude_pos m1 e1). destruct s1; intros [= <-]; lra.
  - apply bounded_canonical in V1 as [C1 _]. apply bounded_canonical in V2 as [C2 _].
    pose proof (magnitude_compare m1 e1 m2 e2 C1 C2) as Hc.
    pose proof (magnitude_pos m1 e1). pose proof (magnitude_pos m2 e2).
    set (M1 := (IZR (Z.pos m1) * bpow e1)%R) in *.
    set (M2 := (IZR (Z.pos m2) * bpow e2)%R) in *.
    destruct s1, s2; destruct (e1 ?= e2); try destruct (Pos.compare_cont Eq m1 m2);
      intros [= <-]; cbv beta iota delta [CompOpp]; lra.
Qed.

Lemma ltb_value x y : finite x -> finite y -> (x <? y)%float = true -> (B2R x < B2R y)%R.
Proof.
  intros Hx Hy. rewrite FloatAxioms.ltb_spec. unfold SFltb.
  destruct (SFcompare (Prim2SF x) (Prim2SF y)) as [[]|] eqn:Hc; try discriminate.
  intros _. exact (SFcompare_value _ _ _ Hx Hy (valid_Prim2SF x) (valid_Prim2SF y) Hc).
Qed.

Lemma leb_value x y : finite x -> finite y -> (x <=? y)%float = true -> (B2R x <= B2R y)%R.
Proof.
  intros Hx Hy. rewrite FloatAxioms.leb_spec. unfold SFleb.
  destruct (SFcompare (Prim2SF x) (Prim2SF y)) as [[]|] eqn:Hc; try discriminate; intros _;
    pose proof (SFcompare_value _ _ _ Hx Hy (valid_Prim2SF x) (valid_Prim2SF y) Hc) as H;
    simpl in H; unfold B2R; lra.
Qed.

(** Floats between two numbers are numbers. *)
Lemma between_finite x y lo hi :
  (lo <=? x)%float = true -> (x <? y)%float = true -> (y <=? hi)%float = true ->
  finite lo -> finite hi -> finite x /\ finite y.
Proof.
  unfold finite.
  rewrite FloatAxioms.leb_spec, FloatAxioms.ltb_spec, FloatAxioms.leb_spec.
  unfold SFleb, SFltb.
  destruct (Prim2SF lo) as [sl|sl| |sl ml el]; try contradiction;
    destruct (Prim2SF hi) as [sh|sh| |sh mh eh]; try contradiction;
    destruct (Prim2SF x) as [sx|sx| |sx mx ex], (Prim2SF y) as [sy|sy| |sy my ey];
    try (intros _ _ _ _ _; split; exact I);
    unfold SFcompare; simpl finite_or_zero;
    try destruct sl; try destruct sh; try destruct sx; try destruct sy;
    try discriminate; intros; exfalso; discriminate.
Qed.

End Binary64.

(** ** The slippage computation *)

Module KumbayaFacts.
Import Binary64.

(** [int(x)] returns only for a number. *)
Lemma int_of_float_finite x z : Py.int_of_float x = Py.Ok z -> finite x.
Proof.
  unfold Py.int_of_float, finite.
  destruct (Prim2SF x); try discriminate; intros _; exact I.
Qed.

(** The shift of a mantissa by its exponent is the integer part of the
    magnitude. *)
Lemma shiftl_trunc m e :
  (IZR (Z.shiftl (Z.pos m) e) <= IZR (Z.pos m) * bpow e < IZR (Z.shiftl (Z.pos m) e) + 1)%R.
Proof.
  destruct (Z.le_gt_cases 0 e) as [He|He].
  - rewrite Z.shiftl_mul_pow2, mult_IZR, <- (bpow_IZR e) by lia. lra.
  - rewrite Z.shiftl_div_pow2 by lia.
    assert (Hp : 0 < 2 ^ (- e)) by (apply Z.pow_pos_nonneg; lia).
    pose proof (Z.mul_div_le (Z.pos m) (2 ^ (- e)) Hp) as Hlo.
    pose proof (Z.mul_succ_div_gt (Z.pos m) (2 ^ (- e)) Hp) as Hhi.
    apply IZR_le in Hlo. apply IZR_lt in Hhi.
    rewrite mult_IZR in Hlo, Hhi. rewrite succ_IZR in Hhi.
    rewrite <- (bpow_IZR (- e)) in Hlo, Hhi by lia.
    assert (Hb : (bpow e * bpow (- e) = 1)%R) by (rewrite <- bpow_add, Z.add_opp_diag_r; reflexivity).
    pose proof (bpow_pos e) as Hpe. pose proof (bpow_pos (- e)) as Hpne.
    set (q := IZR (Z.pos m / 2 ^ (- e))) in *. set (M := IZR (Z.pos m)) in *.
    split.
    + replace q with (bpow e * (bpow (- e) * q))%R by (rewrite <- Rmult_assoc, Hb; ring).
      rewrite (Rmult_comm M). apply Rmult_le_compat_l; lra.
    + replace (q + 1)%R with (bpow e * (bpow (- e) * (q + 1)))%R
        by (rewrite <- Rmult_assoc, Hb; ring).
      rewrite (Rmult_comm M). apply Rmult_lt_compat_l; lra.
Qed.

(** [int(x)] of a number: its value, truncated toward zero. *)
Lemma int_of_float_trunc x :
  finite x ->
  exists z, Py.int_of_float x = Py.Ok z
    /\ ((0 <= B2R x)%R -> (IZR z <= B2R x < IZR z + 1)%R)
    /\ ((B2R x <= 0)%R -> (IZR z - 1 < B2R x <= IZR z)%R).
Proof.
  unfold Py.int_of_float, finite, B2R.
  destruct (Prim2SF x) as [s|s| |s m e]; try contradiction; intros _.
  - exists 0. split; [reflexivity|]. change (SF2R (S754_zero s)) with 0%R. split; intros _; lra.
  - exists (cond_Zopp s (Z.shiftl (Z.pos m) e)). split; [reflexivity|].
    pose proof (shiftl_trunc m e) as Ht. pose proof (magnitude_pos m e) as Hp.
    unfold SF2R. destruct s; unfold cond_Zopp; rewrite ?opp_IZR; split; intros H; lra.
Qed.

(** Truncation toward zero is monotone. *)
Lemma int_of_float_mono x y zx zy :
  Py.int_of_float x = Py.Ok zx -> Py.int_of_float y = Py.Ok zy ->
  (B2R x <= B2R y)%R -> zx <= zy.
Proof.
  intros Hx Hy Hle.
  destruct (int_of_float_trunc x (int_of_float_finite x zx Hx)) as (zx' & Hx' & Hxp & Hxn).
  destruct (int_of_float_trunc y (int_of_float_finite y zy Hy)) as (zy' & Hy' & Hyp & Hyn).
  assert (zx' = zx) by congruence. assert (zy' = zy) by congruence. subst zx' zy'.
  destruct (Rle_dec 0 (B2R x)) as [Hx0|Hx0].
  - specialize (Hxp Hx0). specialize (Hyp ltac:(lra)).
    assert (H : (IZR zx < IZR (zy + 1))%R) by (rewrite plus_IZR; lra).
    apply lt_IZR in H. lia.
  - specialize (Hxn ltac:(lra)). destruct (Rle_dec 0 (B2R y)) as [Hy0|Hy0].
    + specialize (Hyp Hy0).
      assert (H1 : (IZR zx < IZR 1)%R) by lra.
      assert (H2 : (IZR (-1) < IZR zy)%R) by lra.
      apply lt_IZR in H1, H2. lia.
    + specialize (Hyn ltac:(lra)).
      assert (H : (IZR zx < IZR (zy + 1))%R) by (rewrite plus_IZR; lra).
      apply lt_IZR in H. lia.
Qed.

Lemma result_valid res x : result res x -> valid prec emax res.
Proof.
  intros (r & _ & Hres). destruct res as [s|s| |s m e]; try reflexivity.
  unfold rounds_to in Hres. destruct Hres as [[_ (_ & _ & Hb)]|[_ (_ & _ & Hb)]]; exact Hb.
Qed.

(** [float(z)] of an integer, when it does not raise: a number, the
    rounding of the integer. *)
Lemma float_of_Z_value z f :
  Py.float_of_Z z = Py.Ok f -> finite f /\ srnd (IZR z) (B2R f).
Proof.
  unfold Py.float_of_Z. intros H.
  assert (Hres : result (binary_normalize prec emax z 0 false) (IZR z)).
  { replace (IZR z) with (IZR z * bpow 0)%R by (rewrite bpow_0; ring).
    apply binary_normalize_spec; format. }
  set (sf := binary_normalize prec emax z 0 false) in *.
  assert (Hf : f = SF2Prim sf /\ finite_or_zero sf).
  { destruct sf as [s|s| |s m e]; try discriminate.
    - split; [congruence|exact I].
    - destruct Hres as (r & _ & [[_ []]|[_ []]]).
    - split; [congruence|exact I]. }
  destruct Hf as [-> Hfin]. unfold finite, B2R.
  rewrite Prim2SF_SF2Prim by (exact (result_valid _ _ Hres)).
  split; [exact Hfin|]. apply result_srnd; assumption.
Qed.

Lemma finite_100 : finite 100.
Proof. exact I. Qed.

Lemma small_lt_emax r : (r <= 100)%R -> (r < bpow emax)%R.
Proof.
  intros Hr. apply Rle_lt_trans with (1 := Hr).
  apply Rlt_le_trans with (bpow 7).
  - rewrite (bpow_IZR 7) by lia. change (2 ^ 7) with 128. lra.
  - apply bpow_le. change emax with 1024. lia.
Qed.

Lemma rnd_100 : rnd 100 100.
Proof.
  pose proof (rnd_abs_B2R 100 finite_100) as H.
  rewrite B2R_100, Rabs_pos_eq in H by lra. exact H.
Qed.

Lemma rnd_1 : rnd 1 1.
Proof.
  pose proof (rnd_abs_B2R 1 I) as H.
  rewrite B2R_1, Rabs_pos_eq in H by lra. exact H.
Qed.

(** [(100 - s) / 100], when it is a number: [s] is a number, and the
    value is the rounded quotient of the rounded difference. *)
Lemma multiplier_value s :
  finite ((100 - s) / 100) ->
  finite s
  /\ exists a, srnd (100 - B2R s) a /\ srnd (a / 100) (B2R ((100 - s) / 100)).
Proof.
  intros Hq.
  pose proof (div_finite_inv (100 - s) 100 false 7036874417766400 (-46) eq_refl Hq) as Ha.
  destruct (sub_finite_inv 100 s Ha) as [_ Hs].
  split; [exact Hs|]. exists (B2R (100 - s)). split.
  - pose proof (sub_step 100 s finite_100 Hs) as H. rewrite B2R_100 in H.
    apply result_srnd; assumption.
  - pose proof (div_step (100 - s) 100 false 7036874417766400 (-46) Ha eq_refl) as H.
    rewrite B2R_100 in H. apply result_srnd; assumption.
Qed.

(** A larger slippage gives a multiplier that is not larger. *)
Lemma multiplier_mono s1 s2 :
  finite ((100 - s1) / 100) -> finite ((100 - s2) / 100) ->
  (B2R s1 <= B2R s2)%R ->
  (B2R ((100 - s2) / 100) <= B2R ((100 - s1) / 100))%R.
Proof.
  intros H1 H2 Hle.
  destruct (multiplier_value s1 H1) as (_ & a1 & Ha1 & Hq1).
  destruct (multiplier_value s2 H2) as (_ & a2 & Ha2 & Hq2).
  assert (Ha : (a2 <= a1)%R) by (apply (srnd_mono (100 - B2R s2) (100 - B2R s1)); [lra|assumption..]).
  apply (srnd_mono (a2 / 100) (a1 / 100)); [lra|assumption..].
Qed.

(** For a slippage between 0 and 100 the multiplier is a number between
    0 and 1. *)
Lemma multiplier_range s :
  finite s -> (0 <= B2R s <= 100)%R ->
  finite ((100 - s) / 100) /\ (0 <= B2R ((100 - s) / 100) <= 1)%R.
Proof.
  intros Hs Hr.
  pose proof (sub_step 100 s finite_100 Hs) as Hsub. rewrite B2R_100 in Hsub.
  assert (Ha : finite (100 - s)).
  { apply (result_finite _ _ 100 Hsub rnd_100); [|apply small_lt_emax; lra].
    apply Rabs_le. lra. }
  pose proof (result_srnd _ _ Hsub Ha) as Hva. fold (B2R (100 - s)) in Hva.
  assert (Ha0 : (0 <= B2R (100 - s))%R) by (apply (srnd_nonneg (100 - B2R s)); [lra|exact Hva]).
  assert (Ha1 : (B2R (100 - s) <= 100)%R).
  { apply (srnd_mono (100 - B2R s) 100); [lra|exact Hva|].
    rewrite <- B2R_100. apply srnd_B2R, finite_100. }
  pose proof (div_step (100 - s) 100 false 7036874417766400 (-46) Ha eq_refl) as Hdiv.
  rewrite B2R_100 in Hdiv.
  assert (Hq : finite ((100 - s) / 100)).
  { apply (result_finite _ _ 1 Hdiv rnd_1); [|apply small_lt_emax; lra].
    apply Rabs_le. lra. }
  pose proof (result_srnd _ _ Hdiv Hq) as Hvq. fold (B2R ((100 - s) / 100)) in Hvq.
  split; [exact Hq|]. split.
  - apply (srnd_nonneg (B2R (100 - s) / 100)); [lra|exact Hvq].
  - apply (srnd_mono (B2R (100 - s) / 100) 1); [lra|exact Hvq|].
    rewrite <- B2R_1. apply srnd_B2R. exact I.
Qed.

(** The product of a number by a multiplier within 1 is a number. *)
Lemma product_range e m :
  finite e -> finite m -> (Rabs (B2R m) <= 1)%R -> finite (e * m).
Proof.
  intros He Hm Hle.
  apply (result_finite _ _ (Rabs (B2R e)) (mul_step e m He Hm) (rnd_abs_B2R e He)).
  - rewrite Rabs_mult. pose proof (Rabs_pos (B2R e)). nra.
  - apply abs_B2R_lt_emax.
Qed.

(** The two conversions of the products, when neither raises. *)
Lemma min_out_monotone e s1 s2 z1 z2 :
  finite e -> (0 <= B2R e)%R -> (s1 <? s2)%float = true ->
  Py.int_of_float (e * ((100 - s1) / 100)) = Py.Ok z1 ->
  Py.int_of_float (e * ((100 - s2) / 100)) = Py.Ok z2 ->
  z2 <= z1.
Proof.
  intros He He0 Hlt H1 H2.
  pose proof (int_of_float_finite _ _ H1) as Hp1.
  pose proof (int_of_float_finite _ _ H2) as Hp2.
  destruct (mul_finite_inv _ _ Hp1) as [_ Hm1].
  destruct (mul_finite_inv _ _ Hp2) as [_ Hm2].
  destruct (multiplier_value s1 Hm1) as [Hs1 _].
  destruct (multiplier_value s2 Hm2) as [Hs2 _].
  pose proof (ltb_value s1 s2 Hs1 Hs2 Hlt) as Hs.
  pose proof (multiplier_mono s1 s2 Hm1 Hm2 ltac:(lra)) as Hm.
  apply (int_of_float_mono _ _ _ _ H2 H1).
  apply (srnd_mono (B2R e * B2R ((100 - s2) / 100)) (B2R e * B2R ((100 - s1) / 100))).
  - nra.
  - apply result_srnd; [apply mul_step|]; assumption.
  - apply result_srnd; [apply mul_step|]; assumption.
Qed.

Lemma last_in_cons {A : Type} (l : list A) (d : A) : In (List.last l d) (d :: l).
Proof.
  induction l as [|x l IH]; [left; reflexivity|].
  destruct l as [|y l']; [right; left; reflexivity|].
  change (List.last (x :: y :: l') d) with (List.last (y :: l') d).
  destruct IH as [H|H]; [left; exact H|right; right; exact H].
Qed.

(** A router whose quote for 1 unit is 10^18 units. *)
Definition sample_router (amount_in : Z) (path : list string) : option (list Z) :=
  Some [amount_in; 1000000000000000000].

(** C6, as stated, fails: with a slippage so far below zero that the
    product overflows, the conversion to an integer raises and the
    function returns 0, less than what it returns for a slippage of 0. *)
Lemma overflowing_slippage_breaks_monotonicity :
  (-1e308 <? 0)%float = true
  /\ Kumbaya.calculate_slippage sample_router 1 [] (-1e308) = 0
  /\ Kumbaya.calculate_slippage sample_router 1 [] 0 = 1000000000000000000.
Proof. repeat split; vm_compute; reflexivity. Qed.

(** C6, amended: for a quoted output that is not negative and slippage
    percentages [s1 < s2], the minimum output computed for [s2] is at
    most the one computed for [s1] whenever neither computation raises,
    and in any case when [0 <= s1] and [s2 <= 100]. *)
Theorem calculate_slippage_monotone router amount_in path s1 s2 :
  (forall amounts, router amount_in path = Some amounts -> Forall (Z.le 0) amounts) ->
  (s1 <? s2)%float = true ->
  (exists z1 z2,
      Kumbaya.calculate_slippage_try router amount_in path s1 = Py.Ok z1
      /\ Kumbaya.calculate_slippage_try router amount_in path s2 = Py.Ok z2)
  \/ ((0 <=? s1)%float = true /\ (s2 <=? 100)%float = true) ->
  Kumbaya.calculate_slippage router amount_in path s2
  <= Kumbaya.calculate_slippage router amount_in path s1.
Proof.
  intros Huint H12 Hdom.
  unfold Kumbaya.calculate_slippage, Kumbaya.calculate_slippage_try in *.
  destruct (router amount_in path) as [[|a rest]|] eqn:Hr; try lia.
  assert (Hexp : 0 <= List.last rest a).
  { specialize (Huint _ eq_refl). rewrite Forall_forall in Huint.
    apply Huint. apply list_elem_of_In, last_in_cons. }
  cbv zeta in *.
  destruct (Py.float_of_Z (List.last rest a)) as [e|msg] eqn:He.
  2:{ lia. }
  destruct (float_of_Z_value _ _ He) as [Hfe Hve].
  assert (He0 : (0 <= B2R e)%R).
  { apply (srnd_nonneg (IZR (List.last rest a))); [apply IZR_le; exact Hexp|exact Hve]. }
  destruct Hdom as [(z1 & z2 & H1 & H2)|[H0 H100]].
  - rewrite H1, H2. exact (min_out_monotone e s1 s2 z1 z2 Hfe He0 H12 H1 H2).
  - destruct (between_finite s1 s2 0 100 H0 H12 H100 I finite_100) as [Hs1 Hs2].
    pose proof (ltb_value s1 s2 Hs1 Hs2 H12) as Hlt.
    pose proof (leb_value 0 s1 I Hs1 H0) as Hmin. rewrite B2R_0 in Hmin.
    pose proof (leb_value s2 100 Hs2 finite_100 H100) as Hmax. rewrite B2R_100 in Hmax.
    destruct (multiplier_range s1 Hs1 ltac:(lra)) as [Hm1 Hr1].
    destruct (multiplier_range s2 Hs2 ltac:(lra)) as [Hm2 Hr2].
    assert (Hp1 : finite (e * ((100 - s1) / 100))).
    { apply product_range; [assumption..|]. apply Rabs_le. lra. }
    assert (Hp2 : finite (e * ((100 - s2) / 100))).
    { apply product_range; [assumption..|]. apply Rabs_le. lra. }
    destruct (int_of_float_trunc _ Hp1) as (z1 & H1 & _).
    destruct (int_of_float_trunc _ Hp2) as (z2 & H2 & _).
    rewrite H1, H2. exact (min_out_monotone e s1 s2 z1 z2 Hfe He0 H12 H1 H2).
Qed.

(** The amended C6 at slippages of 2 and 5 percent. *)
Lemma calculate_slippage_monotone_witness :
  (forall amounts, sample_router 1 [] = Some amounts -> Forall (Z.le 0) amounts)
  /\ (2 <? 5)%float = true
  /\ ((exists z1 z2,
          Kumbaya.calculate_slippage_try sample_router 1 [] 2 = Py.Ok z1
          /\ Kumbaya.calculate_slippage_try sample_router 1 [] 5 = Py.Ok z2)
      \/ ((0 <=? 2)%float = true /\ (5 <=? 100)%float = true))
  /\ Kumbaya.calculate_slippage sample_router 1 [] 5
     <= Kumbaya.calculate_slippage sample_router 1 [] 2.
Proof.
  assert (H : forall amounts, sample_router 1 [] = Some amounts -> Forall (Z.le 0) amounts).
  { intros amounts [= <-]. repeat constructor; lia. }
  assert (Hd : (exists z1 z2,
                   Kumbaya.calculate_slippage_try sample_router 1 [] 2 = Py.Ok z1
                   /\ Kumbaya.calculate_slippage_try sample_router 1 [] 5 = Py.Ok z2)
               \/ ((0 <=? 2)%float = true /\ (5 <=? 100)%float = true)).
  { left. exists 980000000000000000, 950000000000000000. split; vm_compute; reflexivity. }
  split; [exact H|]. split; [reflexivity|]. split; [exact Hd|].
  apply calculate_slippage_monotone; [exact H|reflexivity|exact Hd].
Defined.

End KumbayaFacts.

(** ** The caches *)

Module CacheFacts.
Import PyFacts.

(** The monitor whose cache was filled to its capacity by the handler. *)
Definition full_monitor : Monitor.TokenMonitor :=
  Monitor.handle_events (MonitorFacts.numbered_events 100) Monitor.init.

(** C2 on the code.  The launch cache fed by
    [_handle_pair_created_event] and the opportunity cache fed by
    [_scan_loop], of capacity [N > 0] and holding at most [N] items, hold
    after any run the last [N] of the old items followed by the inserted
    ones, so never more than [N], the oldest being dropped first.
    [simulate_launch_detection] appends its launch without the trim that
    the handler does: the cache grows by one whatever its length, so a
    cache at its capacity ends with [N + 1] launches, the oldest still
    first.  [snipe_results] has no capacity, and an execution inserts
    nothing into it. *)
Theorem caches_keep_newest_except_simulated_launch
    (m : Monitor.TokenMonitor) (evs : list (Py.datetime * Monitor.event))
    (now : Py.datetime) (token : string)
    (s : Scanner.MultiDEXScanner) (envs : list Scanner.Env)
    (x : Executor.SniperExecutor) (env : Executor.Env) (req : Executor.SnipeRequest) :
  (0 < Monitor.max_cache_size m ->
   (length (Monitor.recent_launches m) <= Z.to_nat (Monitor.max_cache_size m))%nat ->
   Monitor.recent_launches (Monitor.handle_events evs m)
   = lastn (Z.to_nat (Monitor.max_cache_size m))
       (Monitor.recent_launches m ++ MonitorFacts.launches_of evs m)
   /\ Z.of_nat (length (Monitor.recent_launches (Monitor.handle_events evs m)))
      <= Monitor.max_cache_size m)
  /\ (0 < Scanner.max_cache_size s ->
      (length (Scanner.recent_opportunities s) <= Z.to_nat (Scanner.max_cache_size s))%nat ->
      Scanner.recent_opportunities (Scanner.scan_loop envs s)
      = lastn (Z.to_nat (Scanner.max_cache_size s))
          (Scanner.recent_opportunities s ++ ScannerFacts.found envs s)
      /\ Z.of_nat (length (Scanner.recent_opportunities (Scanner.scan_loop envs s)))
         <= Scanner.max_cache_size s)
  /\ (Monitor.recent_launches (fst (Monitor.simulate_launch_detection now token m))
      = Monitor.recent_launches m ++ [snd (Monitor.simulate_launch_detection now token m)]
      /\ Monitor.max_cache_size (fst (Monitor.simulate_launch_detection now token m))
         = Monitor.max_cache_size m
      /\ (Z.of_nat (length (Monitor.recent_launches m)) = Monitor.max_cache_size m ->
          Z.of_nat (length (Monitor.recent_launches
                              (fst (Monitor.simulate_launch_detection now token m))))
          = Monitor.max_cache_size m + 1))
  /\ Executor.snipe_results (snd (Executor._execute_snipe env req x))
     = Executor.snipe_results x.
Proof.
  split; [|split; [|split]].
  - intros Hcap Hlen. rewrite MonitorFacts.handle_events_cache by assumption.
    split; [reflexivity|]. rewrite length_lastn. lia.
  - intros Hcap Hlen. rewrite ScannerFacts.scan_loop_cache by assumption.
    split; [reflexivity|]. rewrite length_lastn. lia.
  - unfold Monitor.simulate_launch_detection. cbn [fst snd].
    split; [reflexivity|]. split; [reflexivity|].
    intros Hfull. cbn [Monitor.recent_launches Monitor.set_recent_launches].
    rewrite length_app. cbn [length]. lia.
  - rewrite (proj2 (ExecutorFacts.execute_fails env req x)). reflexivity.
Qed.

(** C2 on 103 launches handled by a fresh monitor, which keeps the last
    100; on one turn of the scan loop of scenario A, which caches its
    opportunity; on the monitor filled to its capacity of 100, where a
    simulated launch leaves 101 launches; and on an executed request,
    which stores nothing. *)
Lemma caches_keep_newest_except_simulated_launch_witness :
  (0 < Monitor.max_cache_size Monitor.init
   /\ (length (Monitor.recent_launches Monitor.init)
       <= Z.to_nat (Monitor.max_cache_size Monitor.init))%nat
   /\ length (MonitorFacts.launches_of (MonitorFacts.numbered_events 103) Monitor.init) = 103%nat
   /\ Monitor.recent_launches
        (Monitor.handle_events (MonitorFacts.numbered_events 103) Monitor.init)
      = lastn (Z.to_nat (Monitor.max_cache_size Monitor.init))
          (Monitor.recent_launches Monitor.init
           ++ MonitorFacts.launches_of (MonitorFacts.numbered_events 103) Monitor.init))
  /\ (0 < Scanner.max_cache_size ScannerFacts.scenario_A
      /\ (length (Scanner.recent_opportunities ScannerFacts.scenario_A)
          <= Z.to_nat (Scanner.max_cache_size ScannerFacts.scenario_A))%nat
      /\ ScannerFacts.found [ScannerFacts.env_A] ScannerFacts.scenario_A
         = [ScannerFacts.opportunity_A]
      /\ Scanner.recent_opportunities
           (Scanner.scan_loop [ScannerFacts.env_A] ScannerFacts.scenario_A)
         = lastn (Z.to_nat (Scanner.max_cache_size ScannerFacts.scenario_A))
             (Scanner.recent_opportunities ScannerFacts.scenario_A
              ++ ScannerFacts.found [ScannerFacts.env_A] ScannerFacts.scenario_A))
  /\ (Monitor.max_cache_size full_monitor = 100
      /\ Z.of_nat (length (Monitor.recent_launches full_monitor))
         = Monitor.max_cache_size full_monitor
      /\ Z.of_nat (length (Monitor.recent_launches
                             (fst (Monitor.simulate_launch_detection 0
                                     "0x3333333333333333333333333333333333333333"
                                     full_monitor))))
         = Monitor.max_cache_size full_monitor + 1)
  /\ Executor.snipe_results
       (snd (Executor._execute_snipe ExecutorFacts.approving ExecutorFacts.first_request
               Executor.init))
     = Executor.snipe_results Executor.init.
Proof.
  pose proof (caches_keep_newest_except_simulated_launch Monitor.init
                (MonitorFacts.numbered_events 103) 0
                "0x3333333333333333333333333333333333333333"
                ScannerFacts.scenario_A [ScannerFacts.env_A] Executor.init
                ExecutorFacts.approving ExecutorFacts.first_request) as (Hm & Hs & _ & Hx).
  pose proof (caches_keep_newest_except_simulated_launch full_monitor [] 0
                "0x3333333333333333333333333333333333333333"
                ScannerFacts.scenario_A [] Executor.init
                ExecutorFacts.approving ExecutorFacts.first_request)
    as (_ & _ & (_ & _ & Hsim) & _).
  assert (H1 : 0 < Monitor.max_cache_size Monitor.init) by reflexivity.
  assert (H2 : (length (Monitor.recent_launches Monitor.init)
                <= Z.to_nat (Monitor.max_cache_size Monitor.init))%nat) by (simpl; lia).
  assert (H3 : 0 < Scanner.max_cache_size ScannerFacts.scenario_A) by reflexivity.
  assert (H4 : (length (Scanner.recent_opportunities ScannerFacts.scenario_A)
                <= Z.to_nat (Scanner.max_cache_size ScannerFacts.scenario_A))%nat)
    by (simpl; lia).
  assert (H5 : Z.of_nat (length (Monitor.recent_launches full_monitor))
               = Monitor.max_cache_size full_monitor) by (vm_compute; reflexivity).
  split; [|split; [|split]].
  - split; [exact H1|]. split; [exact H2|]. split; [vm_compute; reflexivity|].
    exact (proj1 (Hm H1 H2)).
  - split; [exact H3|]. split; [exact H4|]. split; [vm_compute; reflexivity|].
    exact (proj1 (Hs H3 H4)).
  - split; [vm_compute; reflexivity|]. split; [exact H5|]. exact (Hsim H5).
  - exact Hx.
Defined.

(** C10: with [limit = 0] the slice [[-0:]] is the whole list, so both
    queries return the entire cache, oldest first; and a limit above the
    size of the cache returns the entire cache too. *)
Theorem limit_zero_or_large_returns_whole_cache
    (m : Monitor.TokenMonitor) (s : Scanner.MultiDEXScanner) (limit : Z) :
  Monitor.get_recent_launches m 0 = Monitor.recent_launches m
  /\ Scanner.get_recent_opportunities s 0 = Scanner.recent_opportunities s
  /\ (Z.of_nat (length (Monitor.recent_launches m)) < limit ->
      Monitor.get_recent_launches m limit = Monitor.recent_launches m)
  /\ (Z.of_nat (length (Scanner.recent_opportunities s)) < limit ->
      Scanner.get_recent_opportunities s limit = Scanner.recent_opportunities s).
Proof.
  unfold Monitor.get_recent_launches, Scanner.get_recent_opportunities.
  repeat split.
  - apply slice_last_zero.
  - apply slice_last_zero.
  - apply slice_last_all.
  - apply slice_last_all.
Qed.

(** C10 on the monitor after one launch and the scanner after one turn
    of scenario A, which caches its opportunity, with [limit = 20]. *)
Lemma limit_zero_or_large_returns_whole_cache_witness :
  length (Monitor.get_recent_launches MonitorFacts.after_first_delivery 0) = 1%nat
  /\ Scanner.get_recent_opportunities
       (Scanner.scan_loop [ScannerFacts.env_A] ScannerFacts.scenario_A) 0
     = [ScannerFacts.opportunity_A]
  /\ Monitor.get_recent_launches MonitorFacts.after_first_delivery 20
     = Monitor.recent_launches MonitorFacts.after_first_delivery
  /\ Scanner.get_recent_opportunities
       (Scanner.scan_loop [ScannerFacts.env_A] ScannerFacts.scenario_A) 20
     = Scanner.recent_opportunities
         (Scanner.scan_loop [ScannerFacts.env_A] ScannerFacts.scenario_A).
Proof.
  destruct (limit_zero_or_large_returns_whole_cache MonitorFacts.after_first_delivery
              (Scanner.scan_loop [ScannerFacts.env_A] ScannerFacts.scenario_A) 20)
    as (Hm0 & Hs0 & Hm & Hs).
  split; [rewrite Hm0; vm_compute; reflexivity|].
  split; [rewrite Hs0; vm_compute; reflexivity|].
  split; [apply Hm; vm_compute; reflexivity|apply Hs; vm_compute; reflexivity].
Defined.

End CacheFacts.

(** * Further properties of the code

    The filters and the lookups of the monitor, the token list and the
    best opportunity of the scanner, the PrismFi placeholder, the
    cancellation, the stored results and the queue of the executor, the
    bounds of the gas price and of the minimum output, and the caches, the
    price and the liquidity check of the Kumbaya object. *)

(** ** The filters and the queries of the monitor *)

Module MonitorExtra.
Import Monitor PyFacts MonitorFacts.

Lemma lower_ascii_idem c : Py.lower_ascii (Py.lower_ascii c) = Py.lower_ascii c.
Proof. destruct c as [[] [] [] [] [] [] [] []]; reflexivity. Qed.

Lemma lower_idem s : Py.lower (Py.lower s) = Py.lower s.
Proof. induction s as [|c s IH]; simpl; [reflexivity|]. rewrite lower_ascii_idem, IH. reflexivity. Qed.

Lemma in_lowered_true x s :
  in_lowered x s = true <-> exists t, t ∈ s /\ Py.lower t = Py.lower x.
Proof.
  unfold in_lowered. rewrite bool_decide_eq_true, list_elem_of_fmap.
  split.
  - intros (t & Ht & Hin). exists t. split; [apply elem_of_elements; exact Hin|congruence].
  - intros (t & Hin & Ht). exists t. split; [congruence|apply elem_of_elements; exact Hin].
Qed.

Lemma in_lowered_false x s :
  in_lowered x s = false <-> forall t, t ∈ s -> Py.lower t <> Py.lower x.
Proof.
  rewrite <- not_true_iff_false, in_lowered_true. split.
  - intros H t Hin Heq. apply H. exists t. auto.
  - intros H (t & Hin & Heq). exact (H t Hin Heq).
Qed.

(** A token whose lowered address is on the blacklist is refused. *)
Lemma blacklisted_refused st token tok :
  Py.lower token ∈ blacklisted_tokens st -> Py.lower tok = Py.lower token ->
  _should_process_token st tok = false.
Proof.
  intros Hin Heq. unfold _should_process_token.
  replace (in_lowered tok (blacklisted_tokens st)) with true; [reflexivity|].
  symmetry. apply in_lowered_true. exists (Py.lower token).
  split; [exact Hin|]. rewrite lower_idem. congruence.
Qed.

(** A token and an event that names it beside the base currency. *)
Definition scam_token : string := "0xAbCdEf0123456789aBcDeF0123456789AbCdEf01".

Definition scam_log : PairCreated :=
  {| args_token0 := "0xeeeeeeeeeeeeeeeeeeeeeeeeeeeeeeeeeeeeeeee";
     args_token1 := "0xABCDEF0123456789ABCDEF0123456789ABCDEF01";
     args_pair := "0x3333333333333333333333333333333333333333";
     args_allPairsLength := 8;
     blockNumber := 101;
     transactionHash_hex := "0xbeef" |}.

(** X1: once a token is blacklisted, an event that announces it, in
    whatever letter case, is dropped: the monitor is left as it was and
    no observer is notified, whether the token is whitelisted or not. *)
Theorem blacklisted_token_is_dropped st token now e tok :
  new_token_of e = Some tok ->
  Py.lower tok = Py.lower token ->
  _handle_pair_created_event now (Decoded e) (add_blacklisted_token token st)
  = (add_blacklisted_token token st, []).
Proof.
  intros Hnew Heq. unfold _handle_pair_created_event, accepted. rewrite Hnew.
  rewrite (blacklisted_refused _ token tok); [reflexivity| |exact Heq].
  unfold add_blacklisted_token. simpl. set_solver.
Qed.

Lemma blacklisted_token_is_dropped_witness :
  new_token_of scam_log = Some (args_token1 scam_log)
  /\ Py.lower (args_token1 scam_log) = Py.lower scam_token
  /\ _handle_pair_created_event 5 (Decoded scam_log)
       (add_blacklisted_token scam_token (add_whitelisted_token scam_token init))
     = (add_blacklisted_token scam_token (add_whitelisted_token scam_token init), []).
Proof.
  split; [reflexivity|]. split; [reflexivity|].
  apply (blacklisted_token_is_dropped _ scam_token 5 scam_log (args_token1 scam_log));
    reflexivity.
Defined.

(** X2: once a token is whitelisted, an event for a token that is not
    on the whitelist (letter case apart) is dropped, and an event for the
    whitelisted token is recorded unless the token is blacklisted. *)
Theorem whitelist_restricts st token now e tok :
  new_token_of e = Some tok ->
  ((forall t, t ∈ whitelisted_tokens (add_whitelisted_token token st) ->
      Py.lower t <> Py.lower tok) ->
   _handle_pair_created_event now (Decoded e) (add_whitelisted_token token st)
   = (add_whitelisted_token token st, []))
  /\ (Py.lower tok = Py.lower token ->
      (forall t, t ∈ blacklisted_tokens st -> Py.lower t <> Py.lower tok) ->
      accepted now (Decoded e) (add_whitelisted_token token st) = Some (launch_of now e tok)).
Proof.
  intros Hnew.
  assert (Hne : whitelisted_tokens (add_whitelisted_token token st) ≠ ∅).
  { unfold add_whitelisted_token. simpl. set_solver. }
  split.
  - intros Hout. unfold _handle_pair_created_event, accepted. rewrite Hnew.
    unfold _should_process_token.
    destruct (in_lowered tok (blacklisted_tokens _)); [reflexivity|].
    rewrite bool_decide_eq_true_2 by exact Hne.
    rewrite (proj2 (in_lowered_false _ _) Hout). reflexivity.
  - intros Heq Hblack. unfold accepted. rewrite Hnew. unfold _should_process_token.
    change (blacklisted_tokens (add_whitelisted_token token st)) with (blacklisted_tokens st).
    rewrite (proj2 (in_lowered_false _ _) Hblack).
    rewrite bool_decide_eq_true_2 by exact Hne.
    replace (in_lowered tok (whitelisted_tokens (add_whitelisted_token token st))) with true;
      [reflexivity|].
    symmetry. apply in_lowered_true. exists (Py.lower token). split.
    + unfold add_whitelisted_token. simpl. set_solver.
    + rewrite lower_idem. congruence.
Qed.

Lemma whitelist_restricts_witness :
  new_token_of scam_log = Some (args_token1 scam_log)
  /\ _handle_pair_created_event 5 (Decoded scam_log)
       (add_whitelisted_token "0x1111111111111111111111111111111111111111" init)
     = (add_whitelisted_token "0x1111111111111111111111111111111111111111" init, [])
  /\ accepted 5 (Decoded scam_log) (add_whitelisted_token scam_token init)
     = Some (launch_of 5 scam_log (args_token1 scam_log)).
Proof.
  split; [reflexivity|]. split.
  - apply (proj1 (whitelist_restricts init "0x1111111111111111111111111111111111111111"
                    5 scam_log (args_token1 scam_log) eq_refl)).
    intros t Ht. unfold add_whitelisted_token in Ht. simpl in Ht.
    assert (t = Py.lower "0x1111111111111111111111111111111111111111") as -> by set_solver.
    vm_compute. discriminate.
  - apply (proj2 (whitelist_restricts init scam_token 5 scam_log (args_token1 scam_log) eq_refl)).
    + reflexivity.
    + intros t Ht. simpl in Ht. set_solver.
Defined.

(** X3: removing a token that was added, under whatever letter case,
    restores the filter when the token was not on it before. *)
Theorem filter_add_remove_round_trip st token token' :
  Py.lower token' = Py.lower token ->
  (Py.lower token ∉ blacklisted_tokens st ->
   remove_blacklisted_token token' (add_blacklisted_token token st) = st)
  /\ (Py.lower token ∉ whitelisted_tokens st ->
      remove_whitelisted_token token' (add_whitelisted_token token st) = st).
Proof.
  intros Heq. destruct st as [cbs mon cache cap black white].
  unfold remove_blacklisted_token, add_blacklisted_token, remove_whitelisted_token,
    add_whitelisted_token, set_blacklisted_tokens, set_whitelisted_tokens. simpl.
  rewrite Heq. split; intros Hnot; f_equal; set_solver.
Qed.

Lemma filter_add_remove_round_trip_witness :
  Py.lower "0xABCDEF0123456789ABCDEF0123456789ABCDEF01" = Py.lower scam_token
  /\ remove_blacklisted_token "0xABCDEF0123456789ABCDEF0123456789ABCDEF01"
       (add_blacklisted_token scam_token init) = init
  /\ remove_whitelisted_token "0xABCDEF0123456789ABCDEF0123456789ABCDEF01"
       (add_whitelisted_token scam_token init) = init.
Proof.
  split; [reflexivity|].
  pose proof (filter_add_remove_round_trip init scam_token
                "0xABCDEF0123456789ABCDEF0123456789ABCDEF01" eq_refl) as [Hb Hw].
  split; [apply Hb|apply Hw]; simpl; set_solver.
Defined.

Lemma find_first {A : Type} (f : A -> bool) (l : list A) :
  match List.find f l with
  | Some x =>
    exists l1 l2, l = l1 ++ x :: l2 /\ f x = true /\ Forall (fun y => f y = false) l1
  | None => Forall (fun y => f y = false) l
  end.
Proof.
  induction l as [|a l IH]; simpl; [constructor|].
  destruct (f a) eqn:Hfa.
  - exists [], l. repeat split; [exact Hfa|constructor].
  - destruct (List.find f l) as [x|].
    + destruct IH as (l1 & l2 & -> & Hx & Hl1).
      exists (a :: l1), l2. repeat split; [exact Hx|constructor; assumption].
    + constructor; assumption.
Qed.

(** X4: [get_launch_by_address] returns the oldest cached launch of the
    token, letter case apart, and [None] exactly when no cached launch is
    for the token. *)
Theorem get_launch_by_address_finds_oldest st address :
  match get_launch_by_address st address with
  | Some launch =>
    exists older newer,
      recent_launches st = older ++ launch :: newer
      /\ Py.lower (token_address launch) = Py.lower address
      /\ Forall (fun l => Py.lower (token_address l) <> Py.lower address) older
  | None =>
    Forall (fun l => Py.lower (token_address l) <> Py.lower address) (recent_launches st)
  end.
Proof.
  unfold get_launch_by_address.
  pose proof (find_first
                (fun launch => String.eqb (Py.lower (token_address launch)) (Py.lower address))
                (recent_launches st)) as H.
  destruct (List.find _ (recent_launches st)) as [launch|].
  - destruct H as (older & newer & Hsplit & Hx & Hold).
    exists older, newer. split; [exact Hsplit|]. split; [apply String.eqb_eq, Hx|].
    eapply Forall_impl; [exact Hold|]. intros l Hl. apply String.eqb_neq, Hl.
  - eapply Forall_impl; [exact H|]. intros l Hl. apply String.eqb_neq, Hl.
Qed.

Lemma lastn_snoc n (l : list TokenLaunch) x :
  (0 < n)%nat -> exists l', lastn n (l ++ [x]) = l' ++ [x].
Proof.
  intros Hn. unfold lastn. rewrite length_app. simpl.
  exists (drop (length l + 1 - n) l).
  rewrite drop_app_le by lia. reflexivity.
Qed.

(** X5: the launch recorded for an accepted event is the one a query
    for the newest launch returns, and a lookup by its token address, in
    whatever letter case, finds a launch of that token. *)
Theorem newest_launch_is_served now ev st launch address :
  accepted now ev st = Some launch ->
  0 < max_cache_size st ->
  Py.lower address = Py.lower (token_address launch) ->
  get_recent_launches (fst (_handle_pair_created_event now ev st)) 1 = [launch]
  /\ exists found,
       get_launch_by_address (fst (_handle_pair_created_event now ev st)) address = Some found
       /\ Py.lower (token_address found) = Py.lower address.
Proof.
  intros Hacc Hcap Haddr. rewrite (handle_accepted _ _ _ _ Hacc).
  unfold get_recent_launches, get_launch_by_address. simpl recent_launches.
  rewrite trimmed_lastn by exact Hcap.
  destruct (lastn_snoc (Z.to_nat (max_cache_size st)) (recent_launches st) launch)
    as [l' ->]; [lia|].
  split.
  - rewrite (slice_last_pos 1) by lia. destruct (lastn_snoc 1 l' launch) as [l'' Hl'']; [lia|].
    pose proof (length_lastn 1 (l' ++ [launch])) as Hlen.
    rewrite Hl'', !length_app in Hlen. cbn [length] in Hlen.
    assert (Hnil : length l'' = 0%nat) by lia.
    change (Z.to_nat 1) with 1%nat. rewrite Hl''.
    destruct l''; [reflexivity|discriminate Hnil].
  - pose proof (find_first
                  (fun l => String.eqb (Py.lower (token_address l)) (Py.lower address))
                  (l' ++ [launch])) as H.
    destruct (List.find _ (l' ++ [launch])) as [found|].
    + destruct H as (_ & _ & _ & Hx & _). exists found. split; [reflexivity|].
      apply String.eqb_eq, Hx.
    + rewrite Forall_app, Forall_singleton in H. destruct H as [_ H].
      apply String.eqb_neq in H. congruence.
Qed.

Lemma newest_launch_is_served_witness :
  accepted 2 (Decoded scam_log) after_first_delivery
  = Some (launch_of 2 scam_log (args_token1 scam_log))
  /\ 0 < max_cache_size after_first_delivery
  /\ Py.lower scam_token = Py.lower (token_address (launch_of 2 scam_log (args_token1 scam_log)))
  /\ get_recent_launches (fst (_handle_pair_created_event 2 (Decoded scam_log)
                                 after_first_delivery)) 1
     = [launch_of 2 scam_log (args_token1 scam_log)]
  /\ exists found,
       get_launch_by_address
         (fst (_handle_pair_created_event 2 (Decoded scam_log) after_first_delivery))
         scam_token = Some found
       /\ Py.lower (token_address found) = Py.lower scam_token.
Proof.
  assert (Ha : accepted 2 (Decoded scam_log) after_first_delivery
               = Some (launch_of 2 scam_log (args_token1 scam_log))) by (vm_compute; reflexivity).
  assert (Hc : 0 < max_cache_size after_first_delivery) by (vm_compute; reflexivity).
  assert (Hl : Py.lower scam_token
               = Py.lower (token_address (launch_of 2 scam_log (args_token1 scam_log))))
    by (vm_compute; reflexivity).
  split; [exact Ha|]. split; [exact Hc|]. split; [exact Hl|].
  exact (newest_launch_is_served 2 (Decoded scam_log) after_first_delivery
           (launch_of 2 scam_log (args_token1 scam_log)) scam_token Ha Hc Hl).
Defined.

Lemma slice_last_neg {A : Type} n (l : list A) :
  n < 0 -> Py.slice_last n l = drop (Z.to_nat (- n)) l.
Proof.
  intros Hn. unfold Py.slice_last, Py.slice_from.
  destruct (Z.ltb_spec (- n) 0) as [H|H]; [lia|].
  destruct (Z.le_gt_cases (- n) (Z.of_nat (length l))) as [Hle|Hgt].
  - rewrite Z.min_l by lia. reflexivity.
  - rewrite Z.min_r by lia. rewrite Nat2Z.id.
    rewrite drop_all. symmetry. apply drop_ge. lia.
Qed.

(** X6: with a limit above zero the two queries return the newest
    entries, as many as the limit allows, in the order of the cache; with
    a limit below zero they return the cache without its oldest entries,
    as many as the limit counts. *)
Theorem recent_queries_by_limit (st : TokenMonitor) (sc : Scanner.MultiDEXScanner) limit :
  (0 < limit ->
   (length (get_recent_launches st limit)
    = Nat.min (Z.to_nat limit) (length (recent_launches st))
    /\ exists older, recent_launches st = older ++ get_recent_launches st limit)
   /\ (length (Scanner.get_recent_opportunities sc limit)
       = Nat.min (Z.to_nat limit) (length (Scanner.recent_opportunities sc))
       /\ exists older,
            Scanner.recent_opportunities sc = older ++ Scanner.get_recent_opportunities sc limit))
  /\ (limit < 0 ->
      get_recent_launches st limit = drop (Z.to_nat (- limit)) (recent_launches st)
      /\ Scanner.get_recent_opportunities sc limit
         = drop (Z.to_nat (- limit)) (Scanner.recent_opportunities sc)).
Proof.
  unfold get_recent_launches, Scanner.get_recent_opportunities. split.
  - intros Hpos. rewrite !slice_last_pos by exact Hpos. split; (split; [apply length_lastn|]).
    + exists (take (length (recent_launches st) - Z.to_nat limit) (recent_launches st)).
      unfold lastn. symmetry. apply take_drop.
    + exists (take (length (Scanner.recent_opportunities sc) - Z.to_nat limit)
                (Scanner.recent_opportunities sc)).
      unfold lastn. symmetry. apply take_drop.
  - intros Hneg. rewrite !slice_last_neg by exact Hneg. split; reflexivity.
Qed.

Lemma recent_queries_by_limit_witness :
  0 < 1 /\ -1 < 0
  /\ get_recent_launches after_first_delivery 1 = recent_launches after_first_delivery
  /\ get_recent_launches after_first_delivery (-1) = []
  /\ Scanner.get_recent_opportunities ScannerFacts.scenario_A (-1) = [].
Proof.
  destruct (recent_queries_by_limit after_first_delivery ScannerFacts.scenario_A (-1))
    as [_ Hneg].
  destruct (recent_queries_by_limit after_first_delivery ScannerFacts.scenario_A 1)
    as [Hpos _].
  split; [lia|]. split; [lia|]. split; [|split].
  - destruct (Hpos ltac:(lia)) as [[Hlen [older Hold]] _].
    assert (Ho : older = []).
    { apply (f_equal length) in Hold. rewrite length_app, Hlen in Hold.
      destruct older; [reflexivity|]. simpl in Hold.
      change (length (recent_launches after_first_delivery)) with 1%nat in Hold.
      simpl in Hold. lia. }
    rewrite Ho in Hold. symmetry. exact Hold.
  - rewrite (proj1 (Hneg ltac:(lia))). reflexivity.
  - rewrite (proj2 (Hneg ltac:(lia))). reflexivity.
Defined.

(** X23: [simulate_launch_detection] does not consult the filters: the
    launch is appended for a blacklisted token as for any other, it is
    what a query for the newest launch returns, and a lookup by the
    token finds a launch of the token. *)
Theorem simulated_launch_bypasses_filters now token st :
  _should_process_token (add_blacklisted_token token st) token = false
  /\ token_address (snd (simulate_launch_detection now token (add_blacklisted_token token st)))
     = token
  /\ recent_launches (fst (simulate_launch_detection now token (add_blacklisted_token token st)))
     = recent_launches st
       ++ [snd (simulate_launch_detection now token (add_blacklisted_token token st))]
  /\ get_recent_launches
       (fst (simulate_launch_detection now token (add_blacklisted_token token st))) 1
     = [snd (simulate_launch_detection now token (add_blacklisted_token token st))]
  /\ exists found,
       get_launch_by_address
         (fst (simulate_launch_detection now token (add_blacklisted_token token st))) token
       = Some found
       /\ Py.lower (token_address found) = Py.lower token.
Proof.
  split.
  { apply (blacklisted_refused _ token token); [|reflexivity].
    unfold add_blacklisted_token. simpl. set_solver. }
  unfold simulate_launch_detection. simpl fst. simpl snd.
  set (launch := {| token_address := token; token0 := _; token1 := _; pair_address := _;
                    all_pairs_length := _; block_number := _; transaction_hash := _;
                    timestamp := _ |}).
  split; [reflexivity|]. split; [reflexivity|].
  unfold get_recent_launches, get_launch_by_address. simpl recent_launches. split.
  - rewrite (slice_last_pos 1) by lia.
    destruct (lastn_snoc 1 (recent_launches st) launch) as [l' Hl']; [lia|].
    pose proof (length_lastn 1 (recent_launches st ++ [launch])) as Hlen.
    rewrite Hl', !length_app in Hlen. cbn [length] in Hlen.
    assert (Hnil : length l' = 0%nat) by lia.
    change (Z.to_nat 1) with 1%nat. rewrite Hl'.
    destruct l'; [reflexivity|discriminate Hnil].
  - pose proof (find_first
                  (fun l => String.eqb (Py.lower (token_address l)) (Py.lower token))
                  (recent_launches st ++ [launch])) as H.
    destruct (List.find _ (recent_launches st ++ [launch])) as [found|].
    + destruct H as (_ & _ & _ & Hx & _). exists found. split; [reflexivity|].
      apply String.eqb_eq, Hx.
    + rewrite Forall_app, Forall_singleton in H. destruct H as [_ H].
      apply String.eqb_neq in H. exfalso. apply H. reflexivity.
Qed.

End MonitorExtra.

(** ** The order of floats *)

Module FloatOrder.

(** A key that orders the floats that are not NaN as [<] does: the sign
    class, then the exponent and the mantissa, both negated below zero. *)
Definition rank (x : spec_float) : option (Z * Z * Z) :=
  match x with
  | S754_nan => None
  | S754_infinity true => Some (-2, 0, 0)
  | S754_infinity false => Some (2, 0, 0)
  | S754_zero _ => Some (0, 0, 0)
  | S754_finite false m e => Some (1, e, Z.pos m)
  | S754_finite true m e => Some (-1, - e, - Z.pos m)
  end.

Definition lex_lt (a b : Z * Z * Z) : Prop :=
  let '(a1, a2, a3) := a in
  let '(b1, b2, b3) := b in
  a1 < b1 \/ (a1 = b1 /\ (a2 < b2 \/ (a2 = b2 /\ a3 < b3))).

Lemma SFltb_rank x y :
  SFltb x y = true
  <-> exists kx ky, rank x = Some kx /\ rank y = Some ky /\ lex_lt kx ky.
Proof.
  unfold SFltb, SFcompare.
  destruct x as [sx|sx| |sx mx ex], y as [sy|sy| |sy my ey];
    try destruct sx; try destruct sy; simpl rank;
    try (change (Pos.compare_cont Eq mx my) with (Pos.compare mx my);
         destruct (Z.compare_spec ex ey); try destruct (Pos.compare_spec mx my));
    cbv beta iota delta [CompOpp];
    (split;
     [ intros Hrk;
       first [ discriminate Hrk
             | eexists _, _; split; [reflexivity|]; split; [reflexivity|];
               unfold lex_lt; lia ]
     | intros (kx & ky & Hx & Hy & Hrk);
       first [ discriminate Hx | discriminate Hy
             | injection Hx as <-; injection Hy as <-; unfold lex_lt in Hrk;
               first [reflexivity | exfalso; lia] ] ]).
Qed.

Lemma ltb_rank (a b : float) :
  (a <? b)%float = true
  <-> exists ka kb, rank (Prim2SF a) = Some ka /\ rank (Prim2SF b) = Some kb /\ lex_lt ka kb.
Proof. rewrite FloatAxioms.ltb_spec. apply SFltb_rank. Qed.

(** [<] on floats is transitive. *)
Lemma ltb_trans (a b c : float) :
  (a <? b)%float = true -> (b <? c)%float = true -> (a <? c)%float = true.
Proof.
  rewrite !ltb_rank.
  intros (ka & kb & Ha & Hb & Hab) (kb' & kc & Hb' & Hc & Hbc).
  assert (kb' = kb) by congruence. subst kb'.
  exists ka, kc. split; [exact Ha|]. split; [exact Hc|].
  destruct ka as [[a1 a2] a3], kb as [[b1 b2] b3], kc as [[c1 c2] c3].
  unfold lex_lt in *. lia.
Qed.

(** Floats that are not NaN are ordered totally: when neither of three
    is below the next, the first is not below the last. *)
Lemma not_ltb_trans (a b c : float) :
  is_Some (rank (Prim2SF a)) -> is_Some (rank (Prim2SF b)) -> is_Some (rank (Prim2SF c)) ->
  (a <? b)%float = false -> (b <? c)%float = false -> (a <? c)%float = false.
Proof.
  intros [ka Ha] [kb Hb] [kc Hc] Hab Hbc.
  apply not_true_iff_false. rewrite ltb_rank.
  apply not_true_iff_false in Hab, Hbc. rewrite ltb_rank in Hab, Hbc.
  intros (ka' & kc' & Ha' & Hc' & Hac).
  assert (ka' = ka) by congruence. assert (kc' = kc) by congruence. subst ka' kc'.
  assert (Hab' : ~ lex_lt ka kb) by (intros H; apply Hab; eauto 6).
  assert (Hbc' : ~ lex_lt kb kc) by (intros H; apply Hbc; eauto 6).
  destruct ka as [[a1 a2] a3], kb as [[b1 b2] b3], kc as [[c1 c2] c3].
  unfold lex_lt in *. lia.
Qed.

Lemma ltb_ranked_l (a b : float) : (a <? b)%float = true -> is_Some (rank (Prim2SF a)).
Proof. rewrite ltb_rank. intros (ka & _ & Ha & _). eauto. Qed.

Lemma ltb_ranked_r (a b : float) : (a <? b)%float = true -> is_Some (rank (Prim2SF b)).
Proof. rewrite ltb_rank. intros (_ & kb & _ & Hb & _). eauto. Qed.

End FloatOrder.

(** ** The monitored tokens, the best opportunity and the scan *)

Module ScannerExtra.
Import Scanner PyFacts ScannerFacts.

Lemma list_remove_snoc x l : x ∉ l -> Py.list_remove x (l ++ [x]) = l.
Proof.
  induction l as [|y l IH]; intros Hnot; simpl.
  - rewrite String.eqb_refl. reflexivity.
  - destruct (String.eqb_spec y x) as [->|Hne]; [set_solver|].
    rewrite IH by set_solver. reflexivity.
Qed.

Lemma elem_of_list_remove x l t :
  NoDup l -> t ∈ Py.list_remove x l <-> t ∈ l /\ t <> x.
Proof.
  induction l as [|y l IH]; intros Hnd; simpl; [set_solver|].
  apply NoDup_cons in Hnd as [Hy Hnd].
  destruct (String.eqb_spec y x) as [->|Hne].
  - set_solver.
  - rewrite !elem_of_cons, IH by exact Hnd. split; [|tauto].
    intros [->|[? ?]]; tauto.
Qed.

Lemma NoDup_list_remove x l : NoDup l -> NoDup (Py.list_remove x l).
Proof.
  induction l as [|y l IH]; intros Hnd; simpl; [constructor|].
  pose proof Hnd as Hnd'. apply NoDup_cons in Hnd as [Hy Hnd].
  destruct (String.eqb_spec y x) as [->|Hne]; [exact Hnd|].
  apply NoDup_cons. split; [|apply IH, Hnd].
  rewrite elem_of_list_remove by exact Hnd. tauto.
Qed.

Lemma add_monitor_token_known token st :
  token ∈ monitor_tokens st -> add_monitor_token token st = st.
Proof.
  intros Hin. unfold add_monitor_token. rewrite bool_decide_eq_true_2 by exact Hin. reflexivity.
Qed.

Lemma add_monitor_token_fresh token st :
  token ∉ monitor_tokens st ->
  add_monitor_token token st = set_monitor_tokens (monitor_tokens st ++ [token]) st.
Proof.
  intros Hnot. unfold add_monitor_token. rewrite bool_decide_eq_false_2 by exact Hnot.
  reflexivity.
Qed.

(** X7: [add_monitor_token] makes the token monitored, keeps the tokens
    already monitored in their order, adds nothing the second time and
    never makes a token appear twice. *)
Theorem add_monitor_token_keeps_tokens_distinct token st :
  token ∈ monitor_tokens (add_monitor_token token st)
  /\ add_monitor_token token (add_monitor_token token st) = add_monitor_token token st
  /\ (exists added, monitor_tokens (add_monitor_token token st) = monitor_tokens st ++ added)
  /\ (NoDup (monitor_tokens st) -> NoDup (monitor_tokens (add_monitor_token token st))).
Proof.
  destruct (decide (token ∈ monitor_tokens st)) as [Hin|Hnot].
  - rewrite !(add_monitor_token_known _ _ Hin).
    repeat split; [exact Hin| |tauto]. exists []. symmetry. apply app_nil_r.
  - rewrite (add_monitor_token_fresh _ _ Hnot).
    assert (Hin : token ∈ monitor_tokens (set_monitor_tokens (monitor_tokens st ++ [token]) st))
      by (simpl; set_solver).
    rewrite (add_monitor_token_known _ _ Hin). simpl.
    repeat split; [set_solver|eauto|].
    intros Hnd. apply NoDup_app. repeat split; [exact Hnd|set_solver|apply NoDup_singleton].
Qed.

Lemma add_monitor_token_keeps_tokens_distinct_witness :
  NoDup (monitor_tokens scenario_A)
  /\ "0x2222222222222222222222222222222222222222"
     ∈ monitor_tokens (add_monitor_token "0x2222222222222222222222222222222222222222" scenario_A)
  /\ NoDup (monitor_tokens
              (add_monitor_token "0x2222222222222222222222222222222222222222" scenario_A)).
Proof.
  assert (Hnd : NoDup (monitor_tokens scenario_A)) by (apply NoDup_singleton).
  destruct (add_monitor_token_keeps_tokens_distinct
              "0x2222222222222222222222222222222222222222" scenario_A) as (Hin & _ & _ & Hk).
  split; [exact Hnd|]. split; [exact Hin|exact (Hk Hnd)].
Defined.

Lemma estimate_arbitrage_gas_nonzero st token buy sell :
  _estimate_arbitrage_gas st token buy sell <> 0.
Proof. rewrite estimate_arbitrage_gas_fallback. discriminate. Qed.

(** The token of an opportunity of a scan is a monitored one. *)
Lemma scan_token_monitored env st opp :
  opp ∈ scan_arbitrage_opportunities env st -> token_address opp ∈ monitor_tokens st.
Proof.
  unfold scan_arbitrage_opportunities. rewrite list_elem_of_bind.
  intros ([[na da] [nb db]] & Hin & _).
  destruct (available da && available db); [|set_solver].
  apply elem_of_scan_dex_pair in Hin as (token & Htok & Hscan).
  destruct (scan_token_address _ _ _ _ _ _ _ _ Hscan) as [<- _]. exact Htok.
Qed.

(** X8: every opportunity of a scan is for a monitored token and for
    two exchanges of the scanner that are available and both quote the
    token above zero; its gas estimate is never zero. *)
Theorem reported_opportunity_is_grounded env st opp :
  opp ∈ scan_arbitrage_opportunities env st ->
  token_address opp ∈ monitor_tokens st
  /\ gas_estimate opp <> 0
  /\ exists na da nb db pa pb,
       (na, da) ∈ dexes st /\ (nb, db) ∈ dexes st
       /\ available da = true /\ available db = true
       /\ get_token_price da (token_address opp) = Quote pa
       /\ get_token_price db (token_address opp) = Quote pb
       /\ (0 <? pa)%float = true /\ (0 <? pb)%float = true.
Proof.
  unfold scan_arbitrage_opportunities. rewrite list_elem_of_bind.
  intros ([[na da] [nb db]] & Hin & Hpair).
  apply elem_of_unordered_pairs in Hpair as [Ha Hb].
  destruct (available da) eqn:Hava; [|set_solver].
  destruct (available db) eqn:Havb; [|set_solver].
  simpl in Hin. apply elem_of_scan_dex_pair in Hin as (token & Htok & Hscan).
  destruct (scan_token_address _ _ _ _ _ _ _ _ Hscan) as [Haddr Hgas].
  destruct (scan_token_Some _ _ _ _ _ _ _ _ Hscan) as (pa & pb & Hpa & Hpb & H0a & H0b & _).
  subst token. split; [exact Htok|]. split.
  - rewrite Hgas. apply estimate_arbitrage_gas_nonzero.
  - exists na, da, nb, db, pa, pb. repeat split; assumption.
Qed.

Lemma reported_opportunity_is_grounded_witness :
  exists opp,
    opp ∈ scan_arbitrage_opportunities env_A scenario_A
    /\ token_address opp ∈ monitor_tokens scenario_A
    /\ gas_estimate opp <> 0.
Proof.
  assert (H : exists opp, opp ∈ scan_arbitrage_opportunities env_A scenario_A).
  { eexists. vm_compute. left. }
  destruct H as [opp Hopp]. exists opp. split; [exact Hopp|].
  destruct (reported_opportunity_is_grounded env_A scenario_A opp Hopp) as (H1 & H2 & _).
  split; assumption.
Defined.

(** X9: removing a token that was just added to a scanner that did not
    monitor it gives the scanner back; on tokens without repetition, a
    removed token is not monitored any more, the others stay, and no
    later scan reports an opportunity for it. *)
Theorem remove_monitor_token_round_trip token st :
  (token ∉ monitor_tokens st ->
   remove_monitor_token token (add_monitor_token token st) = st)
  /\ (NoDup (monitor_tokens st) ->
      (token ∉ monitor_tokens (remove_monitor_token token st))
      /\ NoDup (monitor_tokens (remove_monitor_token token st))
      /\ (forall t, t <> token ->
            t ∈ monitor_tokens (remove_monitor_token token st) <-> t ∈ monitor_tokens st)
      /\ forall env opp,
           opp ∈ scan_arbitrage_opportunities env (remove_monitor_token token st) ->
           token_address opp <> token).
Proof.
  split.
  - intros Hnot. rewrite (add_monitor_token_fresh _ _ Hnot). unfold remove_monitor_token.
    rewrite bool_decide_eq_true_2 by (simpl; set_solver). simpl.
    rewrite list_remove_snoc by exact Hnot. destruct st; reflexivity.
  - intros Hnd.
    assert (Hout : token ∉ monitor_tokens (remove_monitor_token token st)).
    { unfold remove_monitor_token. destruct (decide (token ∈ monitor_tokens st)) as [Hin|Hnot].
      - rewrite bool_decide_eq_true_2 by exact Hin. simpl.
        rewrite elem_of_list_remove by exact Hnd. tauto.
      - rewrite bool_decide_eq_false_2 by exact Hnot. exact Hnot. }
    split; [exact Hout|]. split; [|split].
    + unfold remove_monitor_token. destruct (bool_decide _); [|exact Hnd].
      simpl. apply NoDup_list_remove, Hnd.
    + intros t Hne. unfold remove_monitor_token.
      destruct (decide (token ∈ monitor_tokens st)) as [Hin|Hnot].
      * rewrite bool_decide_eq_true_2 by exact Hin. simpl.
        rewrite elem_of_list_remove by exact Hnd. tauto.
      * rewrite bool_decide_eq_false_2 by exact Hnot. tauto.
    + intros env opp Hopp Heq.
      pose proof (scan_token_monitored env _ opp Hopp) as Hmon.
      rewrite Heq in Hmon. exact (Hout Hmon).
Qed.

Lemma remove_monitor_token_round_trip_witness :
  ("0x2222222222222222222222222222222222222222" ∉ monitor_tokens scenario_A)
  /\ NoDup (monitor_tokens scenario_A)
  /\ remove_monitor_token "0x2222222222222222222222222222222222222222"
       (add_monitor_token "0x2222222222222222222222222222222222222222" scenario_A)
     = scenario_A
  /\ scan_arbitrage_opportunities env_A
       (remove_monitor_token "0x1111111111111111111111111111111111111111" scenario_A) = [].
Proof.
  assert (Hnot : "0x2222222222222222222222222222222222222222" ∉ monitor_tokens scenario_A).
  { intros Hin. apply list_elem_of_singleton in Hin. discriminate Hin. }
  assert (Hnd : NoDup (monitor_tokens scenario_A)) by (apply NoDup_singleton).
  split; [exact Hnot|]. split; [exact Hnd|]. split.
  - exact (proj1 (remove_monitor_token_round_trip
                    "0x2222222222222222222222222222222222222222" scenario_A) Hnot).
  - destruct (proj2 (remove_monitor_token_round_trip
                       "0x1111111111111111111111111111111111111111" scenario_A) Hnd)
      as (_ & _ & _ & Hscan).
    destruct (scan_arbitrage_opportunities env_A
                (remove_monitor_token "0x1111111111111111111111111111111111111111" scenario_A))
      as [|opp rest] eqn:E; [reflexivity|].
    exfalso. revert E. vm_compute. discriminate.
Defined.

(** [max(l, key=f)] on keys that are not NaN: an item of the list, and
    no item has a greater key. *)
Lemma max_key_spec {A : Type} (key : A -> float) (rest : list A) : forall first,
  Forall (fun o => is_Some (FloatOrder.rank (Prim2SF (key o)))) (first :: rest) ->
  Py.max_key key first rest ∈ first :: rest
  /\ Forall (fun o => (key (Py.max_key key first rest) <? key o)%float = false) (first :: rest).
Proof.
  induction rest as [|x rest IH]; intros first Hrank.
  - unfold Py.max_key. simpl. split; [left|]. constructor; [|constructor].
    destruct (key first <? key first)%float eqn:E; [|reflexivity].
    pose proof (FloatFacts.ltb_asym _ _ E). congruence.
  - change (Py.max_key key first (x :: rest))
      with (Py.max_key key (if Py.gt (key x) (key first) then x else first) rest).
    apply Forall_cons in Hrank as [Hf Hrank]. apply Forall_cons in Hrank as [Hx Hrank].
    set (first' := if Py.gt (key x) (key first) then x else first).
    assert (Hf' : is_Some (FloatOrder.rank (Prim2SF (key first'))))
      by (unfold first'; destruct (Py.gt _ _); assumption).
    destruct (IH first') as [Hin Hmax]; [constructor; assumption|].
    set (b := Py.max_key key first' rest) in *.
    apply Forall_cons in Hmax as [Hb' Hmax].
    assert (Hb : is_Some (FloatOrder.rank (Prim2SF (key b)))).
    { apply elem_of_cons in Hin as [->|Hin]; [exact Hf'|].
      rewrite Forall_forall in Hrank. apply Hrank, Hin. }
    split.
    + apply elem_of_cons in Hin as [Hin|Hin].
      * rewrite Hin. unfold first'. destruct (Py.gt _ _); set_solver.
      * set_solver.
    + unfold first', Py.gt in Hb'. destruct (key first <? key x)%float eqn:E.
      * pose proof (FloatFacts.ltb_asym _ _ E) as E'.
        repeat (constructor; try assumption).
        exact (FloatOrder.not_ltb_trans _ _ _ Hb Hx Hf Hb' E').
      * repeat (constructor; try assumption).
        exact (FloatOrder.not_ltb_trans _ _ _ Hb Hf Hx Hb' E).
Qed.

(** X10: [get_best_opportunity] answers [None] exactly when no cached
    opportunity is executable with a net profit above zero; otherwise it
    returns such an opportunity of the cache, and no such opportunity of
    the cache has a greater net profit. *)
Theorem get_best_opportunity_is_a_maximum st :
  match get_best_opportunity st with
  | None =>
    Forall (fun o => is_executable o && Py.gt (net_profit o) 0 = false)
      (recent_opportunities st)
  | Some best =>
    best ∈ recent_opportunities st
    /\ is_executable best = true
    /\ (0 <? net_profit best)%float = true
    /\ forall o, o ∈ recent_opportunities st ->
         is_executable o = true -> (0 <? net_profit o)%float = true ->
         (net_profit best <? net_profit o)%float = false
  end.
Proof.
  unfold get_best_opportunity. cbv zeta.
  set (keep := fun opp => is_executable opp && Py.gt (net_profit opp) 0).
  assert (Hmem : forall o, o ∈ List.filter keep (recent_opportunities st)
                           <-> o ∈ recent_opportunities st /\ keep o = true).
  { intros o. rewrite !list_elem_of_In. apply List.filter_In. }
  destruct (List.filter keep (recent_opportunities st)) as [|first rest].
  - apply Forall_forall. intros o Ho. destruct (keep o) eqn:E; [|exact E].
    exfalso. apply (elem_of_nil o). apply Hmem. split; assumption.
  - assert (Hrank : Forall (fun o => is_Some (FloatOrder.rank (Prim2SF (net_profit o))))
                      (first :: rest)).
    { apply Forall_forall. intros o Ho. apply Hmem in Ho as [_ Ho].
      apply andb_prop in Ho as [_ Ho]. exact (FloatOrder.ltb_ranked_r _ _ Ho). }
    destruct (max_key_spec net_profit rest first Hrank) as [Hin Hmax].
    apply Hmem in Hin as [Hin Hkeep]. apply andb_prop in Hkeep as [He Hp].
    repeat split; try assumption.
    intros o Ho Hoe Hop. rewrite Forall_forall in Hmax. apply Hmax, Hmem.
    split; [exact Ho|]. unfold keep, Py.gt. rewrite Hoe, Hop. reflexivity.
Qed.

(** What the loop lets into the cache. *)
Definition cached_well (o : ArbitrageOpportunity) : Prop :=
  is_executable o = true
  /\ (Config.MIN_PROFIT_THRESHOLD <? profit_percentage o)%float = true
  /\ (min_executable_profit <? net_profit o)%float = true.

Lemma scan_loop_iteration_cached_well env st :
  Forall cached_well (recent_opportunities st) ->
  Forall cached_well (recent_opportunities (scan_loop_iteration env st)).
Proof.
  intros Hall. unfold scan_loop_iteration.
  assert (Hnew : Forall cached_well
                   (List.filter profitable (scan_arbitrage_opportunities env st))).
  { apply Forall_forall. intros o Ho. apply list_elem_of_In, List.filter_In in Ho as [Ho Hp].
    apply list_elem_of_In, elem_of_scan in Ho as (da & db & na & nb & token & Hscan).
    destruct (scan_token_Some _ _ _ _ _ _ _ _ Hscan)
      as (pa & pb & _ & _ & _ & _ & _ & _ & Hexe & _).
    unfold profitable, Py.gt in Hp. apply andb_prop in Hp as [Hpct He].
    repeat split; [exact He|exact Hpct|]. rewrite <- Hexe. exact He. }
  destruct (List.filter profitable _) as [|o os] eqn:Hf; [exact Hall|].
  assert (Hext : Forall cached_well (recent_opportunities st ++ o :: os))
    by (apply Forall_app; split; assumption).
  destruct (_ >? _); simpl; [|exact Hext].
  unfold Py.slice_last, Py.slice_from. apply Forall_drop. exact Hext.
Qed.

(** X11: from an empty cache on, the scan loop only ever caches
    opportunities that are executable, with a spread above the threshold
    and a net profit above the floor; so the best opportunity is missing
    only when the cache is empty. *)
Theorem scan_loop_caches_executable_only envs st :
  recent_opportunities st = [] ->
  Forall (fun o =>
            is_executable o = true
            /\ (Config.MIN_PROFIT_THRESHOLD <? profit_percentage o)%float = true
            /\ (min_executable_profit <? net_profit o)%float = true)
    (recent_opportunities (scan_loop envs st))
  /\ (get_best_opportunity (scan_loop envs st) = None
      <-> recent_opportunities (scan_loop envs st) = []).
Proof.
  intros Hempty.
  assert (Hall : Forall cached_well (recent_opportunities (scan_loop envs st))).
  { assert (H0 : Forall cached_well (recent_opportunities st)) by (rewrite Hempty; constructor).
    clear Hempty. revert st H0. induction envs as [|e envs IH]; intros st H0; [exact H0|].
    cbn [scan_loop]. apply IH, scan_loop_iteration_cached_well, H0. }
  split; [exact Hall|].
  unfold get_best_opportunity. cbv zeta.
  destruct (recent_opportunities (scan_loop envs st)) as [|o os]; [split; reflexivity|].
  apply Forall_cons in Hall as [(He & _ & Hn) _].
  assert (Hp : (0 <? net_profit o)%float = true).
  { apply (FloatOrder.ltb_trans 0 min_executable_profit); [reflexivity|exact Hn]. }
  simpl. unfold Py.gt. rewrite He, Hp. simpl. split; discriminate.
Qed.

(** X11 on scenario A, where one turn of the loop caches the
    opportunity of the two quotes. *)
Lemma scan_loop_caches_executable_only_witness :
  recent_opportunities scenario_A = []
  /\ recent_opportunities (scan_loop [env_A] scenario_A) = [opportunity_A]
  /\ Forall (fun o =>
               is_executable o = true
               /\ (Config.MIN_PROFIT_THRESHOLD <? profit_percentage o)%float = true
               /\ (min_executable_profit <? net_profit o)%float = true)
       (recent_opportunities (scan_loop [env_A] scenario_A))
  /\ (get_best_opportunity (scan_loop [env_A] scenario_A) = None
      <-> recent_opportunities (scan_loop [env_A] scenario_A) = []).
Proof.
  split; [reflexivity|]. split; [vm_compute; reflexivity|].
  exact (scan_loop_caches_executable_only [env_A] scenario_A eq_refl).
Defined.

(** The scanner of [main.py]: Kumbaya and PrismFi. *)
Definition with_prismfi (kumbaya : DEX) (p : PrismFi.PrismFiDEX)
    (node_estimate : Z -> list string -> string -> option Z) : MultiDEXScanner :=
  init kumbaya (PrismFi.as_dex p node_estimate).

Lemma scan_token_prismfi env st da p est na nb token :
  scan_token env st da (PrismFi.as_dex p est) na nb token = None.
Proof.
  unfold scan_token. destruct (get_token_price da token); try reflexivity.
  simpl. unfold PrismFi.get_token_price. destruct (negb _); reflexivity.
Qed.

(** X12: with PrismFi as the second exchange, whose price query is a
    placeholder, a scan finds nothing, whatever Kumbaya quotes and
    whatever tokens are monitored, and the scan loop leaves the scanner
    as it is. *)
Theorem prismfi_placeholder_yields_no_opportunity env envs st kumbaya p est :
  dexes st = [("kumbaya", kumbaya); ("prismfi", PrismFi.as_dex p est)] ->
  scan_arbitrage_opportunities env st = []
  /\ scan_loop envs st = st.
Proof.
  intros Hd.
  assert (Hscan : forall e, scan_arbitrage_opportunities e st = []).
  { intros e. unfold scan_arbitrage_opportunities. rewrite Hd. simpl.
    rewrite app_nil_r. destruct (available kumbaya && _); [|reflexivity].
    unfold _scan_dex_pair. induction (monitor_tokens st) as [|t ts IH]; [reflexivity|].
    simpl. rewrite scan_token_prismfi. exact IH. }
  split; [apply Hscan|].
  induction envs as [|e envs IH]; [reflexivity|].
  cbn [scan_loop]. unfold scan_loop_iteration. rewrite Hscan. simpl. exact IH.
Qed.

Lemma prismfi_placeholder_yields_no_opportunity_witness :
  dexes (add_monitor_token "0x1111111111111111111111111111111111111111"
           (with_prismfi (exchange 1 25000)
              (PrismFi.init "0x8268DC930BA98759E916DEd4c9F367A844814023"
                 "0x8268DC930BA98759E916DEd4c9F367A844814023")
              (fun _ _ _ => Some 25000)))
  = [("kumbaya", exchange 1 25000);
     ("prismfi", PrismFi.as_dex
                   (PrismFi.init "0x8268DC930BA98759E916DEd4c9F367A844814023"
                      "0x8268DC930BA98759E916DEd4c9F367A844814023")
                   (fun _ _ _ => Some 25000))]
  /\ scan_arbitrage_opportunities env_A
       (add_monitor_token "0x1111111111111111111111111111111111111111"
          (with_prismfi (exchange 1 25000)
             (PrismFi.init "0x8268DC930BA98759E916DEd4c9F367A844814023"
                "0x8268DC930BA98759E916DEd4c9F367A844814023")
             (fun _ _ _ => Some 25000))) = [].
Proof.
  split; [reflexivity|].
  apply (prismfi_placeholder_yields_no_opportunity env_A [] _ (exchange 1 25000)
           (PrismFi.init "0x8268DC930BA98759E916DEd4c9F367A844814023"
              "0x8268DC930BA98759E916DEd4c9F367A844814023")
           (fun _ _ _ => Some 25000)).
  reflexivity.
Defined.

End ScannerExtra.

(** ** Cancellation, the stored results and the queue of the executor *)

Module ExecutorExtra.
Import Executor ExecutorFacts.


(** An execution touches neither the queue nor the active requests. *)
Lemma execute_keeps_queue_and_active env req st :
  execution_queue (snd (_execute_snipe env req st)) = execution_queue st
  /\ active_snipes (snd (_execute_snipe env req st)) = active_snipes st.
Proof.
  unfold _execute_snipe.
  destruct (_pre_execution_checks env st req); [|split; reflexivity].
  destruct (get_token_info env (token_address req)) as [[symbol|]|msg];
    try (split; reflexivity).
  destruct (prepare env st req symbol) as [failed|[key result]]; split; reflexivity.
Qed.


(** The executors that the operations of the class reach from a new
    one. *)
Inductive reachable : SniperExecutor -> Prop :=
| reach_init : reachable init
| reach_submit req st id st' :
    reachable st -> submit_snipe req st = Submitted id st' -> reachable st'
| reach_suspended req st st' :
    reachable st -> submit_snipe req st = Suspended st' -> reachable st'
| reach_loop env st : reachable st -> reachable (execution_loop_step env st)
| reach_cancel id st : reachable st -> reachable (snd (cancel_snipe st id))
| reach_clear st : reachable st -> reachable (clear_cache st)
| reach_max_gas_price price st : reachable st -> reachable (set_max_gas_price price st)
| reach_multiplier m st : reachable st -> reachable (set_priority_fee_multiplier m st).

(** X14: whatever was submitted, executed, cancelled or reconfigured
    since the executor was created, no result is stored and
    [get_snipe_status] answers [None] for every id: each execution ends
    in a failure, which is returned to the loop and not stored. *)
Theorem status_is_none_in_every_reachable_state st id :
  reachable st ->
  snipe_results st = ∅ /\ get_snipe_status st id = None.
Proof.
  intros Hreach.
  assert (Hempty : snipe_results st = ∅).
  { induction Hreach as [|req st id' st' _ IH Hsub|req st st' _ IH Hsub|env st _ IH
                         |id' st _ IH|st _ IH|price st _ IH|m st _ IH].
    - reflexivity.
    - unfold submit_snipe in Hsub. destruct (request_id req); [|discriminate].
      destruct (Queue.put _ _); [|discriminate]. injection Hsub as _ <-. exact IH.
    - unfold submit_snipe in Hsub. destruct (request_id req); [|discriminate].
      destruct (Queue.put _ _); [discriminate|]. injection Hsub as <-. exact IH.
    - unfold execution_loop_step.
      destruct (Queue.get (execution_queue st)) as [[req q]|]; [|exact IH].
      rewrite (proj2 (execute_fails env req (set_queue q st))). exact IH.
    - unfold cancel_snipe. destruct (active_snipes st !! id'); exact IH.
    - reflexivity.
    - exact IH.
    - exact IH. }
  split; [exact Hempty|]. unfold get_snipe_status. rewrite Hempty. apply lookup_empty.
Qed.

(** X14 on a request that is submitted and then executed with
    collaborators that refuse nothing: the execution returns the failure
    of the missing [Config.WETH_ADDRESS], and the id has no status
    afterwards. *)
Lemma status_is_none_in_every_reachable_state_witness :
  submit_snipe first_request init
  = Submitted "snipe_7_1700000000"
      (set_queue (Queue.mk 0 [first_request])
         (set_active (<["snipe_7_1700000000" := first_request]> ∅) init))
  /\ error_message (fst (_execute_snipe approving first_request init))
     = Some "type object 'Config' has no attribute 'WETH_ADDRESS'"
  /\ reachable (execution_loop_step approving
                  (set_queue (Queue.mk 0 [first_request])
                     (set_active (<["snipe_7_1700000000" := first_request]> ∅) init)))
  /\ snipe_results
       (execution_loop_step approving
          (set_queue (Queue.mk 0 [first_request])
             (set_active (<["snipe_7_1700000000" := first_request]> ∅) init))) = ∅
  /\ get_snipe_status
       (execution_loop_step approving
          (set_queue (Queue.mk 0 [first_request])
             (set_active (<["snipe_7_1700000000" := first_request]> ∅) init)))
       "snipe_7_1700000000" = None.
Proof.
  assert (Hsub : submit_snipe first_request init
                 = Submitted "snipe_7_1700000000"
                     (set_queue (Queue.mk 0 [first_request])
                        (set_active (<["snipe_7_1700000000" := first_request]> ∅) init)))
    by (vm_compute; reflexivity).
  assert (Hreach : reachable (execution_loop_step approving
                     (set_queue (Queue.mk 0 [first_request])
                        (set_active (<["snipe_7_1700000000" := first_request]> ∅) init)))).
  { apply reach_loop. apply (reach_submit first_request init "snipe_7_1700000000").
    - apply reach_init.
    - exact Hsub. }
  split; [exact Hsub|]. split; [vm_compute; reflexivity|]. split; [exact Hreach|].
  exact (status_is_none_in_every_reachable_state _ "snipe_7_1700000000" Hreach).
Defined.

Lemma execution_loop_step_queue env st :
  Queue.items (execution_queue (execution_loop_step env st))
  = drop 1 (Queue.items (execution_queue st))
  /\ Queue.maxsize (execution_queue (execution_loop_step env st))
     = Queue.maxsize (execution_queue st)
  /\ active_snipes (execution_loop_step env st) = active_snipes st.
Proof.
  unfold execution_loop_step, Queue.get.
  destruct (execution_queue st) as [cap items] eqn:Hq. simpl.
  destruct items as [|req rest]; [rewrite Hq; repeat split|].
  destruct (execute_keeps_queue_and_active env req (set_queue (Queue.mk cap rest) st))
    as [-> ->].
  repeat split.
Qed.

(** X15: each turn of the execution loop takes the oldest waiting
    request off the queue, whether its execution succeeds or fails, and
    puts nothing back; the turns never change the active requests. *)
Theorem execution_loop_consumes_in_order envs st :
  Queue.items (execution_queue (execution_loop envs st))
  = drop (length envs) (Queue.items (execution_queue st))
  /\ active_snipes (execution_loop envs st) = active_snipes st.
Proof.
  revert st. induction envs as [|env envs IH]; intros st; [split; reflexivity|].
  cbn [execution_loop length]. destruct (IH (execution_loop_step env st)) as [-> ->].
  destruct (execution_loop_step_queue env st) as (-> & _ & ->).
  split; [|reflexivity]. rewrite drop_drop. reflexivity.
Qed.

Fixpoint has_char (c : Ascii.ascii) (s : string) : bool :=
  match s with
  | EmptyString => false
  | String a rest => Ascii.eqb a c || has_char c rest
  end.

Lemma pretty_N_go_no_underscore x s :
  has_char "_" (pretty_N_go x s) = has_char "_" s.
Proof.
  revert s. induction (N.lt_wf_0 x) as [x _ IH]; intros s.
  assert (x = 0 \/ 0 < x)%N as [->|Hpos] by lia.
  - rewrite pretty_N_go_0. reflexivity.
  - rewrite pretty_N_go_step by exact Hpos. rewrite IH by (apply N.div_lt; lia).
    simpl. unfold pretty_N_char. repeat case_match; reflexivity.
Qed.

Lemma pretty_Z_no_underscore (z : Z) : has_char "_" (pretty z) = false.
Proof.
  assert (HN : forall n : N, has_char "_" (pretty n) = false).
  { intros n. unfold pretty, pretty_N. destruct (decide (n = 0%N)); [reflexivity|].
    apply pretty_N_go_no_underscore. }
  destruct z as [|p|p]; [reflexivity|exact (HN (N.pos p))|].
  change (has_char "_" ("-" +:+ pretty (N.pos p)) = false). simpl. exact (HN (N.pos p)).
Qed.

Lemma append_cons a s t : String a s +:+ t = String a (s +:+ t).
Proof. reflexivity. Qed.

(** Two texts without underscore, each followed by an underscore and a
    rest, are told apart by the first underscore. *)
Lemma split_at_underscore s1 : forall s2 t1 t2,
  has_char "_" s1 = false -> has_char "_" s2 = false ->
  s1 +:+ String "_" t1 = s2 +:+ String "_" t2 -> s1 = s2 /\ t1 = t2.
Proof.
  induction s1 as [|a s1 IH]; intros [|b s2] t1 t2 H1 H2 Heq;
    rewrite ?append_cons in Heq; change ("" +:+ ?x) with x in Heq; simpl in H1, H2.
  - injection Heq as Heq. subst t2. split; reflexivity.
  - injection Heq as Hb _. subst b. discriminate H2.
  - injection Heq as Ha _. subst a. discriminate H1.
  - injection Heq as Hab Heq. subst b. apply orb_false_elim in H1 as [_ H1].
    apply orb_false_elim in H2 as [_ H2].
    destruct (IH s2 t1 t2 H1 H2 Heq) as [Hs Ht]. subst. split; reflexivity.
Qed.

(** X22: a request id names one user and one second: a second request
    gets the id of a first one exactly when it comes from the same user
    within the same second. *)
Theorem request_id_names_user_and_second r1 r2 id :
  request_id r1 = Py.Ok id ->
  request_id r2 = Py.Ok id
  <-> user_id r2 = user_id r1
      /\ Py.int_timestamp (request_time r2) = Py.int_timestamp (request_time r1).
Proof.
  unfold request_id. intros H1.
  destruct (Py.int_timestamp (request_time r1)) as [secs1|msg1]; [|discriminate].
  injection H1 as <-. split.
  - destruct (Py.int_timestamp (request_time r2)) as [secs2|msg2]; [|discriminate].
    intros [= Heq].
    apply (split_at_underscore (pretty (user_id r2)) (pretty (user_id r1))
             (pretty secs2) (pretty secs1)) in Heq as [Hu Hs];
      try apply pretty_Z_no_underscore.
    apply (inj pretty) in Hu, Hs. split; [exact Hu|rewrite Hs; reflexivity].
  - intros [-> ->]. reflexivity.
Qed.

Lemma request_id_names_user_and_second_witness :
  request_id first_request = Py.Ok "snipe_7_1700000000"
  /\ (request_id second_request = Py.Ok "snipe_7_1700000000"
      <-> user_id second_request = user_id first_request
          /\ Py.int_timestamp (request_time second_request)
             = Py.int_timestamp (request_time first_request)).
Proof.
  assert (H : request_id first_request = Py.Ok "snipe_7_1700000000") by (vm_compute; reflexivity).
  split; [exact H|].
  exact (request_id_names_user_and_second first_request second_request "snipe_7_1700000000" H).
Defined.

End ExecutorExtra.

(** ** Amounts and prices that a float holds exactly *)

Module NumericExtra.
Import Binary64 KumbayaFacts.

(** An integer below [2 ^ 53] is a number of the format. *)
Lemma rnd_small_int z : 0 <= z < 2 ^ 53 -> rnd (IZR z) (IZR z).
Proof.
  intros [H0 Hlt]. destruct (Z.eq_dec z 0) as [->|Hne]; [exact rnd_zero|].
  assert (Hz : 0 < z) by lia.
  pose proof (Zdigits2_bounds z Hz) as [Hlo Hhi].
  pose proof (Zdigits2_pos z Hz) as Hd0.
  assert (Hd : Zdigits2 z <= 53) by (apply Zdigits2_le; lia).
  set (d := Zdigits2 z) in *.
  assert (Hp : 0 < 2 ^ (53 - d)) by (apply Z.pow_pos_nonneg; lia).
  assert (Hc : canonical prec emax (z * 2 ^ (53 - d)) (d - 53)).
  { unfold canonical, SpecFloat.emin. change prec with 53. change emax with 1024.
    split; [nia|]. split; [lia|]. split.
    - replace (2 ^ 53) with (2 ^ d * 2 ^ (53 - d))
        by (rewrite <- Z.pow_add_r by lia; f_equal; lia).
      nia.
    - intros _. replace (2 ^ (53 - 1)) with (2 ^ (d - 1) * 2 ^ (53 - d))
        by (rewrite <- Z.pow_add_r by lia; f_equal; lia).
      nia. }
  assert (H : rnd (IZR (z * 2 ^ (53 - d)) * bpow (d - 53)) (IZR (z * 2 ^ (53 - d)) * bpow (d - 53)))
    by (apply rnd_to_canonical; try format; exact Hc).
  replace (IZR (z * 2 ^ (53 - d)) * bpow (d - 53))%R with (IZR z) in H; [exact H|].
  rewrite mult_IZR, <- (bpow_IZR (53 - d)), Rmult_assoc, <- bpow_add by lia.
  replace (53 - d + (d - 53)) with 0 by lia. rewrite bpow_0. ring.
Qed.

(** [float(z)] is exact below [2 ^ 53]. *)
Lemma float_of_Z_small z :
  0 <= z < 2 ^ 53 ->
  exists f, Py.float_of_Z z = Py.Ok f /\ finite f /\ B2R f = IZR z.
Proof.
  intros Hz. pose proof (rnd_small_int z Hz) as Hrnd.
  assert (Hres : result (binary_normalize prec emax z 0 false) (IZR z)).
  { replace (IZR z) with (IZR z * bpow 0)%R by (rewrite bpow_0; ring).
    apply binary_normalize_spec; format. }
  assert (Hz0 : (0 <= IZR z)%R) by (apply IZR_le; lia).
  assert (Hfin : finite_or_zero (binary_normalize prec emax z 0 false)).
  { apply (result_finite _ _ (IZR z) Hres Hrnd).
    - rewrite Rabs_pos_eq by exact Hz0. lra.
    - apply Rlt_le_trans with (bpow 53).
      + rewrite (bpow_IZR 53) by lia. apply IZR_lt. lia.
      + apply bpow_le. change emax with 1024. lia. }
  assert (Hok : Py.float_of_Z z = Py.Ok (SF2Prim (binary_normalize prec emax z 0 false))).
  { unfold Py.float_of_Z.
    destruct (binary_normalize prec emax z 0 false); try reflexivity; contradiction. }
  exists (SF2Prim (binary_normalize prec emax z 0 false)). split; [exact Hok|].
  destruct (float_of_Z_value _ _ Hok) as [Hf Hv]. split; [exact Hf|].
  apply Rle_antisym.
  - apply (srnd_mono (IZR z) (IZR z)); [lra|exact Hv|left; split; assumption].
  - apply (srnd_mono (IZR z) (IZR z)); [lra|left; split; assumption|exact Hv].
Qed.

(** A float between two numbers is a number. *)
Lemma leb_finite lo x hi :
  (lo <=? x)%float = true -> (x <=? hi)%float = true ->
  finite lo -> finite hi -> finite x.
Proof.
  unfold finite. rewrite !FloatAxioms.leb_spec. unfold SFleb.
  destruct (Prim2SF lo) as [sl|sl| |sl ml el]; try contradiction;
    destruct (Prim2SF hi) as [sh|sh| |sh mh eh]; try contradiction;
    destruct (Prim2SF x) as [sx|sx| |sx mx ex];
    try (intros _ _ _ _; exact I);
    unfold SFcompare; simpl finite_or_zero;
    try destruct sl; try destruct sh; try destruct sx;
    try discriminate; intros; exfalso; discriminate.
Qed.

Lemma B2R_1000 : B2R 1000 = 1000%R.
Proof.
  unfold B2R. change (Prim2SF 1000) with (S754_finite false 8796093022208000 (-43)).
  unfold SF2R.
  assert (H : (bpow (-43) * bpow 43 = 1)%R) by (rewrite <- bpow_add; reflexivity).
  rewrite (bpow_IZR 43) in H by lia. change (2 ^ 43) with 8796093022208 in H. lra.
Qed.

Lemma B2R_two63 : B2R 9223372036854775808 = 9223372036854775808%R.
Proof.
  unfold B2R.
  change (Prim2SF 9223372036854775808) with (S754_finite false 4503599627370496 11).
  unfold SF2R. rewrite (bpow_IZR 11) by lia. change (2 ^ 11) with 2048. lra.
Qed.

Lemma rnd_two63 : rnd 9223372036854775808 9223372036854775808.
Proof.
  pose proof (rnd_abs_B2R 9223372036854775808 I) as H.
  rewrite B2R_two63, Rabs_pos_eq in H by lra. exact H.
Qed.

Lemma two63_lt_emax : (9223372036854775808 < bpow emax)%R.
Proof.
  pose proof (abs_B2R_lt_emax 9223372036854775808) as H.
  rewrite B2R_two63, Rabs_pos_eq in H by lra. exact H.
Qed.

(** X16: when the node gives a gas price below [2 ^ 53] and the
    priority multiplier is between 1 and 1000 (1.2 unless changed), the
    price chosen for a transaction is not below the node's price, unless
    the cap is, and never above the cap. *)
Theorem optimal_gas_price_within_bounds env st base :
  Executor.gas_price_build env = Py.Ok base ->
  0 <= base < 2 ^ 53 ->
  (1 <=? Executor.priority_fee_multiplier st)%float = true ->
  (Executor.priority_fee_multiplier st <=? 1000)%float = true ->
  Z.min base (Executor.max_gas_price st) <= Executor._get_optimal_gas_price env st
  /\ Executor._get_optimal_gas_price env st <= Executor.max_gas_price st.
Proof.
  intros Hbase Hrange H1 H1000. unfold Executor._get_optimal_gas_price. rewrite Hbase.
  destruct (float_of_Z_small base Hrange) as (b & -> & Hb & Hvb).
  set (m := Executor.priority_fee_multiplier st) in *.
  assert (Hm : finite m) by (apply (leb_finite 1 m 1000); try assumption; exact I).
  pose proof (leb_value 1 m I Hm H1) as Hm1. rewrite B2R_1 in Hm1.
  pose proof (leb_value m 1000 Hm I H1000) as Hm2. rewrite B2R_1000 in Hm2.
  assert (Hb0 : (0 <= B2R b)%R) by (rewrite Hvb; apply IZR_le; lia).
  assert (Hb53 : (B2R b <= 9007199254740992)%R) by (rewrite Hvb; apply IZR_le; lia).
  pose proof (mul_step b m Hb Hm) as Hmul.
  assert (Hp : finite (b * m)).
  { apply (result_finite _ _ _ Hmul rnd_two63); [|exact two63_lt_emax].
    rewrite Rabs_pos_eq by nra.
    apply Rle_trans with (9007199254740992 * 1000)%R; [|lra].
    apply Rmult_le_compat; lra. }
  pose proof (result_srnd _ _ Hmul Hp) as Hv. fold (B2R (b * m)) in Hv.
  assert (Hge : (B2R b <= B2R (b * m))%R).
  { apply (srnd_mono (B2R b) (B2R b * B2R m)); [nra|apply srnd_B2R, Hb|exact Hv]. }
  destruct (int_of_float_trunc _ Hp) as (z & -> & Hz & _).
  specialize (Hz ltac:(lra)).
  assert (Hbz : base <= z).
  { assert (H : (IZR base < IZR (z + 1))%R) by (rewrite plus_IZR; lra).
    apply lt_IZR in H. lia. }
  lia.
Qed.

Lemma optimal_gas_price_within_bounds_witness :
  Executor.gas_price_build ExecutorFacts.approving = Py.Ok 1000000000
  /\ 0 <= 1000000000 < 2 ^ 53
  /\ (1 <=? Executor.priority_fee_multiplier Executor.init)%float = true
  /\ (Executor.priority_fee_multiplier Executor.init <=? 1000)%float = true
  /\ Z.min 1000000000 (Executor.max_gas_price Executor.init)
     <= Executor._get_optimal_gas_price ExecutorFacts.approving Executor.init
  /\ Executor._get_optimal_gas_price ExecutorFacts.approving Executor.init
     <= Executor.max_gas_price Executor.init.
Proof.
  assert (Hr : 0 <= 1000000000 < 2 ^ 53) by lia.
  split; [reflexivity|]. split; [exact Hr|]. split; [reflexivity|]. split; [reflexivity|].
  exact (optimal_gas_price_within_bounds ExecutorFacts.approving Executor.init 1000000000
           eq_refl Hr eq_refl eq_refl).
Defined.

(** A quote and the router that returns it. *)
Definition quoting (expected_out : Z) (amount_in : Z) (path : list string)
  : option (list Z) := Some [amount_in; expected_out].

(** X17: for a quote below [2 ^ 53] and a slippage between 0 and 100,
    the minimum output is between 0 and the quote. *)
Theorem min_out_within_quote router amount_in path a rest s :
  router amount_in path = Some (a :: rest) ->
  0 <= List.last rest a < 2 ^ 53 ->
  (0 <=? s)%float = true -> (s <=? 100)%float = true ->
  0 <= Kumbaya.calculate_slippage router amount_in path s <= List.last rest a.
Proof.
  intros Hr Hq H0 H100.
  unfold Kumbaya.calculate_slippage, Kumbaya.calculate_slippage_try. rewrite Hr. cbv zeta.
  destruct (float_of_Z_small _ Hq) as (e & -> & He & Hve).
  assert (Hs : finite s) by (apply (leb_finite 0 s 100); try assumption; exact I).
  pose proof (leb_value 0 s I Hs H0) as Hs0. rewrite B2R_0 in Hs0.
  pose proof (leb_value s 100 Hs finite_100 H100) as Hs100. rewrite B2R_100 in Hs100.
  destruct (multiplier_range s Hs ltac:(lra)) as [Hm Hmr].
  assert (He0 : (0 <= B2R e)%R) by (rewrite Hve; apply IZR_le; lia).
  assert (Hp : finite (e * ((100 - s) / 100))).
  { apply product_range; [assumption..|]. apply Rabs_le. lra. }
  pose proof (result_srnd _ _ (mul_step e _ He Hm) Hp) as Hv.
  fold (B2R (e * ((100 - s) / 100))) in Hv.
  assert (Hlo : (0 <= B2R (e * ((100 - s) / 100)))%R).
  { apply (srnd_nonneg (B2R e * B2R ((100 - s) / 100))); [nra|exact Hv]. }
  assert (Hhi : (B2R (e * ((100 - s) / 100)) <= B2R e)%R).
  { apply (srnd_mono (B2R e * B2R ((100 - s) / 100)) (B2R e)); [nra|exact Hv|].
    apply srnd_B2R, He. }
  destruct (int_of_float_trunc _ Hp) as (z & -> & Hz & _). specialize (Hz Hlo).
  rewrite Hve in Hhi. split.
  - assert (H : (IZR (-1) < IZR z)%R) by lra. apply lt_IZR in H. lia.
  - apply le_IZR. lra.
Qed.

Lemma min_out_within_quote_witness :
  quoting 1000000000000000 1 [] = Some [1; 1000000000000000]
  /\ 0 <= List.last [1000000000000000] 1 < 2 ^ 53
  /\ (0 <=? 2.5)%float = true /\ (2.5 <=? 100)%float = true
  /\ 0 <= Kumbaya.calculate_slippage (quoting 1000000000000000) 1 [] 2.5
     <= List.last [1000000000000000] 1.
Proof.
  assert (Hq : 0 <= List.last [1000000000000000] 1 < 2 ^ 53) by (simpl; lia).
  split; [reflexivity|]. split; [exact Hq|]. split; [reflexivity|]. split; [reflexivity|].
  exact (min_out_within_quote (quoting 1000000000000000) 1 [] 1 [1000000000000000] 2.5
           eq_refl Hq eq_refl eq_refl).
Defined.

(** X18: at 100 percent the minimum output is 0 for every quote; at
    0 percent it is the quote itself when the quote is below [2 ^ 53],
    and it can be above the quote beyond: for a quote of
    [10 ^ 18 + 100] it is [10 ^ 18 + 128]. *)
Theorem min_out_at_the_ends router amount_in path :
  Kumbaya.calculate_slippage router amount_in path 100 = 0
  /\ (forall a rest,
        router amount_in path = Some (a :: rest) ->
        0 <= List.last rest a < 2 ^ 53 ->
        Kumbaya.calculate_slippage router amount_in path 0 = List.last rest a)
  /\ Kumbaya.calculate_slippage (quoting 1000000000000000100) amount_in path 0
     = 1000000000000000128.
Proof.
  split; [|split].
  - unfold Kumbaya.calculate_slippage, Kumbaya.calculate_slippage_try.
    destruct (router amount_in path) as [[|a rest]|]; try reflexivity. cbv zeta.
    destruct (Py.float_of_Z (List.last rest a)) as [e|msg] eqn:He; [|reflexivity].
    destruct (float_of_Z_value _ _ He) as [Hfe _].
    change ((100 - 100) / 100)%float with 0%float.
    unfold Py.int_of_float. rewrite mul_spec. unfold finite in Hfe.
    change (Prim2SF 0) with (S754_zero false).
    destruct (Prim2SF e) as [se|se| |se me ee]; try contradiction; reflexivity.
  - intros a rest Hr Hq.
    unfold Kumbaya.calculate_slippage, Kumbaya.calculate_slippage_try. rewrite Hr. cbv zeta.
    destruct (float_of_Z_small _ Hq) as (e & -> & He & Hve).
    change ((100 - 0) / 100)%float with 1%float.
    assert (Hp : finite (e * 1)).
    { apply product_range; [exact He|exact I|]. rewrite B2R_1, Rabs_pos_eq; lra. }
    pose proof (result_srnd _ _ (mul_step e 1 He I) Hp) as Hv.
    fold (B2R (e * 1)) in Hv. rewrite B2R_1, Rmult_1_r in Hv.
    assert (Heq : B2R (e * 1) = B2R e).
    { apply Rle_antisym.
      - apply (srnd_mono (B2R e) (B2R e)); [lra|exact Hv|apply srnd_B2R, He].
      - apply (srnd_mono (B2R e) (B2R e)); [lra|apply srnd_B2R, He|exact Hv]. }
    destruct (int_of_float_trunc _ Hp) as (z & -> & Hz & _).
    rewrite Heq, Hve in Hz. specialize (Hz ltac:(apply IZR_le; lia)).
    assert (H1 : (IZR (List.last rest a) < IZR (z + 1))%R) by (rewrite plus_IZR; lra).
    apply lt_IZR in H1. destruct Hz as [Hz _]. apply le_IZR in Hz. lia.
  - vm_compute. reflexivity.
Qed.

Lemma min_out_at_the_ends_witness :
  quoting 1000000000000000 1 [] = Some [1; 1000000000000000]
  /\ 0 <= List.last [1000000000000000] 1 < 2 ^ 53
  /\ Kumbaya.calculate_slippage (quoting 1000000000000000) 1 [] 100 = 0
  /\ Kumbaya.calculate_slippage (quoting 1000000000000000) 1 [] 0 = 1000000000000000.
Proof.
  assert (Hq : 0 <= List.last [1000000000000000] 1 < 2 ^ 53) by (simpl; lia).
  destruct (min_out_at_the_ends (quoting 1000000000000000) 1 []) as (H100 & H0 & _).
  split; [reflexivity|]. split; [exact Hq|]. split; [exact H100|].
  exact (H0 1 [1000000000000000] eq_refl Hq).
Defined.

End NumericExtra.

(** ** The caches and the liquidity check of the Kumbaya object *)

Module KumbayaExtra.
Import Kumbaya.

(** A chain on which WETH and a token form a pair. *)
Definition sample_chain : Chain :=
  {| to_checksum_address := fun a => Py.Ok a;
     getPair := fun _ _ => Py.Ok "0x2222222222222222222222222222222222222222";
     getReserves := fun _ => Py.Ok (5000000000000000000, 1000000000000000000000, 1700000000);
     token0 := fun _ => Py.Ok "0xEeeeeEeeeEeEeeEeEeEeeEEEeeeeEeeeeeeeEEeE";
     erc20 := fun _ => Py.Ok ("Token", "TKN", 18) |}.

(** The same chain after the factory and the token contract stopped
    answering. *)
Definition silent_chain : Chain :=
  {| to_checksum_address := to_checksum_address sample_chain;
     getPair := fun _ _ => Py.Raise "timeout";
     getReserves := getReserves sample_chain;
     token0 := token0 sample_chain;
     erc20 := fun _ => Py.Raise "timeout" |}.

(** X19: a pair that the factory reports is cached under both orders
    of its tokens: later calls, in either order, return it without
    asking the factory, whatever the factory would answer then; a zero
    address or a failed call is not cached. *)
Theorem pair_address_is_cached_both_ways c k token_a token_b a b :
  to_checksum_address c token_a = Py.Ok a ->
  to_checksum_address c token_b = Py.Ok b ->
  _pair_cache k !! (a +:+ "-" +:+ b) = None ->
  (forall pair,
     getPair c a b = Py.Ok pair -> pair <> zero_address ->
     fst (get_pair_address c k token_a token_b) = Py.Ok (Some pair)
     /\ forall c',
          (forall x, to_checksum_address c' x = to_checksum_address c x) ->
          get_pair_address c' (snd (get_pair_address c k token_a token_b)) token_a token_b
          = (Py.Ok (Some pair), snd (get_pair_address c k token_a token_b))
          /\ get_pair_address c' (snd (get_pair_address c k token_a token_b)) token_b token_a
             = (Py.Ok (Some pair), snd (get_pair_address c k token_a token_b)))
  /\ ((getPair c a b = Py.Ok zero_address \/ exists msg, getPair c a b = Py.Raise msg) ->
      get_pair_address c k token_a token_b = (Py.Ok None, k)).
Proof.
  intros Ha Hb Hmiss. split.
  - intros pair Hpair Hnz.
    assert (Hfirst : get_pair_address c k token_a token_b
                     = (Py.Ok (Some pair),
                        {| _pair_cache :=
                             <[b +:+ "-" +:+ a := pair]>
                               (<[a +:+ "-" +:+ b := pair]> (_pair_cache k));
                           _token_info_cache := _token_info_cache k |})).
    { unfold get_pair_address. rewrite Ha, Hb. cbv zeta. rewrite Hmiss, Hpair.
      rewrite (proj2 (String.eqb_neq _ _) Hnz). reflexivity. }
    rewrite Hfirst. split; [reflexivity|]. intros c' Hsame. simpl. split.
    + unfold get_pair_address. rewrite !Hsame, Ha, Hb. cbv zeta. simpl _pair_cache.
      destruct (decide (b +:+ "-" +:+ a = a +:+ "-" +:+ b)) as [->|Hne].
      * rewrite lookup_insert_eq. reflexivity.
      * rewrite lookup_insert_ne by exact Hne. rewrite lookup_insert_eq. reflexivity.
    + unfold get_pair_address. rewrite !Hsame, Ha, Hb. cbv zeta. simpl _pair_cache.
      rewrite lookup_insert_eq. reflexivity.
  - intros Hfail. unfold get_pair_address. rewrite Ha, Hb. cbv zeta. rewrite Hmiss.
    destruct Hfail as [->|[msg ->]]; [|reflexivity].
    rewrite String.eqb_refl. reflexivity.
Qed.

Lemma pair_address_is_cached_both_ways_witness :
  get_pair_address sample_chain init
    "0x1111111111111111111111111111111111111111" default_base_token
  = (Py.Ok (Some "0x2222222222222222222222222222222222222222"),
     snd (get_pair_address sample_chain init
            "0x1111111111111111111111111111111111111111" default_base_token))
  /\ get_pair_address silent_chain
       (snd (get_pair_address sample_chain init
               "0x1111111111111111111111111111111111111111" default_base_token))
       default_base_token "0x1111111111111111111111111111111111111111"
     = (Py.Ok (Some "0x2222222222222222222222222222222222222222"),
        snd (get_pair_address sample_chain init
               "0x1111111111111111111111111111111111111111" default_base_token)).
Proof.
  destruct (pair_address_is_cached_both_ways sample_chain init
              "0x1111111111111111111111111111111111111111" default_base_token
              "0x1111111111111111111111111111111111111111" default_base_token
              eq_refl eq_refl eq_refl) as [Hhit _].
  destruct (Hhit "0x2222222222222222222222222222222222222222" eq_refl) as [H1 H2];
    [discriminate|].
  split.
  - rewrite <- H1. apply surjective_pairing.
  - exact (proj2 (H2 silent_chain (fun _ => eq_refl))).
Defined.

(** X20: a token record that was read is served from the cache: a
    later call for the same address returns the same record without
    reading the token contract, whatever the contract would answer then. *)
Theorem token_info_is_served_from_cache c c' k token_address token_info k' :
  get_token_info c k token_address = (Py.Ok (Some token_info), k') ->
  (forall x, to_checksum_address c' x = to_checksum_address c x) ->
  get_token_info c' k' token_address = (Py.Ok (Some token_info), k').
Proof.
  unfold get_token_info. intros Hget Hsame. rewrite Hsame.
  destruct (to_checksum_address c token_address) as [addr|msg]; [|discriminate].
  destruct (_token_info_cache k !! addr) as [cached|] eqn:Hc.
  - injection Hget as <- <-. rewrite Hc. reflexivity.
  - destruct (erc20 c addr) as [[[name symbol] decimals]|msg]; [|discriminate].
    injection Hget as <- <-. simpl. rewrite lookup_insert_eq. reflexivity.
Qed.

Lemma token_info_is_served_from_cache_witness :
  exists token_info k',
    get_token_info sample_chain init "0x1111111111111111111111111111111111111111"
    = (Py.Ok (Some token_info), k')
    /\ info_symbol token_info = "TKN"
    /\ get_token_info silent_chain k' "0x1111111111111111111111111111111111111111"
       = (Py.Ok (Some token_info), k').
Proof.
  eexists _, _. split; [reflexivity|]. split; [reflexivity|].
  apply (token_info_is_served_from_cache sample_chain silent_chain init).
  - reflexivity.
  - intros x. reflexivity.
Defined.

(** X21: [check_liquidity] answers [False] for every token, every
    threshold and every state of the chain: without a price it gives up,
    and with a price it asks for the pair address with the token alone,
    the call raises and the exception is turned into [False]. *)
Theorem check_liquidity_is_always_false c k token_address min_liquidity_eth :
  fst (check_liquidity c k token_address min_liquidity_eth) = false.
Proof.
  unfold check_liquidity.
  destruct (get_token_price c k token_address default_base_token) as [[price|] k1];
    [|reflexivity].
  destruct (negb (Py.truthy price)); reflexivity.
Qed.

End KumbayaExtra.

Module PriceExtra.
Import Binary64 KumbayaFacts Kumbaya.

Lemma finite_nonneg_leb p : finite p -> (0 <= B2R p)%R ->
  (0 <=? p)%float = true /\ (p <? infinity)%float = true.
Proof.
  unfold finite, B2R. rewrite FloatAxioms.leb_spec, FloatAxioms.ltb_spec.
  change (Prim2SF 0) with (S754_zero false).
  change (Prim2SF infinity) with (S754_infinity false).
  destruct (Prim2SF p) as [s|s| |s m e]; try contradiction; intros _ Hv.
  - split; reflexivity.
  - destruct s; [|split; reflexivity].
    pose proof (magnitude_pos m e). unfold SF2R in Hv. lra.
Qed.

(** [float(a) / float(b) if b > 0 else 0] on amounts that are not
    negative: a number that is not negative. *)
Lemma reserve_ratio_number a b p :
  0 <= a -> 0 <= b -> reserve_ratio a b = Py.Ok p -> finite p /\ (0 <= B2R p)%R.
Proof.
  intros Ha Hb. unfold reserve_ratio.
  destruct (Z.ltb_spec 0 b) as [Hpos|Hz].
  2:{ intros [= <-]. split; [exact I|]. rewrite B2R_0. lra. }
  destruct (Py.float_of_Z a) as [fa|msg] eqn:Hfa;
    destruct (Py.float_of_Z b) as [fb|msg'] eqn:Hfb; try discriminate.
  intros [= <-].
  destruct (float_of_Z_value _ _ Hfa) as [Hfina Hva].
  destruct (float_of_Z_value _ _ Hfb) as [Hfinb Hvb].
  assert (Ha0 : (0 <= B2R fa)%R).
  { apply (srnd_nonneg (IZR a)); [apply IZR_le; exact Ha|exact Hva]. }
  assert (Hb1 : (1 <= B2R fb)%R).
  { apply (srnd_mono 1 (IZR b)); [apply IZR_le; lia| |exact Hvb].
    left. split; [lra|exact rnd_1]. }
  assert (Hshape : exists s m e, Prim2SF fb = S754_finite s m e).
  { unfold finite, B2R in *. destruct (Prim2SF fb) as [s|s| |s m e]; try contradiction.
    - simpl in Hb1. lra.
    - eauto. }
  destruct Hshape as (s & m & e & Hshape).
  pose proof (div_step fa fb s m e Hfina Hshape) as Hdiv.
  assert (Hq : (0 <= B2R fa / B2R fb <= B2R fa)%R).
  { split.
    - apply Rmult_le_pos; [exact Ha0|]. apply Rlt_le, Rinv_0_lt_compat. lra.
    - apply (Rmult_le_reg_r (B2R fb)); [lra|].
      unfold Rdiv. rewrite Rmult_assoc, Rinv_l by lra. nra. }
  assert (Hfin : finite (fa / fb)).
  { apply (result_finite _ _ (Rabs (B2R fa)) Hdiv (rnd_abs_B2R fa Hfina)).
    - rewrite !Rabs_pos_eq by lra. lra.
    - apply abs_B2R_lt_emax. }
  split; [exact Hfin|].
  apply (srnd_nonneg (B2R fa / B2R fb)); [lra|].
  apply result_srnd; assumption.
Qed.

(** X24: on reserves that are not negative, a price that
    [get_token_price] returns is a number that is not negative: never
    NaN, never below zero, never an infinity. *)
Theorem token_price_is_not_negative c k token_address base_token p k' :
  (forall pair reserve0 reserve1 t,
     getReserves c pair = Py.Ok (reserve0, reserve1, t) -> 0 <= reserve0 /\ 0 <= reserve1) ->
  get_token_price c k token_address base_token = (Some p, k') ->
  (0 <=? p)%float = true /\ (p <? infinity)%float = true.
Proof.
  intros Hres. unfold get_token_price.
  destruct (get_pair_address c k token_address base_token) as [[[pair|]|msg] k1];
    try discriminate.
  destruct (String.eqb pair ""); [discriminate|].
  unfold get_pair_reserves.
  destruct (to_checksum_address c pair) as [pair'|msg]; [|discriminate].
  destruct (getReserves c pair') as [[[r0 r1] t]|msg] eqn:Hr; [|discriminate].
  destruct (Hres _ _ _ _ Hr) as [H0 H1].
  destruct (token0 c pair) as [t0|msg]; [|discriminate].
  destruct (same_address c t0 token_address) as [is0|msg]; [|discriminate].
  destruct is0.
  - destruct (reserve_ratio r1 r0) as [q|msg] eqn:Hq; [|discriminate].
    intros [= <- _]. destruct (reserve_ratio_number _ _ _ H1 H0 Hq).
    apply finite_nonneg_leb; assumption.
  - destruct (reserve_ratio r0 r1) as [q|msg] eqn:Hq; [|discriminate].
    intros [= <- _]. destruct (reserve_ratio_number _ _ _ H0 H1 Hq).
    apply finite_nonneg_leb; assumption.
Qed.

Lemma token_price_is_not_negative_witness :
  exists p k',
    get_token_price KumbayaExtra.sample_chain init
      "0x1111111111111111111111111111111111111111" default_base_token = (Some p, k')
    /\ (0 <=? p)%float = true /\ (p <? infinity)%float = true.
Proof.
  assert (Hres : forall pair reserve0 reserve1 t,
             getReserves KumbayaExtra.sample_chain pair = Py.Ok (reserve0, reserve1, t) ->
             0 <= reserve0 /\ 0 <= reserve1)
    by (intros pair r0 r1 t [= <- <- _]; lia).
  eexists _, _. split; [reflexivity|].
  eapply (token_price_is_not_negative KumbayaExtra.sample_chain init
            "0x1111111111111111111111111111111111111111" default_base_token);
    [exact Hres|reflexivity].
Defined.

End PriceExtra.

(** ** The executor on the liquidity check of the Kumbaya object *)

Module WiringExtra.
Import Executor.

(** The executor reads [check_liquidity] from the Kumbaya object, in
    whatever state its caches are. *)
Definition wired (c : Kumbaya.Chain) (env : Env) : Prop :=
  forall token min_liquidity_eth,
    exists k,
      check_liquidity env token min_liquidity_eth
      = Py.Ok (fst (Kumbaya.check_liquidity c k token min_liquidity_eth)).

Lemma wired_checks_fail c env st req :
  wired c env -> _pre_execution_checks env st req = false.
Proof.
  intros Hw. unfold _pre_execution_checks.
  destruct (Hw (token_address req) (amount_eth req * 0.5)%float) as [k ->].
  unfold Kumbaya.check_liquidity.
  destruct (Kumbaya.get_token_price c k (token_address req) Kumbaya.default_base_token)
    as [[price|] k1]; [|reflexivity].
  destruct (negb (Py.truthy price)); reflexivity.
Qed.

(** The approving collaborators, the liquidity check taken from the
    Kumbaya object on the sample chain. *)
Definition approving_on_kumbaya : Env :=
  {| check_liquidity := fun token min_liquidity_eth =>
       Py.Ok (fst (Kumbaya.check_liquidity KumbayaExtra.sample_chain Kumbaya.init
                     token min_liquidity_eth));
     simulate_honeypot := simulate_honeypot ExecutorFacts.approving;
     gas_price_checks := gas_price_checks ExecutorFacts.approving;
     get_token_info := get_token_info ExecutorFacts.approving;
     get_amounts_out := get_amounts_out ExecutorFacts.approving;
     build_swap_transaction := build_swap_transaction ExecutorFacts.approving;
     estimate_gas := estimate_gas ExecutorFacts.approving;
     gas_price_build := gas_price_build ExecutorFacts.approving;
     create_trade := create_trade ExecutorFacts.approving;
     elapsed := elapsed ExecutorFacts.approving |}.

(** X25: with the liquidity check of the Kumbaya object, every
    execution stops at the pre-execution checks: it returns the failure
    [Pre-execution checks failed], leaves the executor as it was, and the
    execution loop never stores a result, whatever the other
    collaborators answer. *)
Theorem kumbaya_liquidity_check_blocks_every_snipe c env envs req st :
  wired c env -> Forall (wired c) envs ->
  _execute_snipe env req st = (failure "Pre-execution checks failed" 0, st)
  /\ snipe_results (execution_loop envs st) = snipe_results st.
Proof.
  intros Hw Hall. split.
  - unfold _execute_snipe. rewrite (wired_checks_fail c env st req Hw). reflexivity.
  - revert st. induction Hall as [|e es He _ IH]; intros st; [reflexivity|].
    cbn [execution_loop]. rewrite IH. unfold execution_loop_step.
    destruct (Queue.get (execution_queue st)) as [[r q]|]; [|reflexivity].
    unfold _execute_snipe. rewrite (wired_checks_fail c e _ r He). reflexivity.
Qed.

Lemma kumbaya_liquidity_check_blocks_every_snipe_witness :
  wired KumbayaExtra.sample_chain approving_on_kumbaya
  /\ Forall (wired KumbayaExtra.sample_chain) [approving_on_kumbaya]
  /\ _execute_snipe approving_on_kumbaya ExecutorFacts.first_request init
     = (failure "Pre-execution checks failed" 0, init)
  /\ snipe_results
       (execution_loop [approving_on_kumbaya]
          (set_queue (Queue.mk 0 [ExecutorFacts.first_request]) init))
     = snipe_results (set_queue (Queue.mk 0 [ExecutorFacts.first_request]) init).
Proof.
  assert (Hw : wired KumbayaExtra.sample_chain approving_on_kumbaya).
  { intros token m. exists Kumbaya.init. reflexivity. }
  assert (Hall : Forall (wired KumbayaExtra.sample_chain) [approving_on_kumbaya])
    by (constructor; [exact Hw|constructor]).
  split; [exact Hw|]. split; [exact Hall|].
  split.
  - exact (proj1 (kumbaya_liquidity_check_blocks_every_snipe KumbayaExtra.sample_chain
                    approving_on_kumbaya [] ExecutorFacts.first_request init Hw
                    (Forall_nil_2 _))).
  - exact (proj2 (kumbaya_liquidity_check_blocks_every_snipe KumbayaExtra.sample_chain
                    approving_on_kumbaya [approving_on_kumbaya]
                    ExecutorFacts.first_request
                    (set_queue (Queue.mk 0 [ExecutorFacts.first_request]) init) Hw Hall)).
Defined.

End WiringExtra.
